(** * FinTrack: aggregation helpers, CSV export and CRUD handlers

    A shallow embedding of the client-side computations of the finance
    tracker (budget status, monthly and category summaries, savings-goal
    progress, CSV export, the create/update/delete handlers of the pages)
    and of the declared foreign-key policy of the relational schema.

    Conventions of the embedding.
    - A number of a row (an amount, a budget) is the rational [Q] that the
      NUMERIC column holds; JavaScript receives it as the nearest double,
      [Js.round64].  The sums of amounts (every [reduce], the daily [+=])
      and the quotient and product under [Math.round] are computed as the
      code computes them: every operand is read as a double and every
      result is rounded to the nearest double, ties to even ([Js.plus64],
      [Js.div64], [Js.times64]); [toFixed] and [parseFloat] print and read
      doubles.  The figures that a page only displays or hands on (a
      remaining budget, a balance, a return rate, a bar width, a new saved
      amount) are kept as the exact value of their expression,
      [Js.div] and [Js.times] included.  A [Js.number] adds the two
      infinities and NaN that a zero divisor produces; the sign of zero is
      not kept.
    - A date string of a row is kept as the calendar fields that
      [new Date(s)] yields in local time ([getFullYear], [getMonth],
      [getDate]); parsing and time zones are not modelled.
    - [useState] cells are fields of a page-state record; an event handler
      is a function from the state, its arguments and the backend's answer
      to the next state. *)

From Stdlib Require Import ZArith QArith Qround Qabs Qpower Lqa.
From Stdlib Require Import List String Ascii Bool Lia.
From Stdlib Require Import Permutation Sorted.
From Stdlib Require Import DecimalString DecimalN.
Import ListNotations.

Local Open Scope string_scope.
Local Open Scope Z_scope.
Local Open Scope Q_scope.

(** ** JavaScript numbers *)

Module Js.

Inductive number : Type :=
| Fin (q : Q)
| PosInf
| NegInf
| NaN.

(** *** Doubles

    [mag q] is the position of the leading binary digit of [q]:
    [2 ^ (mag q - 1) <= |q| < 2 ^ mag q] for a [q] other than 0. *)
Definition mag (q : Q) : Z :=
  let k := (Z.log2 (Z.abs (Qnum q)) - Z.log2 (Zpos (Qden q)))%Z in
  if Qle_bool (2 ^ k) (Qabs q) then (k + 1)%Z else k.

(** The nearest integer, the even one on a tie. *)
Definition rne (x : Q) : Z :=
  let f := Qfloor x in
  match Qcompare (x - inject_Z f) (1 # 2) with
  | Lt => f
  | Gt => (f + 1)%Z
  | Eq => if Z.even f then f else (f + 1)%Z
  end.

(** The double nearest to [q], a tie going to the even significand (the
    rounding of every arithmetic operation of IEEE 754 binary64): [q] is
    scaled by the power of two that leaves 53 binary digits before the
    point, rounded there, and scaled back (to a fraction in lowest
    terms).  The exponent range of doubles
    is not limited here: a magnitude past 1.8e308 or below 2.2e-308 keeps
    its 53 digits. *)
Definition round64 (q : Q) : Q :=
  if Qeq_bool q 0 then 0
  else let e := (mag q - 53)%Z in Qred (inject_Z (rne (q / 2 ^ e)) * 2 ^ e).

(** [a + b] *)
Definition plus64 (a b : Q) : Q := round64 (round64 a + round64 b).

(** [a / b]: a zero divisor gives an infinity, or NaN when the dividend is
    zero too. *)
Definition div64 (a b : Q) : number :=
  if Qeq_bool b 0 then
    if Qeq_bool a 0 then NaN
    else if Qle_bool 0 a then PosInf else NegInf
  else Fin (round64 (round64 a / round64 b)).

(** [x * k] for the result [x] of an operation, a double already, and a
    finite constant [k]. *)
Definition times64 (x : number) (k : Q) : number :=
  match x with
  | Fin q => Fin (round64 (q * round64 k))
  | NaN => NaN
  | PosInf =>
      if Qeq_bool k 0 then NaN else if Qle_bool 0 k then PosInf else NegInf
  | NegInf =>
      if Qeq_bool k 0 then NaN else if Qle_bool 0 k then NegInf else PosInf
  end.

(** *** The value of an expression, before any rounding to a double

    [a / b] on finite operands: a zero divisor gives an infinity, or NaN
    when the dividend is zero too. *)
Definition div (a b : Q) : number :=
  if Qeq_bool b 0 then
    if Qeq_bool a 0 then NaN
    else if Qle_bool 0 a then PosInf else NegInf
  else Fin (a / b).

(** [x * k] for a finite constant [k]. *)
Definition times (x : number) (k : Q) : number :=
  match x with
  | Fin q => Fin (q * k)
  | NaN => NaN
  | PosInf =>
      if Qeq_bool k 0 then NaN else if Qle_bool 0 k then PosInf else NegInf
  | NegInf =>
      if Qeq_bool k 0 then NaN else if Qle_bool 0 k then NegInf else PosInf
  end.

(** [Math.round]: the nearest integer, a tie going up. *)
Definition round (x : number) : number :=
  match x with
  | Fin q => Fin (inject_Z (Qfloor (q + (1 # 2))))
  | other => other
  end.

(** [Math.min(a, b)]. *)
Definition min (a b : number) : number :=
  match a, b with
  | NaN, _ | _, NaN => NaN
  | NegInf, _ | _, NegInf => NegInf
  | PosInf, y => y
  | x, PosInf => x
  | Fin p, Fin q => if Qle_bool p q then Fin p else Fin q
  end.

(** [x >= k] for a finite constant [k]; false on NaN. *)
Definition ge (x : number) (k : Q) : bool :=
  match x with
  | Fin q => Qle_bool k q
  | PosInf => true
  | NegInf | NaN => false
  end.

(** Truthiness of a [number | null] cell: [null] and [0] are falsy. *)
Definition truthy (x : option Q) : bool :=
  match x with
  | None => false
  | Some q => negb (Qeq_bool q 0)
  end.

Definition is_finite (x : number) : bool :=
  match x with Fin _ => true | _ => false end.

(** [x % m] for a finite non-zero [m]: the remainder of the division
    truncated towards zero, with the sign of [x]. *)
Definition rem (x m : Q) : Q :=
  let q := x / m in
  x - m * inject_Z (if Qle_bool 0 q then Qfloor q else Qceiling q).

(** [Math.max(...xs)]; the empty list gives minus infinity. *)
Definition max (xs : list Q) : number :=
  fold_left
    (fun m x =>
       match m with
       | Fin q => if Qle_bool q x then Fin x else Fin q
       | NegInf => Fin x
       | other => other
       end)
    xs NegInf.

(** [a / b] for a finite [a] and any [b]. *)
Definition div_by (a : Q) (b : number) : number :=
  match b with
  | Fin q => div a q
  | PosInf | NegInf => Fin 0
  | NaN => NaN
  end.

End Js.

(** ** Rows of the tables (database.types) *)

(** ['income' | 'expense'] *)
Module EntryType.
Inductive t : Type := income | expense.

Definition eqb (a b : t) : bool :=
  match a, b with
  | income, income | expense, expense => true
  | _, _ => false
  end.

Definition to_string (a : t) : string :=
  match a with income => "income" | expense => "expense" end.
End EntryType.

(** Calendar fields of a parsed date; [month0] is [getMonth()], 0 to 11. *)
Module Date.
Record t : Type := mk { year : Z; month0 : Z; day : Z }.
End Date.

Module Category.
Record t : Type := mk {
  id : string;
  name : string;
  color : string;
  icon : string;
  user_id : string;
  created_at : string;
  type : EntryType.t;
  budget : option Q
}.
End Category.

Module Transaction.
Record t : Type := mk {
  id : string;
  amount : Q;
  description : string;
  date : Date.t;
  category_id : string;
  user_id : string;
  created_at : string;
  type : EntryType.t;
  is_recurring : bool;
  recurring_interval : option string;
  recurring_end_date : option string
}.
End Transaction.

Module SavingsGoal.
Record t : Type := mk {
  id : string;
  name : string;
  target_amount : Q;
  current_amount : Q;
  target_date : option Date.t;
  user_id : string;
  created_at : string;
  color : string;
  icon : string
}.
End SavingsGoal.

Module Investment.
Record t : Type := mk {
  id : string;
  name : string;
  type : string;
  amount_invested : Q;
  current_value : Q;
  purchase_date : Date.t;
  user_id : string;
  created_at : string;
  notes : option string;
  risk_level : string
}.
End Investment.

(** [xs.reduce((sum, t) => sum + t.amount, 0)] *)
Definition reduce_amounts (xs : list Transaction.t) : Q :=
  fold_left (fun sum t => Js.plus64 sum (Transaction.amount t)) xs 0.

(** ** Utilities (lib/utils) *)

(** [new Date(year, month, 1)]: a month index outside 0..11 carries into
    the year.  The clock's year is taken outside 0..99, where the
    constructor would add 1900. *)
Definition Date_first_of_month (year month : Z) : Date.t :=
  {| Date.year := year + month / 12;
     Date.month0 := month mod 12;
     Date.day := 1 |}.

(** [toLocaleString('en-US', { month: 'short' })] *)
Definition short_month_name (month0 : Z) : string :=
  nth (Z.to_nat month0)
      ["Jan"; "Feb"; "Mar"; "Apr"; "May"; "Jun";
       "Jul"; "Aug"; "Sep"; "Oct"; "Nov"; "Dec"] "".

Module MonthRef.
Record t : Type := mk { month : Z; year : Z; name : string }.
End MonthRef.

(** [today] is the clock reading [new Date()]. *)
Definition getLastNMonths (today : Date.t) (n : nat) : list MonthRef.t :=
  rev
    (map
       (fun i : nat =>
          let month :=
            Date_first_of_month (Date.year today)
                                (Date.month0 today - Z.of_nat i) in
          {| MonthRef.month := Date.month0 month + 1;
             MonthRef.year := Date.year month;
             MonthRef.name := short_month_name (Date.month0 month) |})
       (seq 0 n)).

(** *** Dates that overflow their month *)

Definition is_leap_year (year : Z) : bool :=
  (year mod 4 =? 0)%Z && (negb (year mod 100 =? 0)%Z || (year mod 400 =? 0)%Z).

Definition days_in_month (year month0 : Z) : Z :=
  (if month0 =? 1 then (if is_leap_year year then 29 else 28)
   else if (month0 =? 3) || (month0 =? 5) || (month0 =? 8) || (month0 =? 10)
   then 30 else 31)%Z.

(** A day number outside its month carries into the months before or
    after, one month at a time. *)
Fixpoint carry_days (fuel : nat) (year month0 day : Z) : Date.t :=
  match fuel with
  | O => {| Date.year := year; Date.month0 := month0; Date.day := day |}
  | S fuel' =>
      if (day <? 1)%Z then
        let year' := (if month0 =? 0 then year - 1 else year)%Z in
        let month' := (if month0 =? 0 then 11 else month0 - 1)%Z in
        carry_days fuel' year' month' (day + days_in_month year' month')%Z
      else if (days_in_month year month0 <? day)%Z then
        let year' := (if month0 =? 11 then year + 1 else year)%Z in
        let month' := (if month0 =? 11 then 0 else month0 + 1)%Z in
        carry_days fuel' year' month' (day - days_in_month year month0)%Z
      else {| Date.year := year; Date.month0 := month0; Date.day := day |}
  end.

(** The calendar fields of the date made of a full year, a month index
    and a day number: the month index is brought into 0..11 first, then the
    day into its month. *)
Definition Date_make (year month day : Z) : Date.t :=
  carry_days (Z.to_nat (Z.abs day) + 1)%nat (year + month / 12)%Z
             (month mod 12)%Z day.

(** [date.setMonth(month)] keeps the day of the month. *)
Definition Date_setMonth (date : Date.t) (month : Z) : Date.t :=
  Date_make (Date.year date) month (Date.day date).

(** [toLocaleString('en-US', { month: 'long' })] *)
Definition long_month_name (month0 : Z) : string :=
  nth (Z.to_nat month0)
      ["January"; "February"; "March"; "April"; "May"; "June"; "July";
       "August"; "September"; "October"; "November"; "December"] "".

Definition getMonthName (today : Date.t) (month : Z) : string :=
  let date := Date_setMonth today (month - 1)%Z in
  long_month_name (Date.month0 date).

(** [MakeFullYear]: the constructor reads a year from 0 to 99 as a year
    of the twentieth century. *)
Definition MakeFullYear (year : Z) : Z :=
  if (0 <=? year)%Z && (year <=? 99)%Z then (1900 + year)%Z else year.

(** [new Date(year, month, day)], for a year that a date can hold (from
    -271820 to 275759); beyond, the date is invalid. *)
Definition Date_new (year month day : Z) : Date.t :=
  Date_make (MakeFullYear year) month day.

Definition getDaysInMonth (year month : Z) : Z :=
  Date.day (Date_new year month 0).

(** [Array.prototype.sort(cmp)]: a stable sort; the element that comes
    first in the input stays first unless the comparator is positive.
    Every stable sort agrees with it on a comparator that orders by a
    key. *)
Fixpoint sort_insert {A : Type} (cmp : A -> A -> Q) (x : A) (l : list A)
  : list A :=
  match l with
  | [] => [x]
  | y :: l' =>
      if Qle_bool (cmp x y) 0 then x :: y :: l'
      else y :: sort_insert cmp x l'
  end.

Definition Array_sort {A : Type} (cmp : A -> A -> Q) (l : list A) : list A :=
  fold_right (sort_insert cmp) [] l.

(** ** Text formatting *)

Definition digit_char (d : Z) : ascii := ascii_of_nat (48 + Z.to_nat d).

Definition decimal_string (n : Z) : string :=
  NilZero.string_of_uint (N.to_uint (Z.to_N n)).

Definition two_digits (n : Z) : string :=
  String (digit_char ((n / 10) mod 10)) (String (digit_char (n mod 10)) "").

(** The fixed notation of [x.toFixed(2)]: the sign, then the integer [n]
    nearest to [|x| * 100] (the larger one on a tie) written with the point
    before its last two digits. *)
Definition fixed2 (x : Q) : string :=
  let n := Qfloor (Qabs x * 100 + (1 # 2)) in
  ((if Qle_bool 0 x then "" else "-")
     ++ decimal_string (n / 100) ++ "." ++ two_digits (n mod 100))%string.

(** [s * u] reads back as the double [x]. *)
Definition reads_back (x : Q) (s u : Z) : bool :=
  Qeq_bool (Js.round64 (inject_Z (s * u))) x.

(** The digits of [Number::toString] for a double [x] of 1e21 or more whose
    integer part has [n] digits: the least number [k] of digits and the
    integer [s] of [k] digits such that [s * 10^(n-k)] reads back as [x],
    the closest such [s] when there are two, the even one on a tie.  The
    result is [s] with the number of digits before the point; a candidate
    [10^k] counts as the digit 1 one place higher. *)
Fixpoint shortest_digits (steps : nat) (k : Z) (x : Q) (n : Z) : Z * Z :=
  let u := (10 ^ (n - k))%Z in
  let lo := Qfloor (x / inject_Z u) in
  let hi := (lo + 1)%Z in
  let pick (s : Z) :=
    if (s =? 10 ^ k)%Z then ((10 ^ (k - 1))%Z, (n + 1)%Z) else (s, n) in
  match steps with
  | O => pick lo
  | S steps' =>
      match reads_back x lo u, reads_back x hi u with
      | true, true =>
          match Qcompare (x - inject_Z (lo * u)) (inject_Z (hi * u) - x) with
          | Lt => pick lo
          | Gt => pick hi
          | Eq => if Z.even lo then pick lo else pick hi
          end
      | true, false => pick lo
      | false, true => pick hi
      | false, false => shortest_digits steps' (k + 1) x n
      end
  end.

(** [Number::toString] of a double of magnitude 1e21 or more: the first
    digit, the others after a point when there are any, and the exponent. *)
Definition toString_exponent (x : Q) : string :=
  let a := Qabs x in
  let n := Z.of_nat (String.length (decimal_string (Qfloor a))) in
  let '(s, n') := shortest_digits 17 1 a n in
  let e := ("e+" ++ decimal_string (n' - 1))%string in
  ((if Qle_bool 0 x then "" else "-")
     ++ match decimal_string s with
        | String c EmptyString => String c e
        | String c rest => String c ("." ++ rest ++ e)
        | EmptyString => e
        end)%string.

(** [x.toFixed(2)] of the double nearest to [q]: the fixed notation below
    1e21 in magnitude, and [Number::toString], which is the exponent
    notation there, from 1e21 on. *)
Definition toFixed2 (q : Q) : string :=
  let x := Js.round64 q in
  if Qle_bool (inject_Z (10 ^ 21)) (Qabs x) then toString_exponent x
  else fixed2 x.

(** [format(date, "yyyy-MM-dd")] of date-fns, for a year of the common
    era. *)
Definition format_yyyy_MM_dd (d : Date.t) : string :=
  (two_digits (Date.year d / 100) ++ two_digits (Date.year d) ++ "-"
     ++ two_digits (Date.month0 d + 1) ++ "-" ++ two_digits (Date.day d))%string.

Definition toUpperCase_ascii (c : ascii) : ascii :=
  let n := nat_of_ascii c in
  if (97 <=? n)%nat && (n <=? 122)%nat then ascii_of_nat (n - 32) else c.

(** [s.charAt(0).toUpperCase() + s.slice(1)] *)
Definition capitalize (s : string) : string :=
  match s with
  | EmptyString => EmptyString
  | String c rest => String (toUpperCase_ascii c) rest
  end.

Definition chart_colors : list string :=
  [ "hsl(var(--chart-1))"; "hsl(var(--chart-2))"; "hsl(var(--chart-3))";
    "hsl(var(--chart-4))"; "hsl(var(--chart-5))" ].

(** [Math.floor((i * 137.5) % 360)] *)
Definition generated_hue (i : nat) : Z :=
  Qfloor (Js.rem (inject_Z (Z.of_nat i) * (275 # 2)) 360).

Definition generateColors (count : nat) : list string :=
  let colors := chart_colors in
  if (List.length colors <? count)%nat then
    let moreColors :=
      map (fun i =>
             ("hsl(" ++ decimal_string (generated_hue i) ++ ", 70%, 60%)")%string)
          (seq 0 (count - List.length colors)) in
    (colors ++ moreColors)%list
  else firstn count colors.

(** ** Effects of an event handler, and the backend's answer *)

Inductive Effect : Type :=
| Toast (title description : string) (destructive : bool)
| Request (table operation : string)
| Confirm (message : string)
| Download (filename content : string).

(** [{ data, error }] of one awaited call: [Ok row] has [error] null and
    [data[0] = row] (a call without [.select()] ignores the row);
    [Error message] has [error.message = message]. *)
Inductive Response (A : Type) : Type :=
| Ok (row : A)
| Error (message : string).
Arguments Ok {A} row.
Arguments Error {A} message.

Definition is_request (e : Effect) : bool :=
  match e with Request _ _ => true | _ => false end.

Definition is_download (e : Effect) : bool :=
  match e with Download _ _ => true | _ => false end.

(** [categories.find(c => c.id === id)?.name || "Uncategorized"] *)
Definition category_label (categories : list Category.t) (id : string)
  : string :=
  match find (fun c => Category.id c =? id)%string categories with
  | Some category =>
      if (Category.name category =? "")%string then "Uncategorized"
      else Category.name category
  | None => "Uncategorized"
  end.

Definition csv_headers : list string :=
  ["Date"; "Type"; "Category"; "Description"; "Amount"].

(** [[headers.join(","), ...rows.map(row => row.join(","))].join("\n")] *)
Definition csv_lines (rows : list (list string)) : list string :=
  String.concat "," csv_headers :: map (String.concat ",") rows.

Definition newline : string := String "010" "".

Definition csv_content (rows : list (list string)) : string :=
  String.concat newline (csv_lines rows).

(** ** Budget page *)

Module BudgetPage.

Record BudgetStatus : Type := mkStatus {
  spent : Q;
  remaining : Q;
  percentage : Js.number;
  status : string
}.

Definition getBudgetStatus
    (transactions : list Transaction.t) (category : Category.t)
  : option BudgetStatus :=
  if negb (Js.truthy (Category.budget category)) then None
  else
    match Category.budget category with
    | None => None
    | Some budget =>
        let spent :=
          reduce_amounts
            (filter (fun t => Transaction.category_id t =? Category.id category)%string
                    transactions) in
        let percentage := Js.round (Js.times64 (Js.div64 spent budget) 100) in
        Some {| spent := spent;
                remaining := budget - spent;
                percentage := percentage;
                status :=
                  if Js.ge percentage 90 then "danger"
                  else if Js.ge percentage 75 then "warning"
                  else "normal" |}
    end.

Record FormValues : Type := mkValues {
  v_category_id : string;
  v_budget : Q
}.

Record state : Type := mkState {
  categories : list Category.t;
  transactions : list Transaction.t;
  isAddBudgetOpen : bool;
  isSubmitting : bool;
  currentCategory : option Category.t
}.



End BudgetPage.

(** ** Savings-goal progress (goal card and dashboard) *)

Module GoalCard.
Definition percentage (goal : SavingsGoal.t) : Js.number :=
  Js.min (Js.Fin 100)
    (Js.round
       (Js.times64
          (Js.div64 (SavingsGoal.current_amount goal)
                    (SavingsGoal.target_amount goal)) 100)).
End GoalCard.

(** ** Dashboard page *)

Module Dashboard.

Record MonthBucket : Type := mkBucket {
  name : string;
  income : Q;
  expenses : Q;
  balance : Q
}.

Record Slice : Type := mkSlice {
  slice_name : string;
  value : Q;
  slice_color : string
}.

Record Stats : Type := mkStats {
  totalIncome : Q;
  totalExpenses : Q;
  stats_balance : Q;
  savingsTotal : Q
}.

Record state : Type := mkState {
  transactions : list Transaction.t;
  categories : list Category.t;
  savingsGoals : list SavingsGoal.t;
  recentTransactions : list Transaction.t;
  monthlyData : list MonthBucket;
  categoryData : list Slice;
  stats : Stats;
  isAddTransactionOpen : bool;
  isSubmitting : bool
}.

Definition of_type (ty : EntryType.t) (t : Transaction.t) : bool :=
  EntryType.eqb (Transaction.type t) ty.

(** [months.map(month => ...)] of the data-processing effect. *)
Definition monthlyStats
    (months : list MonthRef.t) (transactions : list Transaction.t)
  : list MonthBucket :=
  map
    (fun month =>
       let monthTransactions :=
         filter
           (fun t =>
              let date := Transaction.date t in
              (Date.month0 date + 1 =? MonthRef.month month)%Z
              && (Date.year date =? MonthRef.year month)%Z)
           transactions in
       let monthlyIncome :=
         reduce_amounts (filter (of_type EntryType.income) monthTransactions) in
       let monthlyExpenses :=
         reduce_amounts (filter (of_type EntryType.expense) monthTransactions) in
       {| name := MonthRef.name month;
          income := monthlyIncome;
          expenses := monthlyExpenses;
          balance := monthlyIncome - monthlyExpenses |})
    months.

Definition by_value_desc (a b : Slice) : Q := value b - value a.

Definition slice_of (transactions : list Transaction.t) (category : Category.t)
  : Slice :=
  let amount :=
    reduce_amounts
      (filter (fun t => Transaction.category_id t =? Category.id category)%string
              transactions) in
  {| slice_name := Category.name category;
     value := amount;
     slice_color := Category.color category |}.

Definition positive (c : Slice) : bool := negb (Qle_bool (value c) 0).

Definition expenseByCategory
    (categories : list Category.t) (transactions : list Transaction.t)
  : list Slice :=
  Array_sort by_value_desc
    (filter positive
       (map (slice_of transactions)
          (filter (fun c => EntryType.eqb (Category.type c) EntryType.expense)
                  categories))).

(** The effect that runs on [transactions], [categories], [savingsGoals]:
    it returns at once on an empty transaction list. *)
Definition processData (today : Date.t) (st : state) : state :=
  match transactions st with
  | [] => st
  | _ :: _ =>
      let income_total :=
        reduce_amounts (filter (of_type EntryType.income) (transactions st)) in
      let expenses_total :=
        reduce_amounts (filter (of_type EntryType.expense) (transactions st)) in
      let savings :=
        fold_left (fun sum g => Js.plus64 sum (SavingsGoal.current_amount g))
                  (savingsGoals st) 0 in
      let months := getLastNMonths today 6 in
      {| transactions := transactions st;
         categories := categories st;
         savingsGoals := savingsGoals st;
         recentTransactions := firstn 5 (transactions st);
         monthlyData := monthlyStats months (transactions st);
         categoryData :=
           expenseByCategory (categories st) (transactions st);
         stats := {| totalIncome := income_total;
                     totalExpenses := expenses_total;
                     stats_balance := income_total - expenses_total;
                     savingsTotal := savings |};
         isAddTransactionOpen := isAddTransactionOpen st;
         isSubmitting := isSubmitting st |}
  end.

(** State of a freshly mounted page. *)
Definition initial : state :=
  {| transactions := [];
     categories := [];
     savingsGoals := [];
     recentTransactions := [];
     monthlyData := [];
     categoryData := [];
     stats := {| totalIncome := 0; totalExpenses := 0;
                 stats_balance := 0; savingsTotal := 0 |};
     isAddTransactionOpen := false;
     isSubmitting := false |}.

Definition handleAddTransaction
    (user : option string) (response : Response Transaction.t) (st : state)
  : state * list Effect :=
  match user with
  | None => (st, [])
  | Some _ =>
      match response with
      | Error message =>
          ({| transactions := transactions st;
              categories := categories st;
              savingsGoals := savingsGoals st;
              recentTransactions := recentTransactions st;
              monthlyData := monthlyData st;
              categoryData := categoryData st;
              stats := stats st;
              isAddTransactionOpen := isAddTransactionOpen st;
              isSubmitting := false |},
           [Request "transactions" "insert";
            Toast "Error adding transaction" message true])
      | Ok row =>
          ({| transactions := row :: transactions st;
              categories := categories st;
              savingsGoals := savingsGoals st;
              recentTransactions := recentTransactions st;
              monthlyData := monthlyData st;
              categoryData := categoryData st;
              stats := stats st;
              isAddTransactionOpen := false;
              isSubmitting := false |},
           [Request "transactions" "insert";
            Toast "Transaction added"
                  "Your transaction has been recorded successfully." false])
      end
  end.

(** The default categories of a new user: name, colour, icon and type. *)
Definition defaultCategories : list (string * string * string * EntryType.t) :=
  [ ("Food & Dining", "#14b8a6", "Utensils", EntryType.expense);
    ("Transportation", "#8b5cf6", "Car", EntryType.expense);
    ("Shopping", "#f59e0b", "ShoppingBag", EntryType.expense);
    ("Bills & Utilities", "#ef4444", "Receipt", EntryType.expense);
    ("Entertainment", "#ec4899", "Film", EntryType.expense);
    ("Housing", "#64748b", "Home", EntryType.expense);
    ("Salary", "#22c55e", "Briefcase", EntryType.income);
    ("Investments", "#3b82f6", "TrendingUp", EntryType.income);
    ("Gifts", "#a855f7", "Gift", EntryType.income);
    ("Other Income", "#f97316", "PlusCircle", EntryType.income) ].

(** [createDefaultCategories]: one awaited insert per default category.
    The answer of an insert is not bound to anything: [answers], the
    answers in the order of the inserts, is not looked at. *)
Definition createDefaultCategories
    (user : option string) (answers : list (Response unit)) : list Effect :=
  match user with
  | None => []
  | Some _ => map (fun _ => Request "categories" "insert") defaultCategories
  end.



Definition setTransactions (st : state) (value : list Transaction.t) : state :=
  {| transactions := value;
     categories := categories st;
     savingsGoals := savingsGoals st;
     recentTransactions := recentTransactions st;
     monthlyData := monthlyData st;
     categoryData := categoryData st;
     stats := stats st;
     isAddTransactionOpen := isAddTransactionOpen st;
     isSubmitting := isSubmitting st |}.

Definition setSavingsGoals (st : state) (value : list SavingsGoal.t) : state :=
  {| transactions := transactions st;
     categories := categories st;
     savingsGoals := value;
     recentTransactions := recentTransactions st;
     monthlyData := monthlyData st;
     categoryData := categoryData st;
     stats := stats st;
     isAddTransactionOpen := isAddTransactionOpen st;
     isSubmitting := isSubmitting st |}.


Definition goal_percentage (goal : SavingsGoal.t) : Js.number :=
  Js.min (Js.Fin 100)
    (Js.round
       (Js.times64
          (Js.div64 (SavingsGoal.current_amount goal)
                    (SavingsGoal.target_amount goal)) 100)).

End Dashboard.

(** ** Reports page *)

Module ReportsPage.

Record state : Type := mkState {
  transactions : list Transaction.t;
  categories : list Category.t;
  dateRange_from : Date.t;
  dateRange_to : Date.t;
  categoryFilter : string;
  typeFilter : string
}.

Definition filteredTransactions (st : state) : list Transaction.t :=
  filter
    (fun transaction =>
       if negb (categoryFilter st =? "all")%string
          && negb (Transaction.category_id transaction =? categoryFilter st)%string
       then false
       else if negb (typeFilter st =? "all")%string
               && negb (EntryType.to_string (Transaction.type transaction)
                          =? typeFilter st)%string
       then false
       else true)
    (transactions st).

Definition categoryData (st : state) : list Dashboard.Slice :=
  Array_sort Dashboard.by_value_desc
    (filter Dashboard.positive
       (map (Dashboard.slice_of (filteredTransactions st)) (categories st))).

Definition csv_row (categories : list Category.t) (transaction : Transaction.t)
  : list string :=
  [ format_yyyy_MM_dd (Transaction.date transaction);
    EntryType.to_string (Transaction.type transaction);
    category_label categories (Transaction.category_id transaction);
    Transaction.description transaction;
    toFixed2 (Transaction.amount transaction) ].

Definition exportReport (st : state) : list Effect :=
  match filteredTransactions st with
  | [] =>
      [ Toast "No data to export"
              "Apply different filters or select a different date range."
              false ]
  | _ :: _ =>
      let rows := map (csv_row (categories st)) (filteredTransactions st) in
      let csvContent := csv_content rows in
      [ Download
          ("financial_report_" ++ format_yyyy_MM_dd (dateRange_from st)
             ++ "_to_" ++ format_yyyy_MM_dd (dateRange_to st) ++ ".csv")%string
          csvContent ]
  end.

Record Summary : Type := mkSummary {
  totalIncome : Q;
  totalExpenses : Q;
  transactionCount : nat;
  averageTransaction : Js.number
}.

Definition summary (st : state) : Summary :=
  let filtered := filteredTransactions st in
  {| totalIncome :=
       reduce_amounts (filter (Dashboard.of_type EntryType.income) filtered);
     totalExpenses :=
       reduce_amounts (filter (Dashboard.of_type EntryType.expense) filtered);
     transactionCount := List.length filtered;
     averageTransaction :=
       if (0 <? List.length filtered)%nat
       then Js.div64 (reduce_amounts filtered)
                     (inject_Z (Z.of_nat (List.length filtered)))
       else Js.Fin 0 |}.

(** Width, in percent, of each bar of the category breakdown:
    [(category.value / Math.max(...categoryData.map(c => c.value))) * 100] *)
Definition barWidths (st : state) : list Js.number :=
  map
    (fun category =>
       Js.times
         (Js.div_by (Dashboard.value category)
                    (Js.max (map Dashboard.value (categoryData st))))
         100)
    (categoryData st).

Section DailyData.

(** [transaction.date.split("T")[0]], the day part of the row's date
    string, and [new Date(day).getTime()]; the rows of this embedding keep
    the parsed date, so both are taken as given. *)
Variable dayOf : Transaction.t -> string.
Variable getTime : string -> Z.

Record Day : Type := mkDay {
  date : string;
  income : Q;
  expenses : Q
}.

(** [acc.get(date)] and [acc.set(date, current)] of a [Map], whose entries
    keep the order in which their keys were first set. *)
Fixpoint Map_get (key : string) (acc : list (string * Day)) : option Day :=
  match acc with
  | [] => None
  | (k, v) :: rest => if (k =? key)%string then Some v else Map_get key rest
  end.

Fixpoint Map_set (key : string) (value : Day) (acc : list (string * Day))
  : list (string * Day) :=
  match acc with
  | [] => [(key, value)]
  | (k, v) :: rest =>
      if (k =? key)%string then (k, value) :: rest
      else (k, v) :: Map_set key value rest
  end.

Definition addToDay (acc : list (string * Day)) (transaction : Transaction.t)
  : list (string * Day) :=
  let key := dayOf transaction in
  let current :=
    match Map_get key acc with
    | Some current => current
    | None => {| date := key; income := 0; expenses := 0 |}
    end in
  let current :=
    match Transaction.type transaction with
    | EntryType.income =>
        {| date := date current;
           income := Js.plus64 (income current) (Transaction.amount transaction);
           expenses := expenses current |}
    | EntryType.expense =>
        {| date := date current;
           income := income current;
           expenses :=
             Js.plus64 (expenses current) (Transaction.amount transaction) |}
    end in
  Map_set key current acc.

Definition by_time (a b : Day) : Q :=
  inject_Z (getTime (date a) - getTime (date b)).

(** The spread [...data] comes after the formatted [date] and carries a
    [date] of its own, so the entries keep the day part as their date. *)
Definition dailyData (st : state) : list Day :=
  Array_sort by_time
    (map (fun entry : string * Day => snd entry)
         (fold_left addToDay (filteredTransactions st) [])).

End DailyData.

End ReportsPage.

(** ** Transactions page *)

Module TransactionsPage.

Record FormValues : Type := mkValues {
  v_amount : Q;
  v_description : string;
  v_date : Date.t;
  v_category_id : string;
  v_type : EntryType.t
}.

Record state : Type := mkState {
  transactions : list Transaction.t;
  categories : list Category.t;
  isAddTransactionOpen : bool;
  isEditMode : bool;
  currentTransaction : option Transaction.t;
  isSubmitting : bool
}.

Definition setTransactions
    (f : list Transaction.t -> list Transaction.t) (st : state) : state :=
  {| transactions := f (transactions st);
     categories := categories st;
     isAddTransactionOpen := isAddTransactionOpen st;
     isEditMode := isEditMode st;
     currentTransaction := currentTransaction st;
     isSubmitting := isSubmitting st |}.

Definition setIsSubmitting (b : bool) (st : state) : state :=
  {| transactions := transactions st;
     categories := categories st;
     isAddTransactionOpen := isAddTransactionOpen st;
     isEditMode := isEditMode st;
     currentTransaction := currentTransaction st;
     isSubmitting := b |}.

(** [setIsAddTransactionOpen(false); setCurrentTransaction(null);
    setIsEditMode(false)] *)
Definition closeDialog (st : state) : state :=
  {| transactions := transactions st;
     categories := categories st;
     isAddTransactionOpen := false;
     isEditMode := false;
     currentTransaction := None;
     isSubmitting := isSubmitting st |}.

Definition apply_values (values : FormValues) (transaction : Transaction.t)
  : Transaction.t :=
  {| Transaction.id := Transaction.id transaction;
     Transaction.amount := v_amount values;
     Transaction.description := v_description values;
     Transaction.date := v_date values;
     Transaction.category_id := v_category_id values;
     Transaction.user_id := Transaction.user_id transaction;
     Transaction.created_at := Transaction.created_at transaction;
     Transaction.type := v_type values;
     Transaction.is_recurring := Transaction.is_recurring transaction;
     Transaction.recurring_interval :=
       Transaction.recurring_interval transaction;
     Transaction.recurring_end_date :=
       Transaction.recurring_end_date transaction |}.

(** [user] is the signed-in user's id, [response] the answer of the one
    awaited call. *)
Definition handleAddTransaction
    (user : option string) (values : FormValues)
    (response : Response Transaction.t) (st : state)
  : state * list Effect :=
  match user with
  | None => (st, [])
  | Some _ =>
      let st1 := setIsSubmitting true st in
      let failure message :=
        Toast ("Error " ++ (if isEditMode st then "updating" else "adding")
                 ++ " transaction")%string
              message true in
      let '(st2, log) :=
        match isEditMode st, currentTransaction st with
        | true, Some current =>
            match response with
            | Error message =>
                (st1, [Request "transactions" "update"; failure message])
            | Ok _ =>
                (closeDialog
                   (setTransactions
                      (map (fun transaction =>
                              if (Transaction.id transaction
                                    =? Transaction.id current)%string
                              then apply_values values transaction
                              else transaction))
                      st1),
                 [Request "transactions" "update";
                  Toast "Transaction updated"
                        "Your transaction has been updated successfully."
                        false])
            end
        | _, _ =>
            match response with
            | Error message =>
                (st1, [Request "transactions" "insert"; failure message])
            | Ok row =>
                (closeDialog (setTransactions (cons row) st1),
                 [Request "transactions" "insert";
                  Toast "Transaction added"
                        "Your transaction has been recorded successfully."
                        false])
            end
        end in
      (setIsSubmitting false st2, log)
  end.

(** [confirmed] is the answer to the confirmation prompt. *)
Definition handleDeleteTransaction
    (user : option string) (id : string) (confirmed : bool)
    (response : Response unit) (st : state)
  : state * list Effect :=
  match user with
  | None => (st, [])
  | Some _ =>
      let prompt :=
        Confirm "Are you sure you want to delete this transaction?" in
      if negb confirmed then (st, [prompt])
      else
        match response with
        | Error message =>
            (st, [prompt; Request "transactions" "delete";
                  Toast "Error deleting transaction" message true])
        | Ok _ =>
            (setTransactions
               (filter (fun transaction =>
                          negb (Transaction.id transaction =? id)%string))
               st,
             [prompt; Request "transactions" "delete";
              Toast "Transaction deleted"
                    "Your transaction has been deleted successfully."
                    false])
        end
  end.

Section CsvExport.

(** [Date.prototype.toLocaleDateString()] of the browser's locale, and
    the UTC date of the clock, for the file name. *)
Variable toLocaleDateString : Date.t -> string.
Variable nowUTC : Date.t.

Definition csv_row (categories : list Category.t)
    (transaction : Transaction.t) : list string :=
  [ toLocaleDateString (Transaction.date transaction);
    capitalize (EntryType.to_string (Transaction.type transaction));
    category_label categories (Transaction.category_id transaction);
    Transaction.description transaction;
    toFixed2 (Transaction.amount transaction) ].

Definition exportTransactions (st : state) : list Effect :=
  match transactions st with
  | [] =>
      [ Toast "No transactions to export"
              "Add some transactions first before exporting."
              false ]
  | _ :: _ =>
      let rows := map (csv_row (categories st)) (transactions st) in
      let csvContent := csv_content rows in
      [ Download
          ("transactions_" ++ format_yyyy_MM_dd nowUTC ++ ".csv")%string
          csvContent ]
  end.

End CsvExport.

Definition handleEditTransaction (transaction : Transaction.t) (st : state)
  : state :=
  {| transactions := transactions st;
     categories := categories st;
     isAddTransactionOpen := true;
     isEditMode := true;
     currentTransaction := Some transaction;
     isSubmitting := isSubmitting st |}.

(** [onOpenChange={setIsAddTransactionOpen}] of the dialog. *)
Definition setIsAddTransactionOpen (open : bool) (st : state) : state :=
  {| transactions := transactions st;
     categories := categories st;
     isAddTransactionOpen := open;
     isEditMode := isEditMode st;
     currentTransaction := currentTransaction st;
     isSubmitting := isSubmitting st |}.

(** The "Add Transaction" button of the page header. *)
Definition clickAddTransaction (st : state) : state :=
  {| transactions := transactions st;
     categories := categories st;
     isAddTransactionOpen := true;
     isEditMode := false;
     currentTransaction := None;
     isSubmitting := isSubmitting st |}.

(** The values the dialog hands to the form as defaults. *)
Definition defaultValues (st : state) : option FormValues :=
  match isEditMode st, currentTransaction st with
  | true, Some current =>
      Some {| v_amount := Transaction.amount current;
              v_description := Transaction.description current;
              v_date := Transaction.date current;
              v_category_id := Transaction.category_id current;
              v_type := Transaction.type current |}
  | _, _ => None
  end.

End TransactionsPage.

(** ** Categories page *)

Module CategoriesPage.

Record FormValues : Type := mkValues {
  v_name : string;
  v_type : EntryType.t;
  v_color : string;
  v_icon : string
}.

Record state : Type := mkState {
  categories : list Category.t;
  isAddCategoryOpen : bool;
  isSubmitting : bool;
  currentCategory : option Category.t
}.

(** [{ ...category, ...values }] *)
Definition apply_values (values : FormValues) (category : Category.t)
  : Category.t :=
  {| Category.id := Category.id category;
     Category.name := v_name values;
     Category.color := v_color values;
     Category.icon := v_icon values;
     Category.user_id := Category.user_id category;
     Category.created_at := Category.created_at category;
     Category.type := v_type values;
     Category.budget := Category.budget category |}.

Definition handleAddCategory
    (user : option string) (values : FormValues)
    (response : Response Category.t) (st : state)
  : state * list Effect :=
  match user with
  | None => (st, [])
  | Some _ =>
      let operation :=
        match currentCategory st with
        | Some _ => "update"
        | None => "insert"
        end in
      match response with
      | Error message =>
          ({| categories := categories st;
              isAddCategoryOpen := isAddCategoryOpen st;
              isSubmitting := false;
              currentCategory := currentCategory st |},
           [Request "categories" operation;
            Toast "Error saving category" message true])
      | Ok row =>
          match currentCategory st with
          | Some current =>
              ({| categories :=
                    map (fun category =>
                           if (Category.id category =? Category.id current)%string
                           then apply_values values category
                           else category)
                        (categories st);
                  isAddCategoryOpen := false;
                  isSubmitting := false;
                  currentCategory := None |},
               [Request "categories" operation;
                Toast "Category updated"
                      "Your category has been updated successfully." false])
          | None =>
              ({| categories := (categories st ++ [row])%list;
                  isAddCategoryOpen := false;
                  isSubmitting := false;
                  currentCategory := None |},
               [Request "categories" operation;
                Toast "Category created"
                      "Your new category has been created successfully."
                      false])
          end
      end
  end.

Definition handleDeleteCategory
    (user : option string) (id : string) (confirmed : bool)
    (response : Response unit) (st : state)
  : state * list Effect :=
  match user with
  | None => (st, [])
  | Some _ =>
      let prompt :=
        Confirm "Are you sure you want to delete this category? All associated transactions will be affected." in
      if negb confirmed then (st, [prompt])
      else
        match response with
        | Error message =>
            (st, [prompt; Request "categories" "delete";
                  Toast "Error deleting category" message true])
        | Ok _ =>
            ({| categories :=
                  filter (fun category =>
                            negb (Category.id category =? id)%string)
                         (categories st);
                isAddCategoryOpen := isAddCategoryOpen st;
                isSubmitting := isSubmitting st;
                currentCategory := currentCategory st |},
             [prompt; Request "categories" "delete";
              Toast "Category deleted"
                    "Your category has been deleted successfully." false])
        end
  end.

End CategoriesPage.

(** ** Goals page *)

Module GoalsPage.

Record FormValues : Type := mkValues {
  v_name : string;
  v_target_amount : Q;
  v_current_amount : Q;
  v_target_date : option Date.t;
  v_color : string;
  v_icon : string
}.

Record state : Type := mkState {
  savingsGoals : list SavingsGoal.t;
  isAddGoalOpen : bool;
  isContributeOpen : bool;
  isSubmitting : bool;
  currentGoal : option SavingsGoal.t;
  contributionAmount : Q
}.

Definition setSavingsGoals
    (f : list SavingsGoal.t -> list SavingsGoal.t) (st : state) : state :=
  {| savingsGoals := f (savingsGoals st);
     isAddGoalOpen := isAddGoalOpen st;
     isContributeOpen := isContributeOpen st;
     isSubmitting := isSubmitting st;
     currentGoal := currentGoal st;
     contributionAmount := contributionAmount st |}.

Definition setIsSubmitting (b : bool) (st : state) : state :=
  {| savingsGoals := savingsGoals st;
     isAddGoalOpen := isAddGoalOpen st;
     isContributeOpen := isContributeOpen st;
     isSubmitting := b;
     currentGoal := currentGoal st;
     contributionAmount := contributionAmount st |}.

(** [setIsAddGoalOpen(false); setCurrentGoal(null)] *)
Definition closeGoalDialog (st : state) : state :=
  {| savingsGoals := savingsGoals st;
     isAddGoalOpen := false;
     isContributeOpen := isContributeOpen st;
     isSubmitting := isSubmitting st;
     currentGoal := None;
     contributionAmount := contributionAmount st |}.


Definition apply_values (values : FormValues) (goal : SavingsGoal.t)
  : SavingsGoal.t :=
  {| SavingsGoal.id := SavingsGoal.id goal;
     SavingsGoal.name := v_name values;
     SavingsGoal.target_amount := v_target_amount values;
     SavingsGoal.current_amount := v_current_amount values;
     SavingsGoal.target_date := v_target_date values;
     SavingsGoal.user_id := SavingsGoal.user_id goal;
     SavingsGoal.created_at := SavingsGoal.created_at goal;
     SavingsGoal.color := v_color values;
     SavingsGoal.icon := v_icon values |}.

Definition with_current_amount (a : Q) (goal : SavingsGoal.t)
  : SavingsGoal.t :=
  {| SavingsGoal.id := SavingsGoal.id goal;
     SavingsGoal.name := SavingsGoal.name goal;
     SavingsGoal.target_amount := SavingsGoal.target_amount goal;
     SavingsGoal.current_amount := a;
     SavingsGoal.target_date := SavingsGoal.target_date goal;
     SavingsGoal.user_id := SavingsGoal.user_id goal;
     SavingsGoal.created_at := SavingsGoal.created_at goal;
     SavingsGoal.color := SavingsGoal.color goal;
     SavingsGoal.icon := SavingsGoal.icon goal |}.

Definition handleAddGoal
    (user : option string) (values : FormValues)
    (response : Response SavingsGoal.t) (st : state)
  : state * list Effect :=
  match user with
  | None => (st, [])
  | Some _ =>
      let st1 := setIsSubmitting true st in
      let '(st2, log) :=
        match currentGoal st with
        | Some current =>
            match response with
            | Error message =>
                (st1, [Request "savings_goals" "update";
                       Toast "Error saving goal" message true])
            | Ok _ =>
                (closeGoalDialog
                   (setSavingsGoals
                      (map (fun goal =>
                              if (SavingsGoal.id goal
                                    =? SavingsGoal.id current)%string
                              then apply_values values goal
                              else goal))
                      st1),
                 [Request "savings_goals" "update";
                  Toast "Goal updated"
                        "Your savings goal has been updated successfully."
                        false])
            end
        | None =>
            match response with
            | Error message =>
                (st1, [Request "savings_goals" "insert";
                       Toast "Error saving goal" message true])
            | Ok row =>
                (closeGoalDialog (setSavingsGoals (cons row) st1),
                 [Request "savings_goals" "insert";
                  Toast "Goal created"
                        "Your new savings goal has been created successfully."
                        false])
            end
        end in
      (setIsSubmitting false st2, log)
  end.

Definition handleDeleteGoal
    (user : option string) (id : string) (confirmed : bool)
    (response : Response unit) (st : state)
  : state * list Effect :=
  match user with
  | None => (st, [])
  | Some _ =>
      let prompt := Confirm "Are you sure you want to delete this goal?" in
      if negb confirmed then (st, [prompt])
      else
        match response with
        | Error message =>
            (st, [prompt; Request "savings_goals" "delete";
                  Toast "Error deleting goal" message true])
        | Ok _ =>
            (setSavingsGoals
               (filter (fun goal => negb (SavingsGoal.id goal =? id)%string))
               st,
             [prompt; Request "savings_goals" "delete";
              Toast "Goal deleted"
                    "Your savings goal has been deleted successfully."
                    false])
        end
  end.


Definition handleEditGoal (goal : SavingsGoal.t) (st : state) : state :=
  {| savingsGoals := savingsGoals st;
     isAddGoalOpen := true;
     isContributeOpen := isContributeOpen st;
     isSubmitting := isSubmitting st;
     currentGoal := Some goal;
     contributionAmount := contributionAmount st |}.

Definition handleContributeToGoal (goal : SavingsGoal.t) (st : state)
  : state :=
  {| savingsGoals := savingsGoals st;
     isAddGoalOpen := isAddGoalOpen st;
     isContributeOpen := true;
     isSubmitting := isSubmitting st;
     currentGoal := Some goal;
     contributionAmount := 0 |}.


(** [onOpenChange={setIsAddGoalOpen}], also the button of the empty page. *)
Definition setIsAddGoalOpen (open : bool) (st : state) : state :=
  {| savingsGoals := savingsGoals st;
     isAddGoalOpen := open;
     isContributeOpen := isContributeOpen st;
     isSubmitting := isSubmitting st;
     currentGoal := currentGoal st;
     contributionAmount := contributionAmount st |}.

(** [onOpenChange={setIsContributeOpen}] *)
Definition setIsContributeOpen (open : bool) (st : state) : state :=
  {| savingsGoals := savingsGoals st;
     isAddGoalOpen := isAddGoalOpen st;
     isContributeOpen := open;
     isSubmitting := isSubmitting st;
     currentGoal := currentGoal st;
     contributionAmount := contributionAmount st |}.

End GoalsPage.

(** ** Investments page *)

Module InvestmentsPage.

Record FormValues : Type := mkValues {
  v_name : string;
  v_type : string;
  v_amount_invested : Q;
  v_current_value : Q;
  v_purchase_date : Date.t;
  v_risk_level : string;
  v_notes : option string
}.

Record state : Type := mkState {
  investments : list Investment.t;
  isAddInvestmentOpen : bool;
  isSubmitting : bool;
  currentInvestment : option Investment.t
}.

(** [values.notes || null] *)
Definition notes_or_null (notes : option string) : option string :=
  match notes with
  | Some s => if (s =? "")%string then None else Some s
  | None => None
  end.

Definition apply_values (values : FormValues) (investment : Investment.t)
  : Investment.t :=
  {| Investment.id := Investment.id investment;
     Investment.name := v_name values;
     Investment.type := v_type values;
     Investment.amount_invested := v_amount_invested values;
     Investment.current_value := v_current_value values;
     Investment.purchase_date := v_purchase_date values;
     Investment.user_id := Investment.user_id investment;
     Investment.created_at := Investment.created_at investment;
     Investment.notes := notes_or_null (v_notes values);
     Investment.risk_level := v_risk_level values |}.



Record Stats : Type := mkStats {
  totalInvested : Q;
  totalValue : Q;
  totalReturn : Q;
  returnPercentage : Js.number
}.




End InvestmentsPage.

(** ** Transaction form (inline category creation) *)

Module TransactionForm.

Record state : Type := mkState {
  filteredCategories : list Category.t;
  isAddCategoryOpen : bool;
  isCategorySubmitting : bool;
  category_id : string
}.

(** A successful insert answers with [data[0]], which the handler checks
    before using it. *)
Definition handleAddCategory
    (user : option string) (response : Response (option Category.t))
    (st : state)
  : state * list Effect :=
  match user with
  | None => (st, [])
  | Some _ =>
      match response with
      | Error message =>
          ({| filteredCategories := filteredCategories st;
              isAddCategoryOpen := isAddCategoryOpen st;
              isCategorySubmitting := false;
              category_id := category_id st |},
           [Request "categories" "insert";
            Toast "Error creating category" message true])
      | Ok data0 =>
          let created :=
            Toast "Category created"
                  "Your new category has been created successfully." false in
          match data0 with
          | Some row =>
              ({| filteredCategories := (filteredCategories st ++ [row])%list;
                  isAddCategoryOpen := false;
                  isCategorySubmitting := false;
                  category_id := Category.id row |},
               [Request "categories" "insert"; created])
          | None =>
              ({| filteredCategories := filteredCategories st;
                  isAddCategoryOpen := false;
                  isCategorySubmitting := false;
                  category_id := category_id st |},
               [Request "categories" "insert"; created])
          end
      end
  end.

(** The effect on [categories] and the form's type: the select offers the
    categories of that type, and a chosen category of another type, or one
    that is not in the list, is cleared. *)
Definition filterByType
    (categories : list Category.t) (transactionType : EntryType.t)
    (st : state) : state :=
  {| filteredCategories :=
       filter (fun cat => EntryType.eqb (Category.type cat) transactionType)
              categories;
     isAddCategoryOpen := isAddCategoryOpen st;
     isCategorySubmitting := isCategorySubmitting st;
     category_id :=
       if (category_id st =? "")%string then category_id st
       else
         match find (fun cat => Category.id cat =? category_id st)%string
                    categories with
         | Some currentCategory =>
             if EntryType.eqb (Category.type currentCategory) transactionType
             then category_id st else ""
         | None => ""
         end |}.

End TransactionForm.

(** ** Sign-in form *)

Module AuthForm.

Inductive AuthMode : Type := login | register.

Record Session : Type := mkSession {
  session_user : string;
  access_token : string
}.

Inductive Step : Type :=
| Call (operation : string)
| SetSession (session : Session)
| Notify (title description : string) (destructive : bool)
| Navigate (path : string).

(** [error.message || "Something went wrong"] *)
Definition failure (message : string) : Step :=
  Notify "Error"
         (if (message =? "")%string then "Something went wrong" else message)
         true.

(** [onSubmit]: [signIn], [signUp] and [insertProfile] are the answers of
    the calls it may await, in this order. *)
Definition onSubmit
    (mode : AuthMode) (signIn : Response Session)
    (signUp : Response (option Session)) (insertProfile : Response unit)
  : list Step :=
  match mode with
  | login =>
      match signIn with
      | Error message => [Call "signInWithPassword"; failure message]
      | Ok session =>
          [Call "signInWithPassword"; SetSession session;
           Notify "Logged in successfully" "Welcome back!" false;
           Navigate "/dashboard"]
      end
  | register =>
      match signUp with
      | Error message => [Call "signUp"; failure message]
      | Ok None => [Call "signUp"]
      | Ok (Some session) =>
          match insertProfile with
          | Error message =>
              [Call "signUp"; Call "profiles.insert"; failure message]
          | Ok _ =>
              [Call "signUp"; Call "profiles.insert"; SetSession session;
               Notify "Account created successfully" "Welcome to FinTrack!"
                      false;
               Navigate "/dashboard"]
          end
      end
  end.

Definition is_navigate (s : Step) : bool :=
  match s with Navigate _ => true | _ => false end.

Definition is_set_session (s : Step) : bool :=
  match s with SetSession _ => true | _ => false end.

Definition is_failure (s : Step) : bool :=
  match s with Notify _ _ true => true | _ => false end.

End AuthForm.

(** ** Currency input (components/ui/currency-input) *)

Module CurrencyInput.

Fixpoint skip (n : nat) (s : string) : string :=
  match n, s with
  | S n', String _ rest => skip n' rest
  | _, _ => s
  end.

(** [s.replace(pattern, "")] for a string [pattern]: the first occurrence
    of [pattern] in [s] is removed, and [s] is returned as it is when there
    is none. *)
Fixpoint replace_first (pattern s : string) {struct s} : string :=
  if String.prefix pattern s then skip (String.length pattern) s
  else match s with
       | EmptyString => EmptyString
       | String c rest => String c (replace_first pattern rest)
       end.

(** [\d] *)
Definition digit (c : ascii) : bool :=
  ((48 <=? nat_of_ascii c) && (nat_of_ascii c <=? 57))%nat.

(** The characters that [/[^\d.-]/g] leaves in place. *)
Definition numeric_char (c : ascii) : bool :=
  digit c || (c =? ".")%char || (c =? "-")%char.

Fixpoint keep (f : ascii -> bool) (s : string) : string :=
  match s with
  | EmptyString => EmptyString
  | String c rest => if f c then String c (keep f rest) else keep f rest
  end.

Fixpoint leading_digits (s : string) : string :=
  match s with
  | EmptyString => EmptyString
  | String c rest => if digit c then String c (leading_digits rest) else ""
  end.

Fixpoint after_digits (s : string) : string :=
  match s with
  | EmptyString => EmptyString
  | String c rest => if digit c then after_digits rest else s
  end.

Fixpoint digits_value (acc : Z) (s : string) : Z :=
  match s with
  | EmptyString => acc
  | String c rest =>
      digits_value (acc * 10 + (Z.of_nat (nat_of_ascii c) - 48))%Z rest
  end.

(** The longest prefix of [s] that reads as digits with at most one point
    among them, as a number; [None] when that prefix holds no digit. *)
Definition unsigned_literal (s : string) : option Q :=
  let whole := leading_digits s in
  let fraction :=
    match after_digits s with
    | String c rest => if (c =? ".")%char then leading_digits rest else ""
    | EmptyString => ""
    end in
  if (whole =? "")%string && (fraction =? "")%string then None
  else Some (inject_Z (digits_value 0 whole)
             + inject_Z (digits_value 0 fraction)
               / inject_Z (10 ^ Z.of_nat (String.length fraction))).

(** The value of the text that [parseFloat(s)] reads, for a text of
    digits, points and minus signs, which is all that [cleaned] below can
    hold: an optional minus sign, then the longest prefix that reads as a
    decimal literal.  [None] when there is no such prefix. *)
Definition literal_value (s : string) : option Q :=
  match s with
  | EmptyString => None
  | String c rest =>
      if (c =? "-")%char then option_map Qopp (unsigned_literal rest)
      else unsigned_literal s
  end.

(** [parseFloat(s)]: the double nearest to the value read.  [None] stands
    for [NaN]. *)
Definition parseFloat (s : string) : option Q :=
  option_map Js.round64 (literal_value s).

(** The component is used with its default [decimals = 2] everywhere; the
    props [prefix] (default "$") and [allowNegative] (default [false]) are
    arguments.  [None] is [undefined]. *)
Definition formatValue (num : option Q) : string :=
  match num with
  | None => ""
  | Some n => toFixed2 n
  end.

Definition parseValue (prefix : string) (allowNegative : bool) (str : string)
  : option Q :=
  let cleaned := keep numeric_char (replace_first prefix str) in
  if (cleaned =? "")%string || (cleaned =? "-")%string then None
  else
    match parseFloat cleaned with
    | None => None
    | Some parsed =>
        if negb allowNegative && negb (Qle_bool 0 parsed) then Some 0
        else Some parsed
    end.

(** [handleChange]: the value handed to [onChange] for the text of the
    input. *)
Definition handleChange (prefix : string) (allowNegative : bool)
  (text : string) : option Q :=
  parseValue prefix allowNegative text.

Definition displayValue (prefix : string) (value : option Q) : string :=
  match value with
  | Some _ => prefix ++ formatValue value
  | None => ""
  end.

End CurrencyInput.

(** ** Relational schema (migrations) *)

Module Schema.

(** Referential action of a foreign key when the referenced row is
    deleted. *)
Inductive fk_action : Type := Cascade | SetNull | NoAction.

(** [category_id UUID NOT NULL REFERENCES categories(id) ON DELETE CASCADE] *)
Definition transactions_category_id_on_delete : fk_action := Cascade.

Record db : Type := mkDb {
  categories : list Category.t;
  transactions : list Transaction.t
}.

Definition references (id : string) (t : Transaction.t) : bool :=
  (Transaction.category_id t =? id)%string.

Definition without_category (id : string) (d : db) : list Category.t :=
  filter (fun c => negb (Category.id c =? id)%string) (categories d).

(** [DELETE FROM categories WHERE id = $1] under a given referential
    action of [transactions.category_id].  The column is [NOT NULL], so
    [SetNull] is rejected like [NoAction] when a transaction references
    the row; [None] is the statement failing. *)
Definition delete_category_under (action : fk_action) (id : string) (d : db)
  : option db :=
  match action with
  | Cascade =>
      Some {| categories := without_category id d;
              transactions :=
                filter (fun t => negb (references id t)) (transactions d) |}
  | SetNull | NoAction =>
      if existsb (references id) (transactions d) then None
      else Some {| categories := without_category id d;
                   transactions := transactions d |}
  end.

Definition delete_category : string -> db -> option db :=
  delete_category_under transactions_category_id_on_delete.

(** A transaction whose category is absent from the categories table. *)
Definition dangling (d : db) (t : Transaction.t) : bool :=
  negb (existsb (fun c => Category.id c =? Transaction.category_id t)%string
                (categories d)).

End Schema.

(** ** Vocabulary of the specification *)

(** The sum of a list of numbers as JavaScript adds them up: from 0, in
    the order of the list, every partial sum a double. *)
Definition total (l : list Q) : Q := fold_left Js.plus64 l 0.

Definition total_amount (xs : list Transaction.t) : Q :=
  total (map Transaction.amount xs).

(** The sum of a list of numbers in exact arithmetic. *)
Fixpoint exact_total (l : list Q) : Q :=
  match l with
  | [] => 0
  | x :: l' => x + exact_total l'
  end.

Definition exact_total_amount (xs : list Transaction.t) : Q :=
  exact_total (map Transaction.amount xs).

(** A list of whole amounts: every entry is a whole number that is not
    negative, and the entries add up to less than [2 ^ 53]; the additions
    of such a list are exact in doubles, in any order and grouping. *)
Definition whole_number (x : Q) : Prop :=
  exists n : Z, (0 <= n)%Z /\ x == inject_Z n.

Definition whole (l : list Q) : Prop :=
  Forall whole_number l /\ exact_total l < inject_Z (2 ^ 53).

Definition whole_amounts (xs : list Transaction.t) : Prop :=
  whole (map Transaction.amount xs).

Definition references_category (c : Category.t) (t : Transaction.t) : bool :=
  (Transaction.category_id t =? Category.id c)%string.

(** [a / b * 100] as the code computes it, for a divisor other than 0:
    the quotient of the two doubles, rounded to a double, times 100,
    rounded to a double. *)
Definition percent (a b : Q) : Q :=
  Js.round64 (Js.round64 (Js.round64 a / Js.round64 b) * Js.round64 100).

(** [p] is [x] rounded to the nearest integer, a tie going up. *)
Definition nearest_integer (x : Q) (p : Z) : Prop :=
  inject_Z p - (1 # 2) <= x /\ x < inject_Z p + (1 # 2).

(** [a] is an integer nearest to [x], the even one on a tie. *)
Definition near (x : Q) (a : Z) : Prop :=
  (inject_Z a - (1 # 2) < x /\ x < inject_Z a + (1 # 2)) \/
  ((x == inject_Z a - (1 # 2) \/ x == inject_Z a + (1 # 2)) /\ Z.even a = true).

(** Some power of two times [q] is an integer. *)
Definition dyadic (q : Q) : Prop :=
  exists (m k : Z), (0 <= k)%Z /\ q * inject_Z (2 ^ k) == inject_Z m.

(** Months counted from year 0: the calendar month [month0] of [year]. *)
Definition month_index (d : Date.t) : Z := Date.year d * 12 + Date.month0 d.

(** The date of [t] falls in the calendar month of index [i]. *)
Definition in_month (i : Z) (t : Transaction.t) : bool :=
  (Date.month0 (Transaction.date t) =? i mod 12)%Z
  && (Date.year (Transaction.date t) =? i / 12)%Z.

(** Sum of the amounts of the transactions of type [ty] dated in month [i]. *)
Definition month_total (ty : EntryType.t) (i : Z) (xs : list Transaction.t)
  : Q :=
  total_amount
    (filter (fun t => Dashboard.of_type ty t && in_month i t) xs).

(** The summary both pages build: one slice per category, the slices
    without a positive total dropped, the rest sorted by falling total. *)
Definition category_summary
    (categories : list Category.t) (transactions : list Transaction.t)
  : list Dashboard.Slice :=
  Array_sort Dashboard.by_value_desc
    (filter Dashboard.positive
       (map (Dashboard.slice_of transactions) categories)).

Definition summary_total (slices : list Dashboard.Slice) : Q :=
  total (map Dashboard.value slices).

Definition has_type (ty : EntryType.t) (c : Category.t) : bool :=
  EntryType.eqb (Category.type c) ty.

Definition falling (a b : Dashboard.Slice) : Prop :=
  Dashboard.value b <= Dashboard.value a.

Definition is_digit (c : ascii) : Prop :=
  (48 <= nat_of_ascii c <= 57)%nat.

(** [s] prints [x] rounded to the nearest hundredth (the larger one in
    magnitude on a tie), with exactly two digits after the point. *)
Definition two_decimals_of (x : Q) (s : string) : Prop :=
  exists (n : Z) (d1 d2 : ascii),
    nearest_integer (Qabs x * 100) n /\
    is_digit d1 /\ is_digit d2 /\
    ((Z.of_nat (nat_of_ascii d1) - 48) * 10 + (Z.of_nat (nat_of_ascii d2) - 48)
     = n mod 100)%Z /\
    s = ((if Qle_bool 0 x then "" else "-")
           ++ decimal_string (n / 100) ++ "." ++ String d1 (String d2 ""))%string.

(** The category column of a row: the name of the first category with the
    transaction's [category_id], "Uncategorized" when there is none. *)
Definition category_column
    (categories : list Category.t) (t : Transaction.t) (s : string) : Prop :=
  ((forall c, In c categories -> Category.id c <> Transaction.category_id t) ->
   s = "Uncategorized") /\
  (forall c,
     find (fun c => Category.id c =? Transaction.category_id t)%string
          categories = Some c ->
     Category.name c <> "" -> s = Category.name c).



(** Some category of the list has the id the transaction refers to. *)
Definition listed (categories : list Category.t) (t : Transaction.t) : bool :=
  existsb (fun c => references_category c t) categories.

(** Every transaction refers to a listed category of its own type. *)
Definition well_filed
    (categories : list Category.t) (transactions : list Transaction.t) : Prop :=
  forall t, In t transactions ->
    exists c, In c categories /\
              Category.id c = Transaction.category_id t /\
              Category.type c = Transaction.type t.

(** Months counted from year 0, for an entry of [getLastNMonths]. *)
Definition MonthRef_index (m : MonthRef.t) : Z :=
  MonthRef.year m * 12 + (MonthRef.month m - 1).

(** [getMonth()] of a date lies between 0 and 11. *)
Definition valid_month (d : Date.t) : Prop := (0 <= Date.month0 d <= 11)%Z.

(** The date of [t] lies in one of the [n] calendar months that end with
    the month of [today]. *)
Definition in_window (today : Date.t) (n : nat) (t : Transaction.t) : bool :=
  (month_index today - Z.of_nat n <? month_index (Transaction.date t))%Z
  && (month_index (Transaction.date t) <=? month_index today)%Z.

Definition bucket_total (ty : EntryType.t) (b : Dashboard.MonthBucket) : Q :=
  match ty with
  | EntryType.income => Dashboard.income b
  | EntryType.expense => Dashboard.expenses b
  end.

(** Sum of the amounts of the transactions of type [ty] whose day part is
    [key]. *)
Definition day_total (dayOf : Transaction.t -> string) (ty : EntryType.t)
    (key : string) (xs : list Transaction.t) : Q :=
  total_amount
    (filter (fun t => Dashboard.of_type ty t && (dayOf t =? key)%string) xs).

(** A map of days whose keys are distinct and whose entries carry their
    key as date. *)
Definition tidy (acc : list (string * ReportsPage.Day)) : Prop :=
  NoDup (map fst acc) /\
  Forall (fun e => ReportsPage.date (snd e) = fst e) acc.

(** The total of type [ty] kept under [key], 0 when the key is absent. *)
Definition got (ty : EntryType.t) (key : string)
    (acc : list (string * ReportsPage.Day)) : Q :=
  match ReportsPage.Map_get key acc with
  | Some d =>
      match ty with
      | EntryType.income => ReportsPage.income d
      | EntryType.expense => ReportsPage.expenses d
      end
  | None => 0
  end.

(** [s.split(sep)] for a one-character separator, the reading that undoes
    [join]. *)
Fixpoint split_on (sep : ascii) (s : string) : list string :=
  match s with
  | EmptyString => [""]
  | String c rest =>
      if Ascii.eqb c sep then "" :: split_on sep rest
      else
        match split_on sep rest with
        | first :: others => String c first :: others
        | [] => [String c ""]
        end
  end.

(** [s] does not contain the character [c]. *)
Fixpoint free_of (c : ascii) (s : string) : bool :=
  match s with
  | EmptyString => true
  | String x rest => negb (Ascii.eqb x c) && free_of c rest
  end.

(** A field that holds neither a comma nor a line feed. *)
Definition plain (s : string) : bool := free_of "," s && free_of "010" s.

(** The ids of a list of transactions. *)
Definition ids (txs : list Transaction.t) : list string :=
  map Transaction.id txs.

(** Every character of [s] passes [f]. *)
Fixpoint every (f : ascii -> bool) (s : string) : bool :=
  match s with
  | EmptyString => true
  | String c rest => f c && every f rest
  end.

(** [x] rounded to the nearest hundredth, the larger one in magnitude on a
    tie. *)
Definition hundredths (x : Q) : Q :=
  let n := inject_Z (Qfloor (Qabs x * 100 + (1 # 2))) / 100 in
  if Qle_bool 0 x then n else - n.

(** ** Fixtures *)

Module Fixture.

Definition on (year month day : Z) : Date.t :=
  {| Date.year := year; Date.month0 := month - 1; Date.day := day |}.

Definition category (id name : string) (ty : EntryType.t) (budget : option Q)
  : Category.t :=
  {| Category.id := id; Category.name := name; Category.color := "#14b8a6";
     Category.icon := "Tag"; Category.user_id := "u1";
     Category.created_at := "2024-01-01T00:00:00.000Z";
     Category.type := ty; Category.budget := budget |}.

Definition entry (id : string) (amount : Q) (ty : EntryType.t)
    (category_id : string) (date : Date.t) (description : string)
  : Transaction.t :=
  {| Transaction.id := id; Transaction.amount := amount;
     Transaction.description := description; Transaction.date := date;
     Transaction.category_id := category_id; Transaction.user_id := "u1";
     Transaction.created_at := "2024-01-01T00:00:00.000Z";
     Transaction.type := ty; Transaction.is_recurring := false;
     Transaction.recurring_interval := None;
     Transaction.recurring_end_date := None |}.

Definition goal (target current : Q) : SavingsGoal.t :=
  {| SavingsGoal.id := "g1"; SavingsGoal.name := "Holiday";
     SavingsGoal.target_amount := target;
     SavingsGoal.current_amount := current;
     SavingsGoal.target_date := None; SavingsGoal.user_id := "u1";
     SavingsGoal.created_at := "2024-01-01T00:00:00.000Z";
     SavingsGoal.color := "#14b8a6"; SavingsGoal.icon := "PiggyBank" |}.

Definition food : Category.t :=
  category "A" "Food" EntryType.expense (Some 200).
Definition salary : Category.t :=
  category "S" "Salary" EntryType.income None.

Definition jan15 : Transaction.t :=
  entry "t1" 100 EntryType.expense "A" (on 2024 1 15) "Groceries".
Definition feb10 : Transaction.t :=
  entry "t2" 50 EntryType.expense "A" (on 2024 2 10) "Dinner, drinks".
Definition feb11 : Transaction.t :=
  entry "t3" 30 EntryType.expense "A" (on 2024 2 11) "Lunch".

(** An expense booked on an income category. *)
Definition misfiled : Transaction.t :=
  entry "t4" 100 EntryType.expense "S" (on 2024 2 12) "Fee".

(** An income of 1e21. *)
Definition huge : Transaction.t :=
  entry "t5" (inject_Z (10 ^ 21)) EntryType.income "S" (on 2024 2 12) "Buyout".

Definition feb2024 : Date.t := on 2024 2 20.



Definition transactions_page (transactions : list Transaction.t)
  : TransactionsPage.state :=
  {| TransactionsPage.transactions := transactions;
     TransactionsPage.categories := [food; salary];
     TransactionsPage.isAddTransactionOpen := false;
     TransactionsPage.isEditMode := false;
     TransactionsPage.currentTransaction := None;
     TransactionsPage.isSubmitting := false |}.

Definition reports_page (transactions : list Transaction.t)
    (typeFilter : string) : ReportsPage.state :=
  {| ReportsPage.transactions := transactions;
     ReportsPage.categories := [food; salary];
     ReportsPage.dateRange_from := on 2024 1 1;
     ReportsPage.dateRange_to := on 2024 2 29;
     ReportsPage.categoryFilter := "all";
     ReportsPage.typeFilter := typeFilter |}.

End Fixture.

(** * Properties *)

(** ** Numbers *)

Lemma Qeq_bool_false (a b : Q) : Qeq_bool a b = false -> ~ a == b.
Proof.
  intros H E. apply Qeq_bool_iff in E. congruence.
Qed.

Lemma Qeq_bool_false_intro (a b : Q) : ~ a == b -> Qeq_bool a b = false.
Proof.
  intros H. destruct (Qeq_bool a b) eqn:E; [|reflexivity].
  apply Qeq_bool_iff in E. contradiction.
Qed.

Lemma Qle_bool_false (a b : Q) : Qle_bool a b = false -> b < a.
Proof.
  intros H. apply Qnot_le_lt. intros L. apply Qle_bool_iff in L. congruence.
Qed.

Lemma Js_div_nonzero (a b : Q) : ~ b == 0 -> Js.div a b = Js.Fin (a / b).
Proof.
  intros H. unfold Js.div. now rewrite (Qeq_bool_false_intro _ _ H).
Qed.


Lemma Qfloor_half_nearest (x : Q) : nearest_integer x (Qfloor (x + (1 # 2))).
Proof.
  unfold nearest_integer. split.
  - pose proof (Qfloor_le (x + (1 # 2))) as H.
    apply (Qplus_le_l _ _ (1 # 2)). ring_simplify. ring_simplify in H. exact H.
  - pose proof (Qlt_floor (x + (1 # 2))) as H.
    rewrite inject_Z_plus in H.
    apply (Qplus_lt_l _ _ (1 # 2)).
    setoid_replace (inject_Z (Qfloor (x + (1 # 2))) + (1 # 2) + (1 # 2))
      with (inject_Z (Qfloor (x + (1 # 2))) + inject_Z 1) by ring.
    exact H.
Qed.

Lemma nearest_integer_unique (x : Q) (p q : Z) :
  nearest_integer x p -> nearest_integer x q -> p = q.
Proof.
  intros [Hp1 Hp2] [Hq1 Hq2].
  assert (A : inject_Z p < inject_Z q + 1).
  { apply (Qplus_lt_l _ _ (- (1 # 2))).
    apply Qle_lt_trans with x; [exact Hp1|].
    setoid_replace (inject_Z q + 1 + - (1 # 2)) with (inject_Z q + (1 # 2)) by ring.
    exact Hq2. }
  assert (B : inject_Z q < inject_Z p + 1).
  { apply (Qplus_lt_l _ _ (- (1 # 2))).
    apply Qle_lt_trans with x; [exact Hq1|].
    setoid_replace (inject_Z p + 1 + - (1 # 2)) with (inject_Z p + (1 # 2)) by ring.
    exact Hp2. }
  change 1 with (inject_Z 1) in A, B.
  rewrite <- inject_Z_plus in A, B.
  rewrite <- Zlt_Qlt in A, B. lia.
Qed.

Lemma Qle_bool_inject (a b : Z) :
  Qle_bool (inject_Z a) (inject_Z b) = true <-> (a <= b)%Z.
Proof.
  rewrite Qle_bool_iff, <- Zle_Qle. reflexivity.
Qed.

(** *** Rounding to the nearest double *)

Lemma two_pos (k : Z) : 0 < 2 ^ k.
Proof. apply Qpower_0_lt. reflexivity. Qed.

Lemma two_nz (k : Z) : ~ 2 ^ k == 0.
Proof. intros H. pose proof (two_pos k) as P. rewrite H in P. discriminate P. Qed.

Lemma two_succ (k : Z) : 2 ^ (k + 1) == 2 * 2 ^ k.
Proof. rewrite Qpower_plus by discriminate. change (2 ^ 1) with 2. ring. Qed.

Lemma two_le (j k : Z) : (j <= k)%Z -> 2 ^ j <= 2 ^ k.
Proof. intros H. apply Qpower_le_compat_l; [exact H|discriminate]. Qed.

Lemma two_lt (j k : Z) : (j < k)%Z -> 2 ^ j < 2 ^ k.
Proof.
  intros H. apply Qlt_le_trans with (2 ^ (j + 1)).
  - rewrite two_succ. rewrite <- (Qmult_1_l (2 ^ j)) at 1.
    apply Qmult_lt_compat_r; [apply two_pos|reflexivity].
  - apply two_le. lia.
Qed.

Lemma two_lt_inv (j k : Z) : 2 ^ j < 2 ^ k -> (j < k)%Z.
Proof.
  intros H. destruct (Z_lt_le_dec j k) as [L|L]; [exact L|].
  apply two_le in L. exfalso. apply (Qlt_irrefl (2 ^ j)).
  now apply Qlt_le_trans with (2 ^ k).
Qed.

Lemma two_inject (k : Z) : (0 <= k)%Z -> inject_Z (2 ^ k) == 2 ^ k.
Proof. intros H. now rewrite Zpower_Qpower. Qed.

Lemma Qabs_make (n : Z) (d : positive) :
  Qabs (n # d) == inject_Z (Z.abs n) / inject_Z (Zpos d).
Proof.
  unfold Qabs. rewrite (Qmake_Qdiv (Z.abs n) d). reflexivity.
Qed.

Lemma log2_bounds (n : Z) :
  (0 < n)%Z -> 2 ^ Z.log2 n <= inject_Z n /\ inject_Z n < 2 ^ (Z.log2 n + 1).
Proof.
  intros H. destruct (Z.log2_spec n H) as [L U].
  pose proof (Z.log2_nonneg n) as P. split.
  - rewrite <- two_inject by exact P. now rewrite <- Zle_Qle.
  - rewrite <- two_inject by lia. rewrite <- Zlt_Qlt.
    now rewrite <- Z.add_1_r in U.
Qed.

Lemma mag_spec (q : Q) :
  ~ q == 0 -> 2 ^ (Js.mag q - 1) <= Qabs q /\ Qabs q < 2 ^ Js.mag q.
Proof.
  intros Hq. destruct q as [n d].
  assert (Hn : (0 < Z.abs n)%Z).
  { assert (n <> 0%Z); [|lia]. intros ->. apply Hq. reflexivity. }
  destruct (log2_bounds (Z.abs n) Hn) as [Ln Un].
  destruct (log2_bounds (Zpos d) eq_refl) as [Ld Ud].
  assert (Dpos : 0 < inject_Z (Zpos d)) by reflexivity.
  unfold Js.mag. cbn [Qnum Qden].
  set (a := Z.log2 (Z.abs n)) in *. set (b := Z.log2 (Zpos d)) in *.
  assert (Up : Qabs (n # d) < 2 ^ (a - b + 1)).
  { rewrite Qabs_make. apply Qlt_shift_div_r; [exact Dpos|].
    apply Qlt_le_trans with (2 ^ (a + 1)); [exact Un|].
    replace (a + 1)%Z with ((a - b + 1) + b)%Z by lia.
    rewrite (Qpower_plus 2 (a - b + 1) b) by discriminate.
    apply Qmult_le_l; [apply two_pos|exact Ld]. }
  assert (Lo : 2 ^ (a - b - 1) <= Qabs (n # d)).
  { rewrite Qabs_make. apply Qle_shift_div_l; [exact Dpos|].
    apply Qle_trans with (2 ^ a); [|exact Ln].
    replace a with ((a - b - 1) + (b + 1))%Z at 2 by lia.
    rewrite (Qpower_plus 2 (a - b - 1) (b + 1)) by discriminate.
    apply Qmult_le_l; [apply two_pos|]. now apply Qlt_le_weak. }
  destruct (Qle_bool (2 ^ (a - b)) (Qabs (n # d))) eqn:E.
  - apply Qle_bool_iff in E. split; [|exact Up].
    now replace (a - b + 1 - 1)%Z with (a - b)%Z by lia.
  - split; [exact Lo|].
    destruct (Qlt_le_dec (Qabs (n # d)) (2 ^ (a - b))) as [L|L]; [exact L|].
    apply Qle_bool_iff in L. congruence.
Qed.

Lemma mag_unique (q : Q) (k : Z) :
  2 ^ (k - 1) <= Qabs q -> Qabs q < 2 ^ k -> Js.mag q = k.
Proof.
  intros L U.
  assert (Hq : ~ q == 0).
  { intros H. rewrite H in L. apply (Qlt_irrefl 0).
    apply Qlt_le_trans with (2 ^ (k - 1)); [apply two_pos|exact L]. }
  destruct (mag_spec q Hq) as [L' U'].
  assert (A : (k - 1 < Js.mag q)%Z).
  { apply two_lt_inv. now apply Qle_lt_trans with (Qabs q). }
  assert (B : (Js.mag q - 1 < k)%Z).
  { apply two_lt_inv. now apply Qle_lt_trans with (Qabs q). }
  lia.
Qed.

Lemma mag_comp (p q : Q) : ~ p == 0 -> p == q -> Js.mag p = Js.mag q.
Proof.
  intros Hp E. destruct (mag_spec p Hp) as [L U].
  symmetry. apply mag_unique; now rewrite <- E.
Qed.

Lemma rne_comp (x y : Q) : x == y -> Js.rne x = Js.rne y.
Proof.
  intros E. unfold Js.rne. rewrite (Qfloor_comp _ _ E).
  now rewrite E.
Qed.

Lemma round64_comp (p q : Q) : p == q -> Js.round64 p = Js.round64 q.
Proof.
  intros E. unfold Js.round64.
  destruct (Qeq_bool p 0) eqn:P.
  - apply Qeq_bool_iff in P. rewrite E in P. apply Qeq_bool_iff in P.
    now rewrite P.
  - assert (Hp : ~ p == 0) by (now apply Qeq_bool_neq).
    assert (Hq : Qeq_bool q 0 = false).
    { destruct (Qeq_bool q 0) eqn:Q0; [|reflexivity].
      apply Qeq_bool_iff in Q0. rewrite <- E in Q0. contradiction. }
    rewrite Hq, (mag_comp p q Hp E).
    f_equal. f_equal. f_equal. apply rne_comp. now rewrite E.
Qed.

Lemma rne_Z (n : Z) : Js.rne (inject_Z n) = n.
Proof.
  unfold Js.rne. rewrite Qfloor_Z.
  assert (E : inject_Z n - inject_Z n == 0) by ring.
  rewrite E. reflexivity.
Qed.

Lemma inject_Z_succ (a : Z) : inject_Z (a + 1) == inject_Z a + 1.
Proof. now rewrite inject_Z_plus. Qed.

Lemma rne_near (x : Q) : near x (Js.rne x).
Proof.
  unfold Js.rne, near.
  pose proof (Qfloor_le x) as L. pose proof (Qlt_floor x) as U.
  rewrite inject_Z_succ in U.
  set (f := Qfloor x) in *.
  destruct (Qcompare_spec (x - inject_Z f) (1 # 2)) as [E|E|E].
  - destruct (Z.even f) eqn:Ev.
    + right. split; [right; lra|exact Ev].
    + right. rewrite inject_Z_succ. split; [left; lra|].
      rewrite Z.even_add, Ev. reflexivity.
  - left. lra.
  - left. rewrite inject_Z_succ. lra.
Qed.

Lemma inject_Z_lt_succ (a b : Z) : inject_Z a < inject_Z b + 1 -> (a <= b)%Z.
Proof.
  intros H. rewrite <- inject_Z_succ, <- Zlt_Qlt in H. lia.
Qed.

Lemma near_unique (x : Q) (a b : Z) : near x a -> near x b -> a = b.
Proof.
  assert (W : forall a b, near x a -> near x b -> (a <= b)%Z).
  { clear a b. intros a b Ha Hb.
    destruct (Z_le_gt_dec a b) as [L|G]; [exact L|exfalso].
    assert (G' : inject_Z b + 1 <= inject_Z a).
    { rewrite <- inject_Z_succ, <- Zle_Qle. lia. }
    destruct Ha as [[A1 A2]|[A Ea]], Hb as [[B1 B2]|[B Eb]]; try lra.
    assert (a = (b + 1)%Z).
    { assert (inject_Z a <= inject_Z b + 1) by (destruct A, B; lra).
      rewrite <- inject_Z_succ, <- Zle_Qle in H. lia. }
    subst a. rewrite Z.even_add in Ea. rewrite Eb in Ea. discriminate Ea. }
  intros Ha Hb. apply Z.le_antisymm; now apply W.
Qed.

Lemma rne_le (x y : Q) : x <= y -> (Js.rne x <= Js.rne y)%Z.
Proof.
  intros H. destruct (Z_le_gt_dec (Js.rne x) (Js.rne y)) as [L|G]; [exact L|].
  exfalso.
  assert (G' : inject_Z (Js.rne y) + 1 <= inject_Z (Js.rne x)).
  { rewrite <- inject_Z_succ, <- Zle_Qle. lia. }
  assert (E : x == y).
  { destruct (rne_near x) as [[A1 A2]|[A _]], (rne_near y) as [[B1 B2]|[B _]];
      try lra; destruct A, B; lra. }
  rewrite (rne_comp x y E) in G. lia.
Qed.

Lemma rne_opp (x : Q) : Js.rne (- x) = (- Js.rne x)%Z.
Proof.
  apply (near_unique (- x)); [apply rne_near|].
  unfold near. rewrite inject_Z_opp, Z.even_opp.
  destruct (rne_near x) as [[A1 A2]|[A Ev]].
  - left. lra.
  - right. split; [destruct A; [right|left]; lra|exact Ev].
Qed.

Lemma round64_0 : Js.round64 0 = 0.
Proof. reflexivity. Qed.

Lemma round64_nonzero (q : Q) :
  ~ q == 0 ->
  Js.round64 q
  == inject_Z (Js.rne (q / 2 ^ (Js.mag q - 53))) * 2 ^ (Js.mag q - 53).
Proof.
  intros H. unfold Js.round64.
  destruct (Qeq_bool q 0) eqn:E; [|apply Qred_correct].
  apply Qeq_bool_iff in E. contradiction.
Qed.

Lemma two_split (j k : Z) : 2 ^ (j + k) == 2 ^ j * 2 ^ k.
Proof. apply Qpower_plus. discriminate. Qed.

Lemma scaled_range (x : Q) :
  0 < x ->
  inject_Z (2 ^ 52) <= x / 2 ^ (Js.mag x - 53) /\
  x / 2 ^ (Js.mag x - 53) < inject_Z (2 ^ 53).
Proof.
  intros Hx.
  assert (Hnz : ~ x == 0) by (intros E; rewrite E in Hx; discriminate Hx).
  destruct (mag_spec x Hnz) as [L U].
  rewrite (Qabs_pos x) in L, U by (now apply Qlt_le_weak).
  set (e := (Js.mag x - 53)%Z) in *.
  pose proof (two_pos e) as P.
  rewrite (two_inject 52), (two_inject 53) by lia. split.
  - apply Qle_shift_div_l; [exact P|].
    rewrite <- (two_split 52 e).
    now replace (52 + e)%Z with (Js.mag x - 1)%Z by (unfold e; lia).
  - apply Qlt_shift_div_r; [exact P|].
    rewrite <- (two_split 53 e).
    now replace (53 + e)%Z with (Js.mag x) by (unfold e; lia).
Qed.

Lemma round64_pos_bounds (x : Q) :
  0 < x ->
  2 ^ (Js.mag x - 1) <= Js.round64 x /\ Js.round64 x <= 2 ^ Js.mag x.
Proof.
  intros Hx.
  assert (Hnz : ~ x == 0) by (intros E; rewrite E in Hx; discriminate Hx).
  destruct (scaled_range x Hx) as [L U].
  rewrite (round64_nonzero x Hnz).
  set (e := (Js.mag x - 53)%Z) in *.
  pose proof (two_pos e) as P.
  assert (A : (2 ^ 52 <= Js.rne (x / 2 ^ e))%Z).
  { rewrite <- (rne_Z (2 ^ 52)). now apply rne_le. }
  assert (B : (Js.rne (x / 2 ^ e) <= 2 ^ 53)%Z).
  { rewrite <- (rne_Z (2 ^ 53)). apply rne_le. now apply Qlt_le_weak. }
  rewrite Zle_Qle in A, B.
  rewrite (two_inject 52) in A by lia. rewrite (two_inject 53) in B by lia.
  split.
  - replace (Js.mag x - 1)%Z with (52 + e)%Z by (unfold e; lia).
    rewrite (two_split 52 e).
    now apply Qmult_le_compat_r; [|apply Qlt_le_weak].
  - replace (Js.mag x) with (53 + e)%Z by (unfold e; lia).
    rewrite (two_split 53 e).
    now apply Qmult_le_compat_r; [|apply Qlt_le_weak].
Qed.

Lemma round64_pos (x : Q) : 0 < x -> 0 < Js.round64 x.
Proof.
  intros Hx. destruct (round64_pos_bounds x Hx) as [L _].
  apply Qlt_le_trans with (2 ^ (Js.mag x - 1)); [apply two_pos|exact L].
Qed.

Lemma mag_le (x y : Q) : 0 < x -> x <= y -> (Js.mag x <= Js.mag y)%Z.
Proof.
  intros Hx Hxy.
  assert (Hy : 0 < y) by (now apply Qlt_le_trans with x).
  assert (Nx : ~ x == 0) by (intros E; rewrite E in Hx; discriminate Hx).
  assert (Ny : ~ y == 0) by (intros E; rewrite E in Hy; discriminate Hy).
  destruct (mag_spec x Nx) as [Lx _]. destruct (mag_spec y Ny) as [_ Uy].
  rewrite Qabs_pos in Lx, Uy by (now apply Qlt_le_weak).
  assert (H : (Js.mag x - 1 < Js.mag y)%Z).
  { apply two_lt_inv. apply Qle_lt_trans with x; [exact Lx|].
    now apply Qle_lt_trans with y. }
  lia.
Qed.

Lemma round64_le_pos (x y : Q) :
  0 < x -> x <= y -> Js.round64 x <= Js.round64 y.
Proof.
  intros Hx Hxy.
  assert (Hy : 0 < y) by (now apply Qlt_le_trans with x).
  pose proof (mag_le x y Hx Hxy) as M.
  destruct (Z.eq_dec (Js.mag x) (Js.mag y)) as [E|N].
  - assert (Nx : ~ x == 0) by (intros H; rewrite H in Hx; discriminate Hx).
    assert (Ny : ~ y == 0) by (intros H; rewrite H in Hy; discriminate Hy).
    rewrite (round64_nonzero x Nx), (round64_nonzero y Ny), E.
    set (e := (Js.mag y - 53)%Z). pose proof (two_pos e) as P.
    apply Qmult_le_compat_r; [|now apply Qlt_le_weak].
    rewrite <- Zle_Qle. apply rne_le.
    apply Qmult_le_compat_r; [exact Hxy|].
    apply Qlt_le_weak. now apply Qinv_lt_0_compat.
  - destruct (round64_pos_bounds x Hx) as [_ Ux].
    destruct (round64_pos_bounds y Hy) as [Ly _].
    apply Qle_trans with (2 ^ Js.mag x); [exact Ux|].
    apply Qle_trans with (2 ^ (Js.mag y - 1)); [|exact Ly].
    apply two_le. lia.
Qed.

Lemma mag_opp (x : Q) : ~ x == 0 -> Js.mag (- x) = Js.mag x.
Proof.
  intros H. destruct (mag_spec x H) as [L U].
  apply mag_unique; now rewrite Qabs_opp.
Qed.

Lemma round64_opp (x : Q) : Js.round64 (- x) == - Js.round64 x.
Proof.
  destruct (Qeq_dec x 0) as [E|N].
  - assert (E' : - x == 0) by (rewrite E; reflexivity).
    rewrite (round64_comp _ _ E), (round64_comp _ _ E'). reflexivity.
  - assert (N' : ~ - x == 0) by (intros H; apply N; lra).
    rewrite (round64_nonzero _ N), (round64_nonzero _ N'), (mag_opp x N).
    set (e := (Js.mag x - 53)%Z).
    assert (S : - x / 2 ^ e == - (x / 2 ^ e)) by (field; apply two_nz).
    rewrite (rne_comp _ _ S), rne_opp, inject_Z_opp. ring.
Qed.

Lemma round64_nonneg (x : Q) : 0 <= x -> 0 <= Js.round64 x.
Proof.
  intros H. destruct (Qeq_dec x 0) as [E|N].
  - rewrite (round64_comp _ _ E). apply Qle_refl.
  - apply Qlt_le_weak, round64_pos. lra.
Qed.

Lemma round64_le (x y : Q) : x <= y -> Js.round64 x <= Js.round64 y.
Proof.
  intros H.
  destruct (Qlt_le_dec 0 x) as [Px|Nx]; [now apply round64_le_pos|].
  destruct (Qlt_le_dec y 0) as [Ny|Py].
  - assert (L : Js.round64 (- y) <= Js.round64 (- x))
      by (apply round64_le_pos; lra).
    rewrite !round64_opp in L. lra.
  - apply Qle_trans with 0; [|now apply round64_nonneg].
    assert (L : 0 <= Js.round64 (- x)) by (apply round64_nonneg; lra).
    rewrite round64_opp in L. lra.
Qed.

(** Every number with at most 53 significant bits is a double. *)
Lemma round64_exact (m k : Z) :
  (Z.abs m < 2 ^ 53)%Z ->
  Js.round64 (inject_Z m * 2 ^ k) == inject_Z m * 2 ^ k.
Proof.
  intros Hm. set (q := inject_Z m * 2 ^ k).
  destruct (Qeq_dec q 0) as [E|N].
  - rewrite (round64_comp _ _ E), E. reflexivity.
  - rewrite (round64_nonzero q N).
    destruct (mag_spec q N) as [L _].
    set (e := (Js.mag q - 53)%Z) in *.
    assert (A : Qabs q < 2 ^ (53 + k)).
    { unfold q. rewrite Qabs_Qmult, (Qabs_pos (2 ^ k)), two_split
        by (apply Qlt_le_weak, two_pos).
      apply Qmult_lt_compat_r; [apply two_pos|].
      rewrite <- (two_inject 53) by lia.
      change (Qabs (inject_Z m)) with (inject_Z (Z.abs m)).
      now rewrite <- Zlt_Qlt. }
    assert (K : (e <= k)%Z).
    { assert (Js.mag q - 1 < 53 + k)%Z; [|unfold e; lia].
      apply two_lt_inv. now apply Qle_lt_trans with (Qabs q). }
    assert (S : q / 2 ^ e == inject_Z (m * 2 ^ (k - e))).
    { unfold q. rewrite inject_Z_mult, (two_inject (k - e)) by lia.
      replace k with ((k - e) + e)%Z at 1 by lia. rewrite two_split.
      field. apply two_nz. }
    rewrite (rne_comp _ _ S), rne_Z, inject_Z_mult, (two_inject (k - e)) by lia.
    unfold q. replace k with ((k - e) + e)%Z at 2 by lia. rewrite two_split.
    ring.
Qed.

Lemma round64_Z (n : Z) :
  (Z.abs n < 2 ^ 53)%Z -> Js.round64 (inject_Z n) == inject_Z n.
Proof.
  intros H. pose proof (round64_exact n 0 H) as E.
  assert (S : inject_Z n * 2 ^ 0 == inject_Z n) by (change (2 ^ 0) with 1; ring).
  now rewrite (round64_comp _ _ S), S in E.
Qed.

Lemma round64_idem (x : Q) : Js.round64 (Js.round64 x) == Js.round64 x.
Proof.
  assert (P : forall x, 0 < x -> Js.round64 (Js.round64 x) == Js.round64 x).
  { clear x. intros x Hx.
    assert (Hnz : ~ x == 0) by (intros E; rewrite E in Hx; discriminate Hx).
    destruct (scaled_range x Hx) as [L U].
    pose proof (round64_nonzero x Hnz) as R.
    rewrite (round64_comp _ _ R), R. clear R.
    set (e := (Js.mag x - 53)%Z) in *.
    assert (B : (Js.rne (x / 2 ^ e) <= 2 ^ 53)%Z).
    { rewrite <- (rne_Z (2 ^ 53)). apply rne_le. now apply Qlt_le_weak. }
    assert (A : (2 ^ 52 <= Js.rne (x / 2 ^ e))%Z).
    { rewrite <- (rne_Z (2 ^ 52)). now apply rne_le. }
    destruct (Z.eq_dec (Js.rne (x / 2 ^ e)) (2 ^ 53)) as [E|N].
    - rewrite E.
      assert (S : inject_Z (2 ^ 53) * 2 ^ e == inject_Z (2 ^ 52) * 2 ^ (e + 1)).
      { rewrite two_succ, (two_inject 52), (two_inject 53) by lia.
        change (2 ^ 53) with (2 * 2 ^ 52). ring. }
      rewrite (round64_comp _ _ S), S. apply round64_exact. reflexivity.
    - apply round64_exact. lia. }
  destruct (Qlt_le_dec 0 x) as [Px|Nx]; [now apply P|].
  destruct (Qeq_dec x 0) as [E|N].
  - rewrite (round64_comp _ _ E). reflexivity.
  - assert (H : 0 < - x) by lra. apply P in H.
    pose proof (round64_opp x) as O.
    rewrite (round64_comp _ _ O), round64_opp in H. rewrite O in H. lra.
Qed.

(** *** The double nearest to a number *)

Lemma rne_closest (z : Q) (k : Z) :
  Qabs (inject_Z (Js.rne z) - z) <= Qabs (inject_Z k - z).
Proof.
  pose proof (rne_near z) as N. set (a := Js.rne z) in *.
  assert (Ha : Qabs (inject_Z a - z) <= 1 # 2).
  { apply Qabs_Qle_condition. unfold near in N.
    destruct N as [[L U]|[[E|E] _]]; split; lra. }
  destruct (Z.eq_dec k a) as [->|Hk]; [apply Qle_refl|].
  apply Qle_trans with (1 # 2); [exact Ha|].
  apply Qabs_Qle_condition in Ha. destruct Ha as [L U].
  assert (C : (k + 1 <= a \/ a + 1 <= k)%Z) by lia.
  destruct C as [C|C]; rewrite Zle_Qle, inject_Z_plus in C;
    change (inject_Z 1) with 1 in C.
  - assert (A : inject_Z k - z <= 0) by lra. rewrite (Qabs_neg _ A). lra.
  - assert (A : 0 <= inject_Z k - z) by lra. rewrite (Qabs_pos _ A). lra.
Qed.

Lemma Qabs_scale (a : Q) (e : Z) : Qabs (a * 2 ^ e) == Qabs a * 2 ^ e.
Proof.
  rewrite Qabs_Qmult, (Qabs_pos (2 ^ e)); [reflexivity|].
  apply Qlt_le_weak, two_pos.
Qed.

Lemma round64_nearest_pos (q d : Q) :
  0 < q -> Js.round64 d == d ->
  Qabs (Js.round64 q - q) <= Qabs (d - q).
Proof.
  intros Hq Hd.
  assert (Hnz : ~ q == 0) by lra.
  pose proof (round64_nonzero q Hnz) as R.
  pose proof (mag_spec q Hnz) as [ML MU].
  assert (Q0 : 0 <= q) by lra. rewrite (Qabs_pos q Q0) in ML, MU.
  set (e := (Js.mag q - 53)%Z) in *.
  pose proof (two_pos e) as Pe.
  set (z := q / 2 ^ e) in *.
  assert (Ez : q == z * 2 ^ e) by (unfold z; field; lra).
  assert (S1 : 2 ^ (Js.mag q - 1) == inject_Z (2 ^ 52) * 2 ^ e).
  { replace (Js.mag q - 1)%Z with (52 + e)%Z by (unfold e; lia).
    rewrite (two_split 52 e), (two_inject 52) by lia. reflexivity. }
  assert (S2 : 2 ^ Js.mag q == inject_Z (2 ^ 53) * 2 ^ e).
  { replace (Js.mag q) with (53 + e)%Z at 1 by (unfold e; lia).
    rewrite (two_split 53 e), (two_inject 53) by lia. reflexivity. }
  assert (Scale : forall k : Z,
             Qabs (Js.round64 q - q) <= Qabs (inject_Z k * 2 ^ e - q)).
  { intros k. rewrite R.
    setoid_replace (inject_Z (Js.rne z) * 2 ^ e - q)
      with ((inject_Z (Js.rne z) - z) * 2 ^ e) by (rewrite Ez at 1; ring).
    setoid_replace (inject_Z k * 2 ^ e - q)
      with ((inject_Z k - z) * 2 ^ e) by (rewrite Ez at 1; ring).
    rewrite !Qabs_scale. apply Qmult_le_compat_r; [|lra].
    apply rne_closest. }
  destruct (Qlt_le_dec d (2 ^ (Js.mag q - 1))) as [Lo|Lo].
  - apply Qle_trans with (Qabs (inject_Z (2 ^ 52) * 2 ^ e - q));
      [apply Scale|].
    rewrite <- S1.
    assert (A : 2 ^ (Js.mag q - 1) - q <= 0) by lra.
    assert (B : d - q <= 0) by lra.
    rewrite (Qabs_neg _ A), (Qabs_neg _ B). lra.
  - destruct (Qlt_le_dec d (2 ^ Js.mag q)) as [Hi|Hi].
    + assert (Dnz : ~ d == 0).
      { pose proof (two_pos (Js.mag q - 1)). lra. }
      assert (Md : Js.mag d = Js.mag q).
      { pose proof (two_pos (Js.mag q - 1)).
        assert (D0 : 0 <= d) by lra.
        apply mag_unique; rewrite (Qabs_pos d D0); assumption. }
      pose proof (round64_nonzero d Dnz) as Rd. rewrite Md in Rd. fold e in Rd.
      rewrite Hd in Rd.
      rewrite Rd at 1. apply Scale.
    + apply Qle_trans with (Qabs (inject_Z (2 ^ 53) * 2 ^ e - q));
        [apply Scale|].
      rewrite <- S2.
      assert (A : 0 <= 2 ^ Js.mag q - q) by lra.
      assert (B : 0 <= d - q) by lra.
      rewrite (Qabs_pos _ A), (Qabs_pos _ B). lra.
Qed.

Lemma round64_nearest (q d : Q) :
  Js.round64 d == d -> Qabs (Js.round64 q - q) <= Qabs (d - q).
Proof.
  intros Hd. destruct (Q_dec q 0) as [[N|P]|Z0].
  - assert (Hd' : Js.round64 (- d) == - d) by (rewrite round64_opp, Hd; reflexivity).
    assert (P : 0 < - q) by lra.
    pose proof (round64_nearest_pos (- q) (- d) P Hd') as H.
    rewrite round64_opp in H.
    setoid_replace (- Js.round64 q - - q) with (- (Js.round64 q - q)) in H by ring.
    setoid_replace (- d - - q) with (- (d - q)) in H by ring.
    now rewrite !Qabs_opp in H.
  - now apply round64_nearest_pos.
  - rewrite (round64_comp q 0 Z0), round64_0.
    setoid_replace (0 - q) with 0 by lra. apply Qabs_nonneg.
Qed.

Lemma double_dyadic (d : Q) : Js.round64 d == d -> dyadic d.
Proof.
  intros Hd. destruct (Qeq_dec d 0) as [Z0|Nz].
  - exists 0%Z, 0%Z. split; [lia|]. rewrite Z0. reflexivity.
  - pose proof (round64_nonzero d Nz) as R. rewrite Hd in R.
    set (e := (Js.mag d - 53)%Z) in *. set (r := Js.rne (d / 2 ^ e)) in *.
    destruct (Z_le_gt_dec 0 e) as [P|N].
    + exists (r * 2 ^ e)%Z, 0%Z. split; [lia|].
      rewrite inject_Z_mult, (two_inject e P).
      change (inject_Z (2 ^ 0)) with 1. rewrite R at 1. ring.
    + exists r, (- e)%Z. split; [lia|].
      rewrite (two_inject (- e)) by lia. rewrite R at 1.
      rewrite <- Qmult_assoc, <- (two_split e (- e)).
      replace (e + - e)%Z with 0%Z by lia. change (2 ^ 0) with 1. ring.
Qed.

Lemma dyadic_lift (q : Q) (m k j : Z) :
  (0 <= k <= j)%Z -> q * inject_Z (2 ^ k) == inject_Z m ->
  q * inject_Z (2 ^ j) == inject_Z (m * 2 ^ (j - k)).
Proof.
  intros H E. replace j with (k + (j - k))%Z at 1 by lia.
  rewrite Z.pow_add_r by lia. rewrite !inject_Z_mult, Qmult_assoc, E.
  reflexivity.
Qed.

Lemma dyadic_minus (a b : Q) : dyadic a -> dyadic b -> dyadic (a - b).
Proof.
  intros [m [k [Hk Ea]]] [n [j [Hj Eb]]].
  exists (m * 2 ^ (Z.max k j - k) - n * 2 ^ (Z.max k j - j))%Z, (Z.max k j).
  split; [lia|].
  unfold Z.sub. rewrite inject_Z_plus, inject_Z_opp,
    <- (dyadic_lift a m k (Z.max k j)), <- (dyadic_lift b n j (Z.max k j));
    try assumption; try lia.
  ring.
Qed.

Lemma two_power_mod_5 (k : Z) : (0 <= k)%Z -> (2 ^ k mod 5 <> 0)%Z.
Proof.
  intros Hk. pattern k. apply natlike_ind; [discriminate| |exact Hk].
  intros x Hx IH. rewrite Z.pow_succ_r by exact Hx.
  rewrite Z.mul_mod by lia.
  pose proof (Z.mod_pos_bound (2 ^ x) 5).
  assert (C : (2 ^ x mod 5 = 1 \/ 2 ^ x mod 5 = 2 \/ 2 ^ x mod 5 = 3
               \/ 2 ^ x mod 5 = 4)%Z) by lia.
  destruct C as [-> | [-> | [-> | ->]]]; discriminate.
Qed.

Lemma hundredth_not_dyadic : ~ dyadic (1 # 100).
Proof.
  intros [m [k [Hk E]]].
  assert (Z : (2 ^ k = m * 20 * 5)%Z).
  { unfold Qeq, Qmult, inject_Z in E. cbn [Qnum Qden] in E. lia. }
  apply (two_power_mod_5 k Hk). rewrite Z. apply Z_mod_mult.
Qed.

(** Two doubles are never one hundredth apart. *)
Lemma doubles_not_a_hundredth_apart (x y : Q) :
  Js.round64 x == x -> Js.round64 y == y -> ~ y - x == 1 # 100.
Proof.
  intros Hx Hy E. apply hundredth_not_dyadic.
  destruct (dyadic_minus y x (double_dyadic y Hy) (double_dyadic x Hx))
    as [m [k [Hk Em]]].
  exists m, k. split; [exact Hk|]. now rewrite <- E.
Qed.

(** *** Sums *)

Lemma fold_left_amounts (xs : list Transaction.t) (acc : Q) :
  fold_left (fun sum t => Js.plus64 sum (Transaction.amount t)) xs acc
  = fold_left Js.plus64 (map Transaction.amount xs) acc.
Proof.
  revert acc. induction xs as [|t xs IH]; intros acc; [reflexivity|].
  simpl. apply IH.
Qed.

Lemma reduce_amounts_eq (xs : list Transaction.t) :
  reduce_amounts xs = total_amount xs.
Proof. apply fold_left_amounts. Qed.

Lemma reduce_amounts_total (xs : list Transaction.t) :
  reduce_amounts xs == total_amount xs.
Proof. now rewrite reduce_amounts_eq. Qed.

Lemma plus64_comp (a a' b : Q) : a == a' -> Js.plus64 a b = Js.plus64 a' b.
Proof.
  intros E. unfold Js.plus64. rewrite (round64_comp _ _ E). reflexivity.
Qed.

Lemma total_snoc (l : list Q) (x : Q) :
  total (l ++ [x]) = Js.plus64 (total l) x.
Proof. unfold total. now rewrite fold_left_app. Qed.

(** A sum is a double. *)
Lemma total_double (l : list Q) : Js.round64 (total l) == total l.
Proof.
  destruct l as [|x l] using rev_ind; [reflexivity|].
  rewrite total_snoc. unfold Js.plus64. apply round64_idem.
Qed.

Lemma reduce_amounts_double (xs : list Transaction.t) :
  Js.round64 (reduce_amounts xs) == reduce_amounts xs.
Proof. rewrite reduce_amounts_eq. apply total_double. Qed.

Lemma exact_total_app (l l' : list Q) :
  exact_total (l ++ l') == exact_total l + exact_total l'.
Proof.
  induction l as [|x l IH]; simpl; [ring|]. rewrite IH. ring.
Qed.

Lemma exact_total_nonneg (l : list Q) :
  Forall whole_number l -> 0 <= exact_total l.
Proof.
  induction 1 as [|x l [n [Hn Hx]] _ IH]; simpl; [apply Qle_refl|].
  assert (0 <= inject_Z n) by (change 0 with (inject_Z 0); now rewrite <- Zle_Qle).
  rewrite Hx. lra.
Qed.

(** The additions of whole numbers below [2 ^ 53] are exact. *)
Lemma plus64_whole (a b : Z) :
  (0 <= a)%Z -> (0 <= b)%Z -> (a + b < 2 ^ 53)%Z ->
  forall x y, x == inject_Z a -> y == inject_Z b ->
  Js.plus64 x y == inject_Z (a + b).
Proof.
  intros Ha Hb Hab x y Hx Hy. unfold Js.plus64.
  assert (Rx : Js.round64 x == inject_Z a).
  { rewrite (round64_comp _ _ Hx). apply round64_Z. lia. }
  assert (Ry : Js.round64 y == inject_Z b).
  { rewrite (round64_comp _ _ Hy). apply round64_Z. lia. }
  assert (S : Js.round64 x + Js.round64 y == inject_Z (a + b))
    by (rewrite Rx, Ry, inject_Z_plus; reflexivity).
  rewrite (round64_comp _ _ S). apply round64_Z. lia.
Qed.

Lemma whole_fold (l : list Q) (a : Z) (acc : Q) :
  (0 <= a)%Z -> acc == inject_Z a -> Forall whole_number l ->
  inject_Z a + exact_total l < inject_Z (2 ^ 53) ->
  fold_left Js.plus64 l acc == acc + exact_total l.
Proof.
  intros Ha Hacc Hl. revert a acc Ha Hacc.
  induction Hl as [|x l [n [Hn Hx]] Hl IH]; intros a acc Ha Hacc Hsum;
    cbn [fold_left exact_total] in *.
  - ring.
  - pose proof (exact_total_nonneg l Hl) as P.
    assert (B : (a + n < 2 ^ 53)%Z).
    { rewrite Zlt_Qlt, inject_Z_plus. rewrite Hx in Hsum. lra. }
    pose proof (plus64_whole a n Ha Hn B acc x Hacc Hx) as E.
    rewrite (IH (a + n)%Z); [| lia | exact E |].
    + rewrite E, Hacc, Hx, inject_Z_plus. ring.
    + rewrite inject_Z_plus. rewrite Hx in Hsum. lra.
Qed.

Lemma total_exact (l : list Q) : whole l -> total l == exact_total l.
Proof.
  intros [Hl Hsum]. unfold total.
  rewrite (whole_fold l 0 0); [ring|lia|reflexivity|exact Hl|].
  change (inject_Z 0) with 0. lra.
Qed.

Lemma total_whole_number (l : list Q) : whole l -> whole_number (total l).
Proof.
  intros H. pose proof (total_exact l H) as E. destruct H as [Hl _].
  assert (W : whole_number (exact_total l)).
  { clear E. induction Hl as [|x l [n [Hn Hx]] _ [m [Hm IH]]]; simpl.
    - exists 0%Z. split; [lia|reflexivity].
    - exists (n + m)%Z. split; [lia|]. now rewrite inject_Z_plus, Hx, IH. }
  destruct W as [n [Hn W]]. exists n. split; [exact Hn|]. now rewrite E.
Qed.

Lemma exact_total_filter_le (f : Transaction.t -> bool) (xs : list Transaction.t) :
  Forall whole_number (map Transaction.amount xs) ->
  exact_total_amount (filter f xs) <= exact_total_amount xs.
Proof.
  unfold exact_total_amount.
  induction xs as [|t xs IH]; intros H; simpl; [apply Qle_refl|].
  inversion H as [|? ? [n [Hn Ht]] Hxs]; subst. specialize (IH Hxs).
  assert (0 <= inject_Z n) by (change 0 with (inject_Z 0); now rewrite <- Zle_Qle).
  destruct (f t); simpl; lra.
Qed.

Lemma whole_amounts_filter (f : Transaction.t -> bool) (xs : list Transaction.t) :
  whole_amounts xs -> whole_amounts (filter f xs).
Proof.
  intros [Hl Hsum]. split.
  - clear Hsum. induction xs as [|t xs IH]; simpl; [constructor|].
    inversion Hl; subst. destruct (f t); simpl; auto.
  - apply Qle_lt_trans with (exact_total_amount xs); [|exact Hsum].
    now apply exact_total_filter_le.
Qed.

Lemma whole_number_nonneg (x : Q) : whole_number x -> 0 <= x.
Proof.
  intros [n [Hn E]]. rewrite E. change 0 with (inject_Z 0).
  now rewrite <- Zle_Qle.
Qed.

Lemma whole_amounts_tail (t : Transaction.t) (xs : list Transaction.t) :
  whole_amounts (t :: xs) -> whole_amounts xs.
Proof.
  intros [Hl Hs]. inversion Hl as [|? ? Ht Hxs]; subst.
  split; [exact Hxs|].
  apply whole_number_nonneg in Ht. cbn [map exact_total] in Hs. lra.
Qed.

Lemma total_amount_exact (xs : list Transaction.t) :
  whole_amounts xs -> total_amount xs == exact_total_amount xs.
Proof. apply total_exact. Qed.

Lemma total_amount_filter_exact (f : Transaction.t -> bool) (xs : list Transaction.t) :
  whole_amounts xs ->
  total_amount (filter f xs) == exact_total_amount (filter f xs).
Proof. intros H. now apply total_amount_exact, whole_amounts_filter. Qed.

(** ** Budget status *)

Lemma Js_percent (a b : Q) :
  ~ b == 0 -> Js.times64 (Js.div64 a b) 100 = Js.Fin (percent a b).
Proof.
  intros H. unfold Js.div64, percent.
  rewrite (Qeq_bool_false_intro _ _ H). reflexivity.
Qed.

Lemma getBudgetStatus_some
    (transactions : list Transaction.t) (category : Category.t) (b : Q) :
  Category.budget category = Some b -> ~ b == 0 ->
  let spent :=
    reduce_amounts (filter (references_category category) transactions) in
  let p := Qfloor (percent spent b + (1 # 2)) in
  BudgetPage.getBudgetStatus transactions category =
  Some {| BudgetPage.spent := spent;
          BudgetPage.remaining := b - spent;
          BudgetPage.percentage := Js.Fin (inject_Z p);
          BudgetPage.status :=
            if Qle_bool 90 (inject_Z p) then "danger"
            else if Qle_bool 75 (inject_Z p) then "warning"
            else "normal" |}.
Proof.
  intros Hb Hnz. unfold BudgetPage.getBudgetStatus. rewrite Hb. simpl.
  rewrite (Qeq_bool_false_intro _ _ Hnz). simpl.
  rewrite (Js_percent _ _ Hnz). reflexivity.
Qed.

Lemma getBudgetStatus_none_iff
    (transactions : list Transaction.t) (category : Category.t) :
  BudgetPage.getBudgetStatus transactions category = None <->
  Category.budget category = None \/
  exists b, Category.budget category = Some b /\ b == 0.
Proof.
  unfold BudgetPage.getBudgetStatus.
  destruct (Category.budget category) as [b|] eqn:Hb; simpl.
  - destruct (Qeq_bool b 0) eqn:E; simpl.
    + apply Qeq_bool_iff in E. split; [|reflexivity].
      intros _. right. exists b. now split.
    + apply Qeq_bool_false in E. split; [discriminate|].
      intros [H|[b' [H1 H2]]]; [discriminate|].
      injection H1 as <-. contradiction.
  - split; [now left | reflexivity].
Qed.




(** The fixture category: 180 of 200 spent is 90 percent, hence "danger". *)
Example getBudgetStatus_fixture :
  option_map (fun st => (BudgetPage.percentage st, BudgetPage.status st))
    (BudgetPage.getBudgetStatus
       [Fixture.jan15; Fixture.feb10; Fixture.feb11; Fixture.misfiled]
       Fixture.food)
  = Some (Js.Fin 90, "danger").
Proof. vm_compute. reflexivity. Qed.

(** The quotient is the quotient of doubles: 201 of 200 is 100 percent (the
    product [1.005 * 100] is the double just below 100.5), and 17.9 of 20
    is 89 percent, a "warning". *)
Example getBudgetStatus_doubles :
  option_map (fun st => (BudgetPage.percentage st, BudgetPage.status st))
    (BudgetPage.getBudgetStatus
       [Fixture.entry "t1" 201 EntryType.expense "A" (Fixture.on 2024 2 1) ""]
       Fixture.food)
  = Some (Js.Fin 100, "danger") /\
  option_map (fun st => (BudgetPage.percentage st, BudgetPage.status st))
    (BudgetPage.getBudgetStatus
       [Fixture.entry "t1" (179 # 10) EntryType.expense "A"
                      (Fixture.on 2024 2 1) ""]
       (Fixture.category "A" "Food" EntryType.expense (Some 20)))
  = Some (Js.Fin 89, "warning").
Proof. split; vm_compute; reflexivity. Qed.

(** C10: [getBudgetStatus] returns null exactly when the category's budget
    is null or 0; otherwise the percentage is the rounded quotient of
    [spent] by a non-zero budget, so the division is finite (no zero
    divisor) and a zero budget yields no status. *)
Theorem getBudgetStatus_null_iff_no_budget
    (transactions : list Transaction.t) (category : Category.t) :
  (BudgetPage.getBudgetStatus transactions category = None <->
   Category.budget category = None \/
   exists b, Category.budget category = Some b /\ b == 0) /\
  (forall st,
     BudgetPage.getBudgetStatus transactions category = Some st ->
     exists b,
       Category.budget category = Some b /\ ~ b == 0 /\
       BudgetPage.percentage st
         = Js.round (Js.times64 (Js.div64 (BudgetPage.spent st) b) 100) /\
       Js.div64 (BudgetPage.spent st) b
         = Js.Fin (Js.round64
                     (Js.round64 (BudgetPage.spent st) / Js.round64 b)) /\
       Js.is_finite (BudgetPage.percentage st) = true).
Proof.
  split; [apply getBudgetStatus_none_iff|].
  intros st Hst.
  destruct (Category.budget category) as [b|] eqn:Hb.
  - destruct (Qeq_bool b 0) eqn:E.
    + apply Qeq_bool_iff in E.
      assert (N : BudgetPage.getBudgetStatus transactions category = None).
      { apply getBudgetStatus_none_iff. right. exists b. now split. }
      congruence.
    + apply Qeq_bool_false in E. exists b.
      split; [reflexivity|]. split; [exact E|].
      pose proof (getBudgetStatus_some transactions category b Hb E) as H.
      cbv zeta in H. rewrite H in Hst. injection Hst as <-.
      cbn [BudgetPage.spent BudgetPage.percentage].
      rewrite (Js_percent _ _ E). unfold Js.div64.
      rewrite (Qeq_bool_false_intro _ _ E). repeat split.
  - assert (N : BudgetPage.getBudgetStatus transactions category = None).
    { apply getBudgetStatus_none_iff. now left. }
    congruence.
Qed.

(** ** Savings-goal progress *)

Lemma percentage_capped (current target : Q) :
  ~ target == 0 ->
  let r := Qfloor (percent current target + (1 # 2)) in
  Js.min (Js.Fin 100) (Js.round (Js.times64 (Js.div64 current target) 100))
  = Js.Fin (inject_Z (Z.min 100 r)).
Proof.
  intros Hnz r. rewrite (Js_percent _ _ Hnz).
  cbn [Js.round Js.min]. fold r.
  change (Js.Fin 100) with (Js.Fin (inject_Z 100)).
  change (Qle_bool 100) with (Qle_bool (inject_Z 100)).
  destruct (Qle_bool (inject_Z 100) (inject_Z r)) eqn:E.
  - apply Qle_bool_inject in E. now rewrite Z.min_l.
  - assert (N : ~ (100 <= r)%Z)
      by (intros L; apply Qle_bool_inject in L; congruence).
    rewrite Z.min_r by lia. reflexivity.
Qed.

(** C9: for a savings goal whose target amount is not zero, the progress
    percentage of the goal card and of the dashboard is
    [min(100, round(current_amount / target_amount * 100))], the quotient
    and the product being those of doubles; it never exceeds 100, even when
    the current amount exceeds the target. *)
Theorem goal_percentage_min_100 (goal : SavingsGoal.t) :
  ~ SavingsGoal.target_amount goal == 0 ->
  exists (x : Q) (r p : Z),
    Js.times64
      (Js.div64 (SavingsGoal.current_amount goal)
                (SavingsGoal.target_amount goal)) 100 = Js.Fin x /\
    nearest_integer x r /\
    p = Z.min 100 r /\
    GoalCard.percentage goal = Js.Fin (inject_Z p) /\
    Dashboard.goal_percentage goal = Js.Fin (inject_Z p) /\
    (p <= 100)%Z.
Proof.
  intros Hnz.
  exists (percent (SavingsGoal.current_amount goal)
                  (SavingsGoal.target_amount goal)).
  exists (Qfloor (percent (SavingsGoal.current_amount goal)
                          (SavingsGoal.target_amount goal) + (1 # 2))).
  eexists. split; [now apply Js_percent|].
  split; [apply Qfloor_half_nearest|].
  split; [reflexivity|].
  unfold GoalCard.percentage, Dashboard.goal_percentage.
  rewrite (percentage_capped _ _ Hnz). cbv zeta.
  repeat split. lia.
Qed.

Lemma goal_percentage_min_100_witness :
  let goal := Fixture.goal 1000 1500 in
  ~ SavingsGoal.target_amount goal == 0 /\
  SavingsGoal.target_amount goal < SavingsGoal.current_amount goal /\
  exists p : Z,
    GoalCard.percentage goal = Js.Fin (inject_Z p) /\
    Dashboard.goal_percentage goal = Js.Fin (inject_Z p) /\
    (p <= 100)%Z.
Proof.
  intros goal.
  assert (H : ~ SavingsGoal.target_amount goal == 0)
    by (intros E; vm_compute in E; discriminate E).
  split; [exact H|]. split; [reflexivity|].
  destruct (goal_percentage_min_100 goal H) as [x [r [p [_ [_ [_ [A [B C]]]]]]]].
  exists p. repeat split; assumption.
Defined.

(** Without the assumption: a zero target with nothing saved gives NaN. *)
Example goal_percentage_zero_target :
  GoalCard.percentage (Fixture.goal 0 0) = Js.NaN /\
  GoalCard.percentage (Fixture.goal 0 1500) = Js.Fin 100.
Proof. split; reflexivity. Qed.

(** The quotient is the quotient of doubles: 29 of 200 shows 14 percent
    and 19.9 of 20 shows 99 percent. *)
Example goal_percentage_doubles :
  GoalCard.percentage (Fixture.goal 200 29) = Js.Fin 14 /\
  Dashboard.goal_percentage (Fixture.goal 200 29) = Js.Fin 14 /\
  GoalCard.percentage (Fixture.goal 20 (199 # 10)) = Js.Fin 99 /\
  GoalCard.percentage (Fixture.goal 2 (199 # 100)) = Js.Fin 100.
Proof. repeat split; vm_compute; reflexivity. Qed.

(** ** Monthly summary *)

Lemma getLastNMonths_length (today : Date.t) (n : nat) :
  List.length (getLastNMonths today n) = n.
Proof.
  unfold getLastNMonths. now rewrite length_rev, length_map, length_seq.
Qed.

(** The [k]-th entry, counted from the oldest, is the month [n - 1 - k]
    months before the current one. *)
Lemma getLastNMonths_nth (today : Date.t) (n k : nat) :
  (k < n)%nat ->
  let i := (month_index today - Z.of_nat (n - 1 - k))%Z in
  nth_error (getLastNMonths today n) k =
  Some {| MonthRef.month := i mod 12 + 1;
          MonthRef.year := i / 12;
          MonthRef.name := short_month_name (i mod 12) |}.
Proof.
  intros Hk i. unfold getLastNMonths.
  rewrite nth_error_rev, length_map, length_seq.
  destruct (Nat.ltb_spec k n) as [_|L]; [|lia].
  rewrite nth_error_map, nth_error_seq.
  destruct (Nat.ltb_spec (n - S k) n) as [_|L]; [|lia].
  cbn [option_map Nat.add]. unfold Date_first_of_month. cbn [Date.year Date.month0].
  replace (n - S k)%nat with (n - 1 - k)%nat by lia.
  assert (E : (Date.year today * 12
               + (Date.month0 today - Z.of_nat (n - 1 - k)) = i)%Z).
  { unfold i, month_index. lia. }
  rewrite <- E.
  set (x := (Date.month0 today - Z.of_nat (n - 1 - k))%Z).
  assert (Hd : ((Date.year today * 12 + x) / 12 = Date.year today + x / 12)%Z)
    by (rewrite Z.div_add_l; lia).
  assert (Hm : ((Date.year today * 12 + x) mod 12 = x mod 12)%Z)
    by (rewrite Z.add_comm, Z.mod_add; lia).
  rewrite Hd, Hm. reflexivity.
Qed.

Lemma filter_filter {A : Type} (f g : A -> bool) (l : list A) :
  filter f (filter g l) = filter (fun x => f x && g x) l.
Proof.
  induction l as [|x l IH]; simpl; [reflexivity|].
  destruct (g x); simpl; rewrite ?andb_true_r, ?andb_false_r;
    [destruct (f x)|]; now rewrite IH.
Qed.

Lemma monthlyStats_length (months : list MonthRef.t) (txs : list Transaction.t) :
  List.length (Dashboard.monthlyStats months txs) = List.length months.
Proof.
  unfold Dashboard.monthlyStats. apply length_map.
Qed.

Lemma month_filter_in_month (i : Z) (txs : list Transaction.t) :
  filter
    (fun t =>
       (Date.month0 (Transaction.date t) + 1 =? i mod 12 + 1)%Z
       && (Date.year (Transaction.date t) =? i / 12)%Z)
    txs
  = filter (in_month i) txs.
Proof.
  apply filter_ext. intros t. unfold in_month. f_equal.
  destruct (Z.eqb_spec (Date.month0 (Transaction.date t) + 1) (i mod 12 + 1));
    destruct (Z.eqb_spec (Date.month0 (Transaction.date t)) (i mod 12));
    try reflexivity; lia.
Qed.

(** The bucket computed for the month of index [i]. *)
Lemma monthlyStats_bucket (today : Date.t) (n k : nat) (txs : list Transaction.t) :
  (k < n)%nat ->
  let i := (month_index today - Z.of_nat (n - 1 - k))%Z in
  exists bucket,
    nth_error (Dashboard.monthlyStats (getLastNMonths today n) txs) k
      = Some bucket /\
    Dashboard.name bucket = short_month_name (i mod 12) /\
    Dashboard.income bucket == month_total EntryType.income i txs /\
    Dashboard.expenses bucket == month_total EntryType.expense i txs /\
    Dashboard.balance bucket
      == Dashboard.income bucket - Dashboard.expenses bucket.
Proof.
  intros Hk i. unfold Dashboard.monthlyStats.
  rewrite nth_error_map, (getLastNMonths_nth today n k Hk).
  fold i. cbn [option_map MonthRef.month MonthRef.year MonthRef.name].
  eexists. split; [reflexivity|].
  cbn [Dashboard.name Dashboard.income Dashboard.expenses Dashboard.balance].
  rewrite month_filter_in_month, !filter_filter.
  split; [reflexivity|].
  split; [apply reduce_amounts_total|].
  split; [apply reduce_amounts_total|reflexivity].
Qed.

Lemma month_total_empty (ty : EntryType.t) (i : Z) (txs : list Transaction.t) :
  (forall t, In t txs -> in_month i t = false) ->
  month_total ty i txs = 0.
Proof.
  intros H. unfold month_total.
  replace (filter (fun t => Dashboard.of_type ty t && in_month i t) txs)
    with (@nil Transaction.t); [reflexivity|].
  symmetry. induction txs as [|t txs IH]; [reflexivity|].
  simpl. rewrite (H t (or_introl eq_refl)), andb_false_r.
  apply IH. intros u Hu. apply H. now right.
Qed.

Lemma processData_nonempty (today : Date.t) (st : Dashboard.state) :
  Dashboard.transactions st <> [] ->
  Dashboard.monthlyData (Dashboard.processData today st)
  = Dashboard.monthlyStats (getLastNMonths today 6) (Dashboard.transactions st).
Proof.
  intros H. unfold Dashboard.processData.
  destruct (Dashboard.transactions st) as [|t txs]; [contradiction|reflexivity].
Qed.

Lemma processData_empty (today : Date.t) (st : Dashboard.state) :
  Dashboard.transactions st = [] -> Dashboard.processData today st = st.
Proof.
  intros H. unfold Dashboard.processData. now rewrite H.
Qed.

(** C2, as stated, fails on the empty transaction list: the dashboard's
    effect returns before computing anything, so a fresh page asked for its
    six trailing months holds no bucket at all. *)
Lemma monthly_summary_empty_list_has_no_buckets :
  Dashboard.transactions Dashboard.initial = [] /\
  List.length
    (Dashboard.monthlyData
       (Dashboard.processData Fixture.feb2024 Dashboard.initial))
  <> 6%nat.
Proof.
  split; [reflexivity|]. vm_compute. discriminate.
Qed.

(** C2, amended: for every [n] and every transaction list, the buckets
    computed over [getLastNMonths n] are exactly [n], the [k]-th being the
    calendar month [n - 1 - k] months before the current one (oldest first),
    with income and expense totals equal to the sums of the amounts of the
    transactions of that type dated in that month, and zero totals for a
    month without transactions; the dashboard computes them for [n = 6]
    when its transaction list is not empty and leaves its state untouched
    when it is empty.  For 100 spent on 2024-01-15 and 50 on 2024-02-10 and
    two trailing months from February 2024 the buckets are January with
    expenses 100, then February with expenses 50. *)
Theorem monthly_summary_buckets
    (today : Date.t) (n : nat) (txs : list Transaction.t) :
  let out := Dashboard.monthlyStats (getLastNMonths today n) txs in
  List.length out = n /\
  (forall k : nat, (k < n)%nat ->
     let i := (month_index today - Z.of_nat (n - 1 - k))%Z in
     exists bucket,
       nth_error out k = Some bucket /\
       Dashboard.name bucket = short_month_name (i mod 12) /\
       Dashboard.income bucket == month_total EntryType.income i txs /\
       Dashboard.expenses bucket == month_total EntryType.expense i txs /\
       ((forall t, In t txs -> in_month i t = false) ->
        Dashboard.income bucket == 0 /\ Dashboard.expenses bucket == 0)) /\
  (forall st : Dashboard.state,
     Dashboard.transactions st = txs ->
     (txs <> [] ->
      Dashboard.monthlyData (Dashboard.processData today st)
      = Dashboard.monthlyStats (getLastNMonths today 6) txs) /\
     (txs = [] -> Dashboard.processData today st = st)) /\
  Dashboard.monthlyStats (getLastNMonths Fixture.feb2024 2)
                         [Fixture.jan15; Fixture.feb10]
  = [ {| Dashboard.name := "Jan"; Dashboard.income := 0;
         Dashboard.expenses := 100; Dashboard.balance := -(100) |};
      {| Dashboard.name := "Feb"; Dashboard.income := 0;
         Dashboard.expenses := 50; Dashboard.balance := -(50) |} ].
Proof.
  cbv zeta. split.
  { now rewrite monthlyStats_length, getLastNMonths_length. }
  split.
  { intros k Hk.
    destruct (monthlyStats_bucket today n k txs Hk)
      as [bucket [Hb [Hn [Hi [He _]]]]].
    exists bucket. repeat split; try assumption.
    - rewrite Hi. now rewrite month_total_empty.
    - rewrite He. now rewrite month_total_empty. }
  split.
  { intros st <-. split.
    - apply processData_nonempty.
    - apply processData_empty. }
  vm_compute. reflexivity.
Qed.

(** ** Category summary *)

Section Sorting.

Context {A : Type} (cmp : A -> A -> Q).

Lemma sort_insert_perm (x : A) (l : list A) :
  Permutation (sort_insert cmp x l) (x :: l).
Proof.
  induction l as [|y l IH]; simpl; [reflexivity|].
  destruct (Qle_bool (cmp x y) 0); [reflexivity|].
  rewrite IH. apply perm_swap.
Qed.

Lemma Array_sort_perm (l : list A) : Permutation (Array_sort cmp l) l.
Proof.
  induction l as [|x l IH]; simpl; [reflexivity|].
  rewrite sort_insert_perm. now constructor.
Qed.

Lemma Array_sort_Forall (P : A -> Prop) (l : list A) :
  Forall P l -> Forall P (Array_sort cmp l).
Proof.
  intros H. eapply Permutation_Forall; [|exact H].
  symmetry. apply Array_sort_perm.
Qed.

End Sorting.

Lemma by_value_desc_le (a b : Dashboard.Slice) :
  Qle_bool (Dashboard.by_value_desc a b) 0 = true <-> falling a b.
Proof.
  unfold Dashboard.by_value_desc, falling. rewrite Qle_bool_iff.
  split; intros H.
  - apply (Qplus_le_l _ _ (- Dashboard.value a)).
    setoid_replace (Dashboard.value a + - Dashboard.value a) with 0 by ring.
    exact H.
  - apply (Qplus_le_l _ _ (Dashboard.value a)).
    setoid_replace (Dashboard.value b - Dashboard.value a + Dashboard.value a)
      with (Dashboard.value b) by ring.
    setoid_replace (0 + Dashboard.value a) with (Dashboard.value a) by ring.
    exact H.
Qed.

Lemma sort_insert_sorted (x : Dashboard.Slice) (l : list Dashboard.Slice) :
  StronglySorted falling l ->
  StronglySorted falling (sort_insert Dashboard.by_value_desc x l).
Proof.
  induction 1 as [|y l Hs IH Hy]; simpl.
  - repeat constructor.
  - destruct (Qle_bool (Dashboard.by_value_desc x y) 0) eqn:E.
    + apply by_value_desc_le in E.
      constructor; [now constructor|].
      constructor; [exact E|].
      eapply Forall_impl; [|exact Hy].
      intros z Hz. unfold falling in *. now apply Qle_trans with (Dashboard.value y).
    + constructor; [exact IH|].
      eapply Permutation_Forall;
        [symmetry; apply sort_insert_perm|].
      constructor; [|exact Hy].
      apply Qle_bool_false in E. unfold Dashboard.by_value_desc in E.
      unfold falling. apply Qlt_le_weak.
      apply (Qplus_lt_l _ _ (- Dashboard.value x)).
      setoid_replace (Dashboard.value x + - Dashboard.value x) with 0 by ring.
      exact E.
Qed.

Lemma Array_sort_sorted (l : list Dashboard.Slice) :
  StronglySorted falling (Array_sort Dashboard.by_value_desc l).
Proof.
  induction l as [|x l IH]; simpl; [constructor|].
  now apply sort_insert_sorted.
Qed.

Lemma positive_spec (c : Dashboard.Slice) :
  Dashboard.positive c = true <-> 0 < Dashboard.value c.
Proof.
  unfold Dashboard.positive. destruct (Qle_bool (Dashboard.value c) 0) eqn:E.
  - apply Qle_bool_iff in E. split; [discriminate|].
    intros H. exfalso. exact (Qlt_not_le _ _ H E).
  - apply Qle_bool_false in E. simpl. tauto.
Qed.

Lemma category_summary_positive_sorted
    (categories : list Category.t) (transactions : list Transaction.t) :
  Forall (fun c => 0 < Dashboard.value c /\ ~ Dashboard.value c == 0)
         (category_summary categories transactions) /\
  StronglySorted falling (category_summary categories transactions).
Proof.
  unfold category_summary. split; [|apply Array_sort_sorted].
  apply Array_sort_Forall. apply Forall_forall. intros c Hc.
  apply filter_In in Hc. destruct Hc as [_ Hc].
  apply positive_spec in Hc. split; [exact Hc|].
  intros E. rewrite E in Hc. exact (Qlt_irrefl 0 Hc).
Qed.

Lemma expenseByCategory_summary
    (categories : list Category.t) (transactions : list Transaction.t) :
  Dashboard.expenseByCategory categories transactions
  = category_summary (filter (has_type EntryType.expense) categories)
                     transactions.
Proof. reflexivity. Qed.

Lemma categoryData_summary (st : ReportsPage.state) :
  ReportsPage.categoryData st
  = category_summary (ReportsPage.categories st)
                     (ReportsPage.filteredTransactions st).
Proof. reflexivity. Qed.

(** C7: the category summary of the dashboard and the one of the reports
    page hold no entry whose total is zero (every total is positive), and
    their entries are sorted by falling total. *)
Theorem category_summary_nonzero_descending
    (categories : list Category.t) (transactions : list Transaction.t)
    (st : ReportsPage.state) :
  (Forall (fun c => 0 < Dashboard.value c /\ ~ Dashboard.value c == 0)
          (Dashboard.expenseByCategory categories transactions) /\
   StronglySorted (fun a b => Dashboard.value b <= Dashboard.value a)
                  (Dashboard.expenseByCategory categories transactions)) /\
  (Forall (fun c => 0 < Dashboard.value c /\ ~ Dashboard.value c == 0)
          (ReportsPage.categoryData st) /\
   StronglySorted (fun a b => Dashboard.value b <= Dashboard.value a)
                  (ReportsPage.categoryData st)).
Proof.
  rewrite expenseByCategory_summary, categoryData_summary.
  split; apply category_summary_positive_sorted.
Qed.

Lemma exact_total_perm (l l' : list Q) :
  Permutation l l' -> exact_total l == exact_total l'.
Proof.
  induction 1; simpl.
  - reflexivity.
  - now rewrite IHPermutation.
  - ring.
  - now rewrite IHPermutation1.
Qed.

Lemma exact_total_amount_cons (t : Transaction.t) (xs : list Transaction.t) :
  exact_total_amount (t :: xs)
  = Transaction.amount t + exact_total_amount xs.
Proof. reflexivity. Qed.

Lemma slice_value (txs : list Transaction.t) (c : Category.t) :
  Dashboard.value (Dashboard.slice_of txs c)
  == total_amount (filter (references_category c) txs).
Proof.
  unfold Dashboard.slice_of. cbn [Dashboard.value].
  apply reduce_amounts_total.
Qed.

Lemma slice_value_exact (txs : list Transaction.t) (c : Category.t) :
  whole_amounts txs ->
  Dashboard.value (Dashboard.slice_of txs c)
  == exact_total_amount (filter (references_category c) txs).
Proof.
  intros H. rewrite slice_value. now apply total_amount_filter_exact.
Qed.

Lemma slice_value_whole (txs : list Transaction.t) (c : Category.t) :
  whole_amounts txs -> whole_number (Dashboard.value (Dashboard.slice_of txs c)).
Proof.
  intros H.
  destruct (total_whole_number _ (whole_amounts_filter (references_category c)
                                    txs H)) as [n [Hn E]].
  exists n. split; [exact Hn|]. now rewrite slice_value.
Qed.

(** Dropping the slices without a positive total keeps the sum when no
    total is negative. *)
Lemma positive_filter_total (l : list Dashboard.Slice) :
  Forall (fun c => 0 <= Dashboard.value c) l ->
  exact_total (map Dashboard.value (filter Dashboard.positive l))
  == exact_total (map Dashboard.value l).
Proof.
  induction 1 as [|c l Hc Hl IH]; simpl; [reflexivity|].
  destruct (Dashboard.positive c) eqn:E; simpl.
  - now rewrite IH.
  - rewrite IH. unfold Dashboard.positive in E.
    apply negb_false_iff, Qle_bool_iff in E.
    assert (Z0 : Dashboard.value c == 0) by (apply Qle_antisym; assumption).
    rewrite Z0. ring.
Qed.

Lemma listed_split (c : Category.t) (cs : list Category.t)
    (txs : list Transaction.t) :
  ~ In (Category.id c) (map Category.id cs) ->
  exact_total_amount (filter (listed (c :: cs)) txs)
  == exact_total_amount (filter (references_category c) txs)
     + exact_total_amount (filter (listed cs) txs).
Proof.
  intros Hnew. induction txs as [|t txs IH]; simpl.
  - unfold exact_total_amount. simpl. ring.
  - destruct (references_category c t) eqn:R; simpl.
    + assert (L : listed cs t = false).
      { destruct (listed cs t) eqn:L; [|reflexivity].
        exfalso. apply Hnew. unfold listed in L.
        apply existsb_exists in L. destruct L as [c' [Hin Hc']].
        unfold references_category in R, Hc'.
        apply String.eqb_eq in R, Hc'. apply in_map_iff.
        exists c'. split; [congruence|exact Hin]. }
      rewrite L, !exact_total_amount_cons, IH. ring.
    + destruct (listed cs t); rewrite ?exact_total_amount_cons, IH; ring.
Qed.

Lemma slices_total (cats : list Category.t) (txs : list Transaction.t) :
  whole_amounts txs ->
  NoDup (map Category.id cats) ->
  exact_total (map Dashboard.value (map (Dashboard.slice_of txs) cats))
  == exact_total_amount (filter (listed cats) txs).
Proof.
  intros Hw. induction cats as [|c cs IH]; intros Hnd.
  - simpl. replace (filter (listed []) txs) with (@nil Transaction.t).
    + reflexivity.
    + clear. induction txs as [|t txs IHt]; [reflexivity|exact IHt].
  - inversion Hnd as [|x l Hnew Hnd']; subst.
    cbn [map exact_total].
    rewrite (slice_value_exact _ _ Hw), (IH Hnd'), listed_split by exact Hnew.
    reflexivity.
Qed.

Lemma category_summary_listed_exact
    (cats : list Category.t) (txs : list Transaction.t) :
  whole_amounts txs ->
  NoDup (map Category.id cats) ->
  exact_total (map Dashboard.value (category_summary cats txs))
  == exact_total_amount (filter (listed cats) txs).
Proof.
  intros Hw Hnd. unfold category_summary.
  rewrite (exact_total_perm _ _
             (Permutation_map Dashboard.value
                (Array_sort_perm Dashboard.by_value_desc _))).
  rewrite positive_filter_total.
  - now apply slices_total.
  - apply Forall_forall. intros s Hs. apply in_map_iff in Hs.
    destruct Hs as [c [<- _]].
    now apply whole_number_nonneg, slice_value_whole.
Qed.

(** With whole amounts the sum over the slices is exact as well. *)
Lemma category_summary_whole
    (cats : list Category.t) (txs : list Transaction.t) :
  whole_amounts txs ->
  NoDup (map Category.id cats) ->
  whole (map Dashboard.value (category_summary cats txs)).
Proof.
  intros Hw Hnd. split.
  - apply Forall_forall. intros v Hv. apply in_map_iff in Hv.
    destruct Hv as [s [<- Hs]]. unfold category_summary in Hs.
    apply (Permutation_in _ (Array_sort_perm Dashboard.by_value_desc _)) in Hs.
    apply filter_In in Hs. destruct Hs as [Hs _].
    apply in_map_iff in Hs. destruct Hs as [c [<- _]].
    now apply slice_value_whole.
  - rewrite (category_summary_listed_exact cats txs Hw Hnd).
    apply Qle_lt_trans with (exact_total_amount txs); [|apply Hw].
    apply exact_total_filter_le. apply Hw.
Qed.

Lemma category_summary_listed (cats : list Category.t) (txs : list Transaction.t) :
  whole_amounts txs ->
  NoDup (map Category.id cats) ->
  summary_total (category_summary cats txs)
  == total_amount (filter (listed cats) txs).
Proof.
  intros Hw Hnd. unfold summary_total.
  rewrite (total_exact _ (category_summary_whole cats txs Hw Hnd)).
  rewrite (total_amount_filter_exact _ _ Hw).
  now apply category_summary_listed_exact.
Qed.

Lemma NoDup_id_filter (f : Category.t -> bool) (cats : list Category.t) :
  NoDup (map Category.id cats) -> NoDup (map Category.id (filter f cats)).
Proof.
  induction cats as [|c cs IH]; intros H; [constructor|].
  inversion H as [|x l Hnew Hnd]; subst. simpl.
  destruct (f c); [|now apply IH]. simpl. constructor; [|now apply IH].
  intros Hin. apply Hnew. apply in_map_iff in Hin.
  destruct Hin as [c' [E Hc']]. apply filter_In in Hc'.
  apply in_map_iff. exists c'. tauto.
Qed.

Lemma NoDup_id_inj (cats : list Category.t) (c c' : Category.t) :
  NoDup (map Category.id cats) ->
  In c cats -> In c' cats -> Category.id c = Category.id c' -> c = c'.
Proof.
  induction cats as [|x cs IH]; intros H Hc Hc' E; [contradiction|].
  inversion H as [|y l Hnew Hnd]; subst.
  destruct Hc as [->|Hc], Hc' as [->|Hc'].
  - reflexivity.
  - exfalso. apply Hnew. rewrite E. now apply in_map.
  - exfalso. apply Hnew. rewrite <- E. now apply in_map.
  - now apply IH.
Qed.

Lemma EntryType_eqb_eq (a b : EntryType.t) : EntryType.eqb a b = true <-> a = b.
Proof.
  destruct a, b; simpl; split; intros H; try reflexivity; discriminate.
Qed.

(** With distinct ids and well-filed transactions, the categories of one
    type list exactly the transactions of that type. *)
Lemma listed_has_type (ty : EntryType.t) (cats : list Category.t)
    (txs : list Transaction.t) (t : Transaction.t) :
  NoDup (map Category.id cats) -> well_filed cats txs -> In t txs ->
  listed (filter (has_type ty) cats) t = Dashboard.of_type ty t.
Proof.
  intros Hnd Hwf Ht. destruct (Hwf t Ht) as [c [Hc [Hid Hty]]].
  unfold Dashboard.of_type. rewrite <- Hty.
  destruct (EntryType.eqb (Category.type c) ty) eqn:E.
  - unfold listed. apply existsb_exists. exists c. split.
    + apply filter_In. now split.
    + unfold references_category. apply String.eqb_eq. now symmetry.
  - destruct (listed (filter (has_type ty) cats) t) eqn:L; [|reflexivity].
    unfold listed in L. apply existsb_exists in L.
    destruct L as [c' [Hc' R]]. apply filter_In in Hc'.
    destruct Hc' as [Hin' Hty']. unfold references_category in R.
    apply String.eqb_eq in R.
    assert (c' = c) by (apply (NoDup_id_inj cats); congruence).
    subst c'. unfold has_type in Hty'. congruence.
Qed.

Lemma listed_well_filed (cats : list Category.t) (txs : list Transaction.t)
    (t : Transaction.t) :
  well_filed cats txs -> In t txs -> listed cats t = true.
Proof.
  intros Hwf Ht. destruct (Hwf t Ht) as [c [Hc [Hid _]]].
  unfold listed. apply existsb_exists. exists c. split; [exact Hc|].
  unfold references_category. apply String.eqb_eq. now symmetry.
Qed.

Lemma filter_true_on {A : Type} (f : A -> bool) (l : list A) :
  (forall x, In x l -> f x = true) -> filter f l = l.
Proof.
  induction l as [|x l IH]; intros H; [reflexivity|].
  simpl. rewrite (H x (or_introl eq_refl)). f_equal.
  apply IH. intros y Hy. apply H. now right.
Qed.

Lemma category_summary_by_type (ty : EntryType.t) (cats : list Category.t)
    (txs : list Transaction.t) :
  NoDup (map Category.id cats) ->
  whole_amounts txs ->
  well_filed cats txs ->
  summary_total (category_summary (filter (has_type ty) cats) txs)
  == total_amount (filter (Dashboard.of_type ty) txs).
Proof.
  intros Hnd Hw Hwf.
  rewrite category_summary_listed;
    [|exact Hw|now apply NoDup_id_filter].
  rewrite (filter_ext_in _ (Dashboard.of_type ty)); [reflexivity|].
  intros t Ht. now apply (listed_has_type ty cats txs).
Qed.

Lemma filteredTransactions_incl (st : ReportsPage.state) (t : Transaction.t) :
  In t (ReportsPage.filteredTransactions st) ->
  In t (ReportsPage.transactions st).
Proof.
  unfold ReportsPage.filteredTransactions. intros H.
  now apply filter_In in H.
Qed.

(** C3, as stated, fails when an expense is booked on an income category,
    which the tables allow: the expense categories then sum to nothing
    while the expenses sum to 100. *)
Lemma misfiled_expense_breaks_total :
  NoDup (map Category.id [Fixture.food; Fixture.salary]) /\
  ~ summary_total
      (Dashboard.expenseByCategory [Fixture.food; Fixture.salary]
                                   [Fixture.misfiled])
    == total_amount
         (filter (Dashboard.of_type EntryType.expense) [Fixture.misfiled]).
Proof.
  split.
  - repeat constructor; simpl; intuition discriminate.
  - intros H. vm_compute in H. discriminate.
Qed.

(** The other assumptions of the amended claim are needed as well. *)
Remark unlisted_category_breaks_total :
  ~ summary_total (Dashboard.expenseByCategory [Fixture.salary] [Fixture.jan15])
    == total_amount
         (filter (Dashboard.of_type EntryType.expense) [Fixture.jan15]).
Proof. intros H. vm_compute in H. discriminate. Qed.

Remark duplicate_id_breaks_total :
  ~ summary_total
      (Dashboard.expenseByCategory [Fixture.food; Fixture.food] [Fixture.jan15])
    == total_amount
         (filter (Dashboard.of_type EntryType.expense) [Fixture.jan15]).
Proof. intros H. vm_compute in H. discriminate. Qed.

Remark negative_amount_breaks_total :
  let refund :=
    Fixture.entry "t5" (-(20)) EntryType.expense "A"
                  (Fixture.on 2024 2 13) "Refund" in
  ~ summary_total (Dashboard.expenseByCategory [Fixture.food] [refund])
    == total_amount (filter (Dashboard.of_type EntryType.expense) [refund]).
Proof. intros refund H. vm_compute in H. discriminate. Qed.

(** With amounts that are not whole the additions round, and the two sides,
    which add the same amounts in another grouping, differ in the last
    digit: the expenses 0.1 and 1.1 on one category and 0.1 on another add
    up to 1.3000000000000003 over the categories and to 1.3 over the
    list. *)
Remark fractional_amounts_break_total :
  let drinks := Fixture.category "B" "Drinks" EntryType.expense None in
  let txs :=
    [ Fixture.entry "t1" (1 # 10) EntryType.expense "A" (Fixture.on 2024 2 1) "";
      Fixture.entry "t2" (1 # 10) EntryType.expense "B" (Fixture.on 2024 2 2) "";
      Fixture.entry "t3" (11 # 10) EntryType.expense "A" (Fixture.on 2024 2 3) "" ] in
  well_filed [Fixture.food; drinks] txs /\
  total_amount (filter (Dashboard.of_type EntryType.expense) txs)
  < summary_total (Dashboard.expenseByCategory [Fixture.food; drinks] txs).
Proof.
  intros drinks txs. split.
  - intros t [<-|[<-|[<-|[]]]];
      [exists Fixture.food|exists drinks|exists Fixture.food]; simpl; auto.
  - vm_compute. reflexivity.
Qed.

(** C3, amended: when the category ids are distinct, every transaction
    refers to a listed category of its own type, and the amounts are whole
    numbers, none negative, that add up to less than [2 ^ 53] (so that no
    addition rounds), the totals of the dashboard's category summary add up
    to the sum of the amounts of the expense transactions (and likewise for
    the categories of either type), and the totals of the reports page's
    summary add up to the sum of the amounts of the filtered
    transactions. *)
Theorem category_summary_total
    (cats : list Category.t) (txs : list Transaction.t) :
  NoDup (map Category.id cats) ->
  whole_amounts txs ->
  well_filed cats txs ->
  summary_total (Dashboard.expenseByCategory cats txs)
  == total_amount (filter (Dashboard.of_type EntryType.expense) txs) /\
  (forall ty,
     summary_total (category_summary (filter (has_type ty) cats) txs)
     == total_amount (filter (Dashboard.of_type ty) txs)) /\
  (forall st : ReportsPage.state,
     ReportsPage.categories st = cats ->
     ReportsPage.transactions st = txs ->
     summary_total (ReportsPage.categoryData st)
     == total_amount (ReportsPage.filteredTransactions st)).
Proof.
  intros Hnd Hw Hwf. split; [|split].
  - rewrite expenseByCategory_summary. now apply category_summary_by_type.
  - intros ty. now apply category_summary_by_type.
  - intros st Hc Ht. rewrite categoryData_summary, Hc.
    assert (Hf : whole_amounts (ReportsPage.filteredTransactions st)).
    { unfold ReportsPage.filteredTransactions. rewrite Ht.
      now apply whole_amounts_filter. }
    rewrite category_summary_listed; [|exact Hf|exact Hnd].
    rewrite filter_true_on; [reflexivity|].
    intros t Hin. apply (listed_well_filed cats txs); [exact Hwf|].
    rewrite <- Ht. now apply filteredTransactions_incl.
Qed.

Lemma category_summary_total_witness :
  NoDup (map Category.id [Fixture.food; Fixture.salary]) /\
  whole_amounts [Fixture.jan15; Fixture.feb10] /\
  well_filed [Fixture.food; Fixture.salary] [Fixture.jan15; Fixture.feb10] /\
  summary_total
    (Dashboard.expenseByCategory [Fixture.food; Fixture.salary]
                                 [Fixture.jan15; Fixture.feb10])
  == total_amount
       (filter (Dashboard.of_type EntryType.expense)
               [Fixture.jan15; Fixture.feb10]).
Proof.
  assert (H1 : NoDup (map Category.id [Fixture.food; Fixture.salary])).
  { repeat constructor; simpl; intuition discriminate. }
  assert (H2 : whole_amounts [Fixture.jan15; Fixture.feb10]).
  { split; [|reflexivity].
    repeat constructor; [exists 100%Z|exists 50%Z]; split; try lia; reflexivity. }
  assert (H3 : well_filed [Fixture.food; Fixture.salary]
                          [Fixture.jan15; Fixture.feb10]).
  { intros t [<-|[<-|[]]]; exists Fixture.food; simpl; auto. }
  split; [exact H1|]. split; [exact H2|]. split; [exact H3|].
  exact (proj1 (category_summary_total _ _ H1 H2 H3)).
Defined.

(** ** CSV export *)

Lemma digit_char_code (d : Z) :
  (0 <= d <= 9)%Z ->
  is_digit (digit_char d) /\
  (Z.of_nat (nat_of_ascii (digit_char d)) - 48 = d)%Z.
Proof.
  intros H. unfold is_digit, digit_char.
  rewrite nat_ascii_embedding by lia. split; lia.
Qed.

Lemma fixed2_two_decimals (x : Q) : two_decimals_of x (fixed2 x).
Proof.
  unfold two_decimals_of, fixed2.
  set (n := Qfloor (Qabs x * 100 + (1 # 2))).
  assert (R : (0 <= n mod 100 < 100)%Z) by (apply Z.mod_pos_bound; lia).
  destruct (digit_char_code ((n mod 100 / 10) mod 10)) as [D1 C1].
  { pose proof (Z.mod_pos_bound (n mod 100 / 10) 10). lia. }
  destruct (digit_char_code ((n mod 100) mod 10)) as [D2 C2].
  { pose proof (Z.mod_pos_bound (n mod 100) 10). lia. }
  exists n, (digit_char ((n mod 100 / 10) mod 10)),
         (digit_char ((n mod 100) mod 10)).
  split; [apply Qfloor_half_nearest|].
  split; [exact D1|]. split; [exact D2|]. split.
  - rewrite C1, C2.
    rewrite (Z.mod_small (n mod 100 / 10) 10).
    + pose proof (Z.div_mod (n mod 100) 10). lia.
    + split; [apply Z.div_pos; lia|apply Z.div_lt_upper_bound; lia].
  - reflexivity.
Qed.

Lemma toFixed2_fixed (x : Q) :
  Qabs (Js.round64 x) < inject_Z (10 ^ 21) ->
  toFixed2 x = fixed2 (Js.round64 x).
Proof.
  intros H. unfold toFixed2. cbv zeta.
  destruct (Qle_bool _ _) eqn:E; [|reflexivity].
  apply Qle_bool_iff in E. exfalso. exact (Qlt_not_le _ _ H E).
Qed.

Lemma toFixed2_two_decimals (x : Q) :
  Qabs (Js.round64 x) < inject_Z (10 ^ 21) ->
  two_decimals_of (Js.round64 x) (toFixed2 x).
Proof.
  intros H. rewrite (toFixed2_fixed x H). apply fixed2_two_decimals.
Qed.

Lemma category_label_column (categories : list Category.t) (t : Transaction.t) :
  category_column categories t
    (category_label categories (Transaction.category_id t)).
Proof.
  unfold category_column, category_label. split.
  - intros Hnone.
    destruct (find (fun c => Category.id c =? Transaction.category_id t)%string
                   categories) as [c|] eqn:F; [|reflexivity].
    apply find_some in F. destruct F as [Hin E].
    apply String.eqb_eq in E. exfalso. exact (Hnone c Hin E).
  - intros c F Hname. rewrite F.
    destruct (String.eqb_spec (Category.name c) ""); [contradiction|reflexivity].
Qed.

Lemma csv_lines_shape {A : Type} (row : A -> list string) (xs : list A) :
  List.length (csv_lines (map row xs)) = S (List.length xs) /\
  nth_error (csv_lines (map row xs)) 0
    = Some "Date,Type,Category,Description,Amount" /\
  (forall k x, nth_error xs k = Some x ->
     nth_error (csv_lines (map row xs)) (S k)
       = Some (String.concat "," (row x))).
Proof.
  unfold csv_lines. split; [|split].
  - simpl. now rewrite !length_map.
  - reflexivity.
  - intros k x H. simpl. now rewrite !nth_error_map, H.
Qed.

Lemma split_on_nonempty (sep : ascii) (s : string) : split_on sep s <> [].
Proof.
  destruct s as [|c s]; simpl; [discriminate|].
  destruct (Ascii.eqb c sep); [discriminate|].
  destruct (split_on sep s); discriminate.
Qed.

Lemma free_of_app (c : ascii) (a b : string) :
  free_of c (a ++ b) = free_of c a && free_of c b.
Proof.
  induction a as [|x a IH]; simpl; [reflexivity|].
  now rewrite IH, andb_assoc.
Qed.

Lemma plain_app (a b : string) : plain (a ++ b) = plain a && plain b.
Proof.
  unfold plain. rewrite !free_of_app.
  destruct (free_of "," a), (free_of "," b), (free_of "010" a),
           (free_of "010" b); reflexivity.
Qed.

(** Splitting a text that starts with a field free of the separator. *)
Lemma split_on_app (sep : ascii) (field rest : string) :
  free_of sep field = true ->
  split_on sep (field ++ String sep rest) = field :: split_on sep rest.
Proof.
  induction field as [|x field IH]; simpl; intros H.
  - now rewrite Ascii.eqb_refl.
  - apply andb_true_iff in H. destruct H as [Hx Hf].
    apply negb_true_iff in Hx. rewrite Hx, (IH Hf). reflexivity.
Qed.

Lemma split_on_free (sep : ascii) (field : string) :
  free_of sep field = true -> split_on sep field = [field].
Proof.
  induction field as [|x field IH]; simpl; intros H; [reflexivity|].
  apply andb_true_iff in H. destruct H as [Hx Hf].
  apply negb_true_iff in Hx. rewrite Hx, (IH Hf). reflexivity.
Qed.

(** [split] undoes [join] on a non-empty list of fields that are free of
    the separator. *)
Lemma split_on_concat (sep : ascii) (fields : list string) :
  fields <> [] ->
  Forall (fun f => free_of sep f = true) fields ->
  split_on sep (String.concat (String sep "") fields) = fields.
Proof.
  induction fields as [|f fields IH]; intros Hne Hall; [contradiction|].
  inversion Hall as [|? ? Hf Hrest]; subst.
  destruct fields as [|g fields].
  - simpl. now apply split_on_free.
  - change (String.concat (String sep "") (f :: g :: fields))
      with (f ++ String sep (String.concat (String sep "") (g :: fields)))%string.
    rewrite (split_on_app sep f _ Hf). f_equal.
    apply IH; [discriminate|exact Hrest].
Qed.

Lemma free_of_concat (c sep : ascii) (fields : list string) :
  Ascii.eqb sep c = false ->
  Forall (fun f => free_of c f = true) fields ->
  free_of c (String.concat (String sep "") fields) = true.
Proof.
  intros Hsep. induction 1 as [|f fields Hf Hrest IH]; [reflexivity|].
  destruct fields as [|g fields]; [exact Hf|].
  change (String.concat (String sep "") (f :: g :: fields))
    with (f ++ String sep (String.concat (String sep "") (g :: fields)))%string.
  rewrite free_of_app, Hf. cbn [andb free_of]. rewrite Hsep.
  cbn [negb andb]. exact IH.
Qed.

Lemma plain_true (s : string) :
  plain s = true <-> free_of "," s = true /\ free_of "010" s = true.
Proof. unfold plain. apply andb_true_iff. Qed.

Lemma csv_content_reads_back (rows : list (list string)) :
  Forall (fun row => row <> [] /\ Forall (fun f => plain f = true) row) rows ->
  map (split_on ",") (split_on "010" (csv_content rows)) = csv_headers :: rows.
Proof.
  intros Hrows. unfold csv_content, newline.
  assert (Hall : Forall (fun row => row <> [] /\
                                    Forall (fun f => plain f = true) row)
                        (csv_headers :: rows)).
  { constructor; [|exact Hrows]. split; [discriminate|].
    repeat constructor. }
  rewrite split_on_concat.
  - unfold csv_lines.
    change (String.concat "," csv_headers :: map (String.concat ",") rows)
      with (map (String.concat ",") (csv_headers :: rows)).
    rewrite map_map. clear Hrows.
    induction Hall as [|row rest [Hne Hrow] Hrest IH]; [reflexivity|].
    cbn [map]. f_equal; [|exact IH].
    apply split_on_concat; [exact Hne|].
    eapply Forall_impl; [|exact Hrow].
    intros f Hf. now apply plain_true in Hf.
  - discriminate.
  - unfold csv_lines.
    change (String.concat "," csv_headers :: map (String.concat ",") rows)
      with (map (String.concat ",") (csv_headers :: rows)).
    apply Forall_forall. intros line Hline. apply in_map_iff in Hline.
    destruct Hline as [row [<- Hin]].
    rewrite Forall_forall in Hall. destruct (Hall row Hin) as [_ Hrow].
    apply free_of_concat; [reflexivity|].
    eapply Forall_impl; [|exact Hrow].
    intros f Hf. now apply plain_true in Hf.
Qed.

Lemma digit_char_plain (d : Z) :
  (0 <= d <= 9)%Z -> plain (String (digit_char d) "") = true.
Proof.
  intros H.
  assert (C : (d = 0 \/ d = 1 \/ d = 2 \/ d = 3 \/ d = 4 \/ d = 5 \/ d = 6
               \/ d = 7 \/ d = 8 \/ d = 9)%Z) by lia.
  repeat (destruct C as [->|C]; [reflexivity|]). now subst.
Qed.

Lemma two_digits_plain (n : Z) : plain (two_digits n) = true.
Proof.
  unfold two_digits.
  change (String (digit_char ((n / 10) mod 10))
                 (String (digit_char (n mod 10)) ""))
    with (String (digit_char ((n / 10) mod 10)) ""
            ++ String (digit_char (n mod 10)) "")%string.
  rewrite plain_app, !digit_char_plain; [reflexivity| |].
  - pose proof (Z.mod_pos_bound n 10). lia.
  - pose proof (Z.mod_pos_bound (n / 10) 10). lia.
Qed.

Lemma decimal_string_plain (n : Z) : plain (decimal_string n) = true.
Proof.
  unfold decimal_string.
  assert (E : forall d, plain (NilEmpty.string_of_uint d) = true).
  { induction d; simpl; try reflexivity; exact IHd. }
  destruct (N.to_uint (Z.to_N n)) eqn:D; simpl; try reflexivity; apply E.
Qed.

Lemma fixed2_plain (x : Q) : plain (fixed2 x) = true.
Proof.
  unfold fixed2. rewrite !plain_app, decimal_string_plain, two_digits_plain.
  now destruct (Qle_bool 0 x).
Qed.

Lemma plain_cons (c : ascii) (s : string) :
  plain (String c s) = plain (String c "") && plain s.
Proof. apply (plain_app (String c "") s). Qed.

Lemma toString_exponent_plain (x : Q) : plain (toString_exponent x) = true.
Proof.
  unfold toString_exponent. cbv zeta.
  destruct (shortest_digits 17 1 (Qabs x) _) as [s n'].
  set (e := ("e+" ++ decimal_string (n' - 1))%string).
  assert (He : plain e = true)
    by (unfold e; now rewrite plain_app, decimal_string_plain).
  pose proof (decimal_string_plain s) as Hs.
  rewrite plain_app.
  replace (plain (if Qle_bool 0 x then "" else "-")%string) with true
    by (now destruct (Qle_bool 0 x)).
  cbn [andb].
  destruct (decimal_string s) as [|c [|c' r]]; [exact He| |].
  - rewrite plain_cons in Hs |- *. apply andb_true_iff in Hs.
    destruct Hs as [-> _]. exact He.
  - rewrite plain_cons in Hs. apply andb_true_iff in Hs.
    destruct Hs as [Hc Hr].
    rewrite plain_cons, Hc, !plain_app, Hr, He. reflexivity.
Qed.

Lemma toFixed2_plain (x : Q) : plain (toFixed2 x) = true.
Proof.
  unfold toFixed2. cbv zeta.
  destruct (Qle_bool _ _); [apply toString_exponent_plain|apply fixed2_plain].
Qed.

Lemma format_yyyy_MM_dd_plain (d : Date.t) : plain (format_yyyy_MM_dd d) = true.
Proof.
  unfold format_yyyy_MM_dd. now rewrite !plain_app, !two_digits_plain.
Qed.

Lemma category_label_plain (categories : list Category.t) (id : string) :
  (forall c, In c categories -> plain (Category.name c) = true) ->
  plain (category_label categories id) = true.
Proof.
  intros H. unfold category_label.
  destruct (find (fun c => Category.id c =? id)%string categories) as [c|] eqn:F;
    [|reflexivity].
  apply find_some in F. destruct F as [Hin _].
  destruct (Category.name c =? "")%string; [reflexivity|now apply H].
Qed.

(** C6: with an empty transaction list (on the reports page: with every
    transaction filtered out) the export only shows a notification; it
    triggers no download and builds no file content. *)
Theorem export_empty_notifies
    (toLocaleDateString : Date.t -> string) (nowUTC : Date.t)
    (tp : TransactionsPage.state) (rp : ReportsPage.state) :
  TransactionsPage.transactions tp = [] ->
  ReportsPage.filteredTransactions rp = [] ->
  (TransactionsPage.exportTransactions toLocaleDateString nowUTC tp
   = [Toast "No transactions to export"
            "Add some transactions first before exporting." false] /\
   existsb is_download
     (TransactionsPage.exportTransactions toLocaleDateString nowUTC tp)
   = false) /\
  (ReportsPage.exportReport rp
   = [Toast "No data to export"
            "Apply different filters or select a different date range." false] /\
   existsb is_download (ReportsPage.exportReport rp) = false).
Proof.
  intros Ht Hr.
  unfold TransactionsPage.exportTransactions, ReportsPage.exportReport.
  rewrite Ht, Hr. repeat split.
Qed.

Lemma export_empty_notifies_witness :
  let tp := Fixture.transactions_page [] in
  let rp := Fixture.reports_page [Fixture.jan15; Fixture.feb10] "income" in
  TransactionsPage.transactions tp = [] /\
  ReportsPage.transactions rp <> [] /\
  ReportsPage.filteredTransactions rp = [] /\
  existsb is_download
    (TransactionsPage.exportTransactions format_yyyy_MM_dd Fixture.feb2024 tp)
  = false /\
  existsb is_download (ReportsPage.exportReport rp) = false.
Proof.
  intros tp rp.
  assert (Ht : TransactionsPage.transactions tp = []) by reflexivity.
  assert (Hr : ReportsPage.filteredTransactions rp = []) by reflexivity.
  pose proof (export_empty_notifies format_yyyy_MM_dd Fixture.feb2024 tp rp
                                    Ht Hr) as [[_ H1] [_ H2]].
  split; [exact Ht|]. split; [discriminate|]. split; [exact Hr|].
  split; [exact H1|exact H2].
Defined.

(** C8, counterexample: the rows are joined field by field without any
    quoting, and the amount is printed in exponent notation from 1e21 on.
    The reports page's file for a transaction described as
    "Dinner, drinks" and one of amount 1e21 has a first row of six columns,
    and a second row whose amount column reads "1e+21", which is not the
    amount with two decimals. *)
Lemma export_row_not_five_columns :
  let rp := Fixture.reports_page [Fixture.feb10; Fixture.huge] "all" in
  ReportsPage.filteredTransactions rp = [Fixture.feb10; Fixture.huge] /\
  exists filename lines row1 row2,
    ReportsPage.exportReport rp
      = [Download filename (String.concat newline lines)] /\
    List.length lines = 3%nat /\
    nth_error lines 1 = Some row1 /\
    split_on "," row1
      = ["2024-02-10"; "expense"; "Food"; "Dinner"; " drinks"; "50.00"] /\
    nth_error lines 2 = Some row2 /\
    split_on "," row2
      = ["2024-02-12"; "income"; "Salary"; "Buyout"; "1e+21"] /\
    ~ two_decimals_of (Transaction.amount Fixture.huge) "1e+21".
Proof.
  intros rp. split; [vm_compute; reflexivity|].
  exists "financial_report_2024-01-01_to_2024-02-29.csv",
         ["Date,Type,Category,Description,Amount";
          "2024-02-10,expense,Food,Dinner, drinks,50.00";
          "2024-02-12,income,Salary,Buyout,1e+21"],
         "2024-02-10,expense,Food,Dinner, drinks,50.00",
         "2024-02-12,income,Salary,Buyout,1e+21".
  split; [vm_compute; reflexivity|].
  split; [reflexivity|]. split; [reflexivity|].
  split; [vm_compute; reflexivity|]. split; [reflexivity|].
  split; [vm_compute; reflexivity|].
  intros [n [d1 [d2 [Hn [_ [_ [_ E]]]]]]].
  assert (N : n = (10 ^ 23)%Z).
  { apply (nearest_integer_unique
             (Qabs (Transaction.amount Fixture.huge) * 100)); [exact Hn|].
    unfold nearest_integer. split; vm_compute; [discriminate|reflexivity]. }
  subst n. vm_compute in E. discriminate E.
Qed.

(** C8 (amended): for a non-empty transaction list (on the reports page: a
    non-empty filtered list) whose dates as printed, category names and
    descriptions hold no comma and no line feed and whose amounts are below
    1e21 in magnitude, the export downloads a file whose content is the
    header row followed by one row per transaction in list order, the rows
    joined by line feeds; each row is the date, the type, the category name
    ("Uncategorized" when no category matches), the description and the
    amount with two decimals, joined by commas, and splits at the commas
    into these five columns. *)
Theorem export_csv_rows
    (toLocaleDateString : Date.t -> string) (nowUTC : Date.t)
    (tp : TransactionsPage.state) (rp : ReportsPage.state) :
  TransactionsPage.transactions tp <> [] ->
  ReportsPage.filteredTransactions rp <> [] ->
  (forall d, plain (toLocaleDateString d) = true) ->
  (forall c, In c (TransactionsPage.categories tp) ->
             plain (Category.name c) = true) ->
  (forall c, In c (ReportsPage.categories rp) ->
             plain (Category.name c) = true) ->
  (forall t, In t (TransactionsPage.transactions tp) ->
             plain (Transaction.description t) = true /\
             Qabs (Js.round64 (Transaction.amount t)) < inject_Z (10 ^ 21)) ->
  (forall t, In t (ReportsPage.filteredTransactions rp) ->
             plain (Transaction.description t) = true /\
             Qabs (Js.round64 (Transaction.amount t)) < inject_Z (10 ^ 21)) ->
  (exists filename lines,
     TransactionsPage.exportTransactions toLocaleDateString nowUTC tp
       = [Download filename (String.concat newline lines)] /\
     List.length lines = S (List.length (TransactionsPage.transactions tp)) /\
     nth_error lines 0 = Some "Date,Type,Category,Description,Amount" /\
     forall k t,
       nth_error (TransactionsPage.transactions tp) k = Some t ->
       exists category amount line,
         category_column (TransactionsPage.categories tp) t category /\
         two_decimals_of (Js.round64 (Transaction.amount t)) amount /\
         nth_error lines (S k) = Some line /\
         line = (toLocaleDateString (Transaction.date t) ++ ","
                   ++ capitalize (EntryType.to_string (Transaction.type t))
                   ++ "," ++ category ++ ","
                   ++ Transaction.description t ++ "," ++ amount)%string /\
         split_on "," line
         = [toLocaleDateString (Transaction.date t);
            capitalize (EntryType.to_string (Transaction.type t));
            category; Transaction.description t; amount]) /\
  (exists filename lines,
     ReportsPage.exportReport rp
       = [Download filename (String.concat newline lines)] /\
     List.length lines = S (List.length (ReportsPage.filteredTransactions rp)) /\
     nth_error lines 0 = Some "Date,Type,Category,Description,Amount" /\
     forall k t,
       nth_error (ReportsPage.filteredTransactions rp) k = Some t ->
       exists category amount line,
         category_column (ReportsPage.categories rp) t category /\
         two_decimals_of (Js.round64 (Transaction.amount t)) amount /\
         nth_error lines (S k) = Some line /\
         line = (format_yyyy_MM_dd (Transaction.date t) ++ ","
                   ++ EntryType.to_string (Transaction.type t)
                   ++ "," ++ category ++ ","
                   ++ Transaction.description t ++ "," ++ amount)%string /\
         split_on "," line
         = [format_yyyy_MM_dd (Transaction.date t);
            EntryType.to_string (Transaction.type t);
            category; Transaction.description t; amount]).
Proof.
  intros Ht Hr Hdate Hn1 Hn2 Hd1 Hd2. split.
  - unfold TransactionsPage.exportTransactions.
    destruct (TransactionsPage.transactions tp) as [|t0 txs] eqn:E;
      [contradiction|].
    destruct (csv_lines_shape
                (TransactionsPage.csv_row toLocaleDateString
                   (TransactionsPage.categories tp)) (t0 :: txs))
      as [L [H0 Hk]].
    eexists. eexists. split; [reflexivity|].
    split; [exact L|]. split; [exact H0|].
    intros k t Hkt.
    destruct (Hd1 t (nth_error_In _ _ Hkt)) as [Hdesc Hamount].
    exists (category_label (TransactionsPage.categories tp)
                           (Transaction.category_id t)),
           (toFixed2 (Transaction.amount t)).
    eexists.
    split; [apply category_label_column|].
    split; [now apply toFixed2_two_decimals|].
    split; [exact (Hk k t Hkt)|]. split; [reflexivity|].
    apply (split_on_concat ","); [discriminate|].
    unfold TransactionsPage.csv_row. repeat constructor.
    + apply plain_true, Hdate.
    + now destruct (Transaction.type t).
    + now apply plain_true, category_label_plain.
    + now apply plain_true.
    + apply plain_true, toFixed2_plain.
  - unfold ReportsPage.exportReport.
    destruct (ReportsPage.filteredTransactions rp) as [|t0 txs] eqn:E;
      [contradiction|].
    destruct (csv_lines_shape (ReportsPage.csv_row (ReportsPage.categories rp))
                              (t0 :: txs))
      as [L [H0 Hk]].
    eexists. eexists. split; [reflexivity|].
    split; [exact L|]. split; [exact H0|].
    intros k t Hkt.
    destruct (Hd2 t (nth_error_In _ _ Hkt)) as [Hdesc Hamount].
    exists (category_label (ReportsPage.categories rp)
                           (Transaction.category_id t)),
           (toFixed2 (Transaction.amount t)).
    eexists.
    split; [apply category_label_column|].
    split; [now apply toFixed2_two_decimals|].
    split; [exact (Hk k t Hkt)|]. split; [reflexivity|].
    apply (split_on_concat ","); [discriminate|].
    unfold ReportsPage.csv_row. repeat constructor.
    + apply plain_true, format_yyyy_MM_dd_plain.
    + now destruct (Transaction.type t).
    + now apply plain_true, category_label_plain.
    + now apply plain_true.
    + apply plain_true, toFixed2_plain.
Qed.

Lemma export_csv_rows_witness :
  let tp := Fixture.transactions_page [Fixture.jan15; Fixture.misfiled] in
  let rp := Fixture.reports_page [Fixture.jan15; Fixture.feb11] "expense" in
  TransactionsPage.transactions tp <> [] /\
  ReportsPage.filteredTransactions rp <> [] /\
  (forall d, plain (format_yyyy_MM_dd d) = true) /\
  (forall c, In c [Fixture.food; Fixture.salary] ->
             plain (Category.name c) = true) /\
  (forall t, In t [Fixture.jan15; Fixture.misfiled] ->
             plain (Transaction.description t) = true /\
             Qabs (Js.round64 (Transaction.amount t)) < inject_Z (10 ^ 21)) /\
  (forall t, In t [Fixture.jan15; Fixture.feb11] ->
             plain (Transaction.description t) = true /\
             Qabs (Js.round64 (Transaction.amount t)) < inject_Z (10 ^ 21)) /\
  (exists filename lines,
     ReportsPage.exportReport rp
       = [Download filename (String.concat newline lines)] /\
     List.length lines = 3%nat).
Proof.
  intros tp rp.
  assert (Ht : TransactionsPage.transactions tp <> []) by discriminate.
  assert (Hr : ReportsPage.filteredTransactions rp <> [])
    by (vm_compute; discriminate).
  assert (Hc : forall c, In c [Fixture.food; Fixture.salary] ->
                         plain (Category.name c) = true).
  { intros c [<-|[<-|[]]]; reflexivity. }
  assert (Hd1 : forall t, In t [Fixture.jan15; Fixture.misfiled] ->
                  plain (Transaction.description t) = true /\
                  Qabs (Js.round64 (Transaction.amount t))
                  < inject_Z (10 ^ 21)).
  { intros t [<-|[<-|[]]]; split; vm_compute; reflexivity. }
  assert (Hd2 : forall t, In t [Fixture.jan15; Fixture.feb11] ->
                  plain (Transaction.description t) = true /\
                  Qabs (Js.round64 (Transaction.amount t))
                  < inject_Z (10 ^ 21)).
  { intros t [<-|[<-|[]]]; split; vm_compute; reflexivity. }
  split; [exact Ht|]. split; [exact Hr|].
  split; [exact format_yyyy_MM_dd_plain|]. split; [exact Hc|].
  split; [exact Hd1|]. split; [exact Hd2|].
  destruct (export_csv_rows format_yyyy_MM_dd Fixture.feb2024 tp rp Ht Hr
              format_yyyy_MM_dd_plain Hc Hc Hd1 Hd2)
    as [_ [filename [lines [H1 [H2 _]]]]].
  exists filename, lines. split; [exact H1|exact H2].
Defined.

(** The reports page's file for the two fixture expenses. *)
Example exportReport_fixture :
  ReportsPage.exportReport
    (Fixture.reports_page [Fixture.jan15; Fixture.feb10] "all")
  = [Download "financial_report_2024-01-01_to_2024-02-29.csv"
       (String.concat newline
          ["Date,Type,Category,Description,Amount";
           "2024-01-15,expense,Food,Groceries,100.00";
           "2024-02-10,expense,Food,Dinner, drinks,50.00"])].
Proof. vm_compute. reflexivity. Qed.

(** ** Create, update and delete handlers *)

















(** The seeding of the default categories leaves out what it is sent
    back: whatever the inserts answer, ten requests go out and nothing is
    shown. *)
Lemma createDefaultCategories_log
    (user : string) (answers : list (Response unit)) :
  Dashboard.createDefaultCategories (Some user) answers
  = repeat (Request "categories" "insert") 10.
Proof. reflexivity. Qed.



(** A failed update of the fixture page: nothing changes but the toast. *)
Example handleAddTransaction_failure :
  let st := Fixture.transactions_page [Fixture.jan15; Fixture.feb10] in
  TransactionsPage.handleAddTransaction (Some "u1")
    {| TransactionsPage.v_amount := 75;
       TransactionsPage.v_description := "Cinema";
       TransactionsPage.v_date := Fixture.feb2024;
       TransactionsPage.v_category_id := "A";
       TransactionsPage.v_type := EntryType.expense |}
    (Error "permission denied") st
  = (st, [Request "transactions" "insert";
          Toast "Error adding transaction" "permission denied" true]).
Proof. reflexivity. Qed.

(** ** Deleting a category *)

Lemma delete_category_eq (id : string) (d : Schema.db) :
  Schema.delete_category id d =
  Some {| Schema.categories := Schema.without_category id d;
          Schema.transactions :=
            filter (fun t => negb (Schema.references id t))
                   (Schema.transactions d) |}.
Proof. reflexivity. Qed.

(** C4, as stated, fails: deleting the category of the two fixture
    expenses does not leave them in place. *)
Lemma delete_category_drops_transactions :
  let d := {| Schema.categories := [Fixture.food; Fixture.salary];
              Schema.transactions := [Fixture.jan15; Fixture.feb10] |} in
  Schema.delete_category "A" d
  = Some {| Schema.categories := [Fixture.salary];
            Schema.transactions := [] |} /\
  ~ (exists d', Schema.delete_category "A" d = Some d' /\
                In Fixture.jan15 (Schema.transactions d')).
Proof.
  split; [reflexivity|].
  intros [d' [H Hin]]. vm_compute in H. injection H as <-. exact Hin.
Qed.

(** C4, amended: the foreign key of [transactions.category_id] is declared
    ON DELETE CASCADE, so deleting a category always succeeds and deletes
    the transactions that reference it along with it; the other
    transactions and categories are untouched, and a table without
    dangling references stays without them.  On the categories page a
    successful delete removes the category from the local list. *)
Theorem delete_category_cascades (id : string) (d : Schema.db) :
  Schema.transactions_category_id_on_delete = Schema.Cascade /\
  exists d',
    Schema.delete_category id d = Some d' /\
    (forall c, In c (Schema.categories d') <->
               In c (Schema.categories d) /\ Category.id c <> id) /\
    (forall t, In t (Schema.transactions d') <->
               In t (Schema.transactions d) /\
               Transaction.category_id t <> id) /\
    ((forall t, In t (Schema.transactions d) -> Schema.dangling d t = false) ->
     forall t, In t (Schema.transactions d') -> Schema.dangling d' t = false) /\
    (forall user st,
       CategoriesPage.categories
         (fst (CategoriesPage.handleDeleteCategory (Some user) id true
                 (Ok tt) st))
       = filter (fun c => negb (Category.id c =? id)%string)
                (CategoriesPage.categories st)).
Proof.
  split; [reflexivity|].
  eexists. split; [apply delete_category_eq|].
  cbn [Schema.categories Schema.transactions].
  assert (HC : forall c, In c (Schema.without_category id d) <->
                         In c (Schema.categories d) /\ Category.id c <> id).
  { intros c. unfold Schema.without_category. rewrite filter_In.
    rewrite negb_true_iff. 
    destruct (String.eqb_spec (Category.id c) id); intuition congruence. }
  assert (HT : forall t,
             In t (filter (fun t => negb (Schema.references id t))
                          (Schema.transactions d)) <->
             In t (Schema.transactions d) /\ Transaction.category_id t <> id).
  { intros t. rewrite filter_In, negb_true_iff. unfold Schema.references.
    destruct (String.eqb_spec (Transaction.category_id t) id);
      intuition congruence. }
  split; [exact HC|]. split; [exact HT|]. split; [|reflexivity].
  intros Hd t Ht. apply HT in Ht. destruct Ht as [Hin Hne].
  specialize (Hd t Hin). unfold Schema.dangling in *.
  apply negb_false_iff in Hd. apply negb_false_iff.
  apply existsb_exists in Hd. destruct Hd as [c [Hc E]].
  apply existsb_exists. exists c. split; [|exact E].
  cbn [Schema.categories]. apply HC. split; [exact Hc|].
  apply String.eqb_eq in E. congruence.
Qed.


(** * Further properties of the code *)

(** ** Trailing months *)

Lemma MonthRef_index_nth (today : Date.t) (n k : nat) (m : MonthRef.t) :
  nth_error (getLastNMonths today n) k = Some m ->
  (k < n)%nat /\
  MonthRef_index m = (month_index today - Z.of_nat (n - 1 - k))%Z /\
  (1 <= MonthRef.month m <= 12)%Z /\
  MonthRef.name m = short_month_name (MonthRef.month m - 1).
Proof.
  intros H.
  assert (Hk : (k < n)%nat).
  { rewrite <- (getLastNMonths_length today n).
    apply nth_error_Some. congruence. }
  split; [exact Hk|].
  pose proof (getLastNMonths_nth today n k Hk) as E. cbv zeta in E.
  rewrite E in H. injection H as <-.
  set (i := (month_index today - Z.of_nat (n - 1 - k))%Z).
  unfold MonthRef_index. cbn [MonthRef.year MonthRef.month MonthRef.name].
  pose proof (Z.mod_pos_bound i 12 ltac:(lia)).
  pose proof (Z.div_mod i 12 ltac:(lia)).
  repeat split; try lia.
  f_equal. lia.
Qed.

(** X1. The entries of [getLastNMonths] are calendar months (1 to 12) that
    follow one another without a gap, each carrying its own short name,
    and the last entry is the month of the clock. *)
Theorem getLastNMonths_consecutive (today : Date.t) (n : nat) :
  valid_month today ->
  (forall k m, nth_error (getLastNMonths today n) k = Some m ->
     (1 <= MonthRef.month m <= 12)%Z /\
     MonthRef.name m = short_month_name (MonthRef.month m - 1)) /\
  (forall k m m',
     nth_error (getLastNMonths today n) k = Some m ->
     nth_error (getLastNMonths today n) (S k) = Some m' ->
     MonthRef_index m' = (MonthRef_index m + 1)%Z) /\
  (forall m, nth_error (getLastNMonths today n) (n - 1) = Some m ->
     MonthRef.month m = (Date.month0 today + 1)%Z /\
     MonthRef.year m = Date.year today).
Proof.
  intros Hv. split; [|split].
  - intros k m H. now destruct (MonthRef_index_nth today n k m H) as [_ [_ [A B]]].
  - intros k m m' H H'.
    destruct (MonthRef_index_nth today n k m H) as [Hk [A _]].
    destruct (MonthRef_index_nth today n (S k) m' H') as [Hk' [A' _]].
    rewrite A, A'. lia.
  - intros m H.
    destruct (MonthRef_index_nth today n (n - 1) m H) as [Hk [A [B _]]].
    replace (n - 1 - (n - 1))%nat with 0%nat in A by lia.
    unfold MonthRef_index, month_index, valid_month in *.
    cbn [Z.of_nat] in A. lia.
Qed.

Lemma getLastNMonths_consecutive_witness :
  valid_month Fixture.feb2024 /\
  forall m, nth_error (getLastNMonths Fixture.feb2024 6) 5 = Some m ->
    MonthRef.month m = 2%Z /\ MonthRef.year m = 2024%Z.
Proof.
  assert (Hv : valid_month Fixture.feb2024) by (unfold valid_month; simpl; lia).
  split; [exact Hv|].
  exact (proj2 (proj2 (getLastNMonths_consecutive Fixture.feb2024 6 Hv))).
Defined.

(** ** Monthly summary: nothing in the window is lost or counted twice *)

Lemma getLastNMonths_S (today : Date.t) (n : nat) :
  exists m,
    getLastNMonths today (S n) = m :: getLastNMonths today n.
Proof.
  unfold getLastNMonths. rewrite seq_S, map_app, rev_app_distr.
  eexists. reflexivity.
Qed.

Lemma in_month_index (i : Z) (t : Transaction.t) :
  valid_month (Transaction.date t) ->
  in_month i t = (month_index (Transaction.date t) =? i)%Z.
Proof.
  unfold valid_month, in_month, month_index. intros Hv.
  pose proof (Z.mod_pos_bound i 12 ltac:(lia)).
  pose proof (Z.div_mod i 12 ltac:(lia)).
  destruct (Z.eqb_spec (Date.month0 (Transaction.date t)) (i mod 12));
    destruct (Z.eqb_spec (Date.year (Transaction.date t)) (i / 12));
    destruct (Z.eqb_spec (Date.year (Transaction.date t) * 12
                          + Date.month0 (Transaction.date t)) i);
    simpl; try reflexivity; exfalso; lia.
Qed.

Lemma in_window_step (today : Date.t) (n : nat) (t : Transaction.t) :
  valid_month (Transaction.date t) ->
  in_window today (S n) t
  = in_month (month_index today - Z.of_nat n) t || in_window today n t /\
  in_month (month_index today - Z.of_nat n) t && in_window today n t = false.
Proof.
  intros Hv. rewrite (in_month_index _ _ Hv). unfold in_window.
  set (x := month_index (Transaction.date t)).
  set (y := month_index today).
  destruct (Z.eqb_spec x (y - Z.of_nat n));
    destruct (Z.ltb_spec (y - Z.of_nat (S n)) x);
    destruct (Z.ltb_spec (y - Z.of_nat n) x);
    destruct (Z.leb_spec x y);
    simpl; split; try reflexivity; lia.
Qed.

Lemma total_amount_split (p q : Transaction.t -> bool)
    (xs : list Transaction.t) :
  (forall t, In t xs -> p t && q t = false) ->
  exact_total_amount (filter (fun t => p t || q t) xs)
  == exact_total_amount (filter p xs) + exact_total_amount (filter q xs).
Proof.
  induction xs as [|t xs IH]; intros H.
  - unfold exact_total_amount. simpl. ring.
  - pose proof (H t (or_introl eq_refl)) as Ht.
    assert (IH' := IH (fun u Hu => H u (or_intror Hu))).
    simpl. destruct (p t), (q t); simpl in *; try discriminate;
      rewrite ?exact_total_amount_cons, IH'; ring.
Qed.

Lemma bucket_total_month (ty : EntryType.t) (today : Date.t) (n : nat)
    (txs : list Transaction.t) (b : Dashboard.MonthBucket)
    (rest : list Dashboard.MonthBucket) :
  Dashboard.monthlyStats (getLastNMonths today (S n)) txs = b :: rest ->
  bucket_total ty b == month_total ty (month_index today - Z.of_nat n) txs.
Proof.
  intros E.
  destruct (monthlyStats_bucket today (S n) 0 txs ltac:(lia))
    as [b' [Hb [_ [Hi [He _]]]]].
  rewrite E in Hb. injection Hb as <-.
  replace (S n - 1 - 0)%nat with n in Hi, He by lia.
  destruct ty; assumption.
Qed.

Lemma filter_none {A : Type} (l : list A) : filter (fun _ => false) l = [].
Proof. induction l; simpl; auto. Qed.

Lemma monthlyStats_window_total (ty : EntryType.t) (today : Date.t) (n : nat)
    (txs : list Transaction.t) :
  (forall t, In t txs -> valid_month (Transaction.date t)) ->
  whole_amounts txs ->
  exact_total (map (bucket_total ty)
                   (Dashboard.monthlyStats (getLastNMonths today n) txs))
  == exact_total_amount
       (filter (fun t => Dashboard.of_type ty t && in_window today n t) txs).
Proof.
  intros Hv Hw. induction n as [|n IH].
  - simpl. rewrite (filter_ext_in _ (fun _ => false)).
    + now rewrite filter_none.
    + intros t _. unfold in_window.
      destruct (Dashboard.of_type ty t); [|reflexivity]. simpl.
      destruct (Z.ltb_spec (month_index today - Z.of_nat 0)
                           (month_index (Transaction.date t)));
        destruct (Z.leb_spec (month_index (Transaction.date t))
                             (month_index today));
        simpl; try reflexivity; lia.
  - destruct (getLastNMonths_S today n) as [m Em].
    pose proof (bucket_total_month ty today n txs) as Hb.
    rewrite Em in Hb |- *.
    change (Dashboard.monthlyStats (m :: getLastNMonths today n) txs)
      with (Dashboard.monthlyStats [m] txs
              ++ Dashboard.monthlyStats (getLastNMonths today n) txs)%list
      in Hb |- *.
    destruct (Dashboard.monthlyStats [m] txs) as [|b [|b' l]] eqn:Eb;
      try discriminate.
    cbn [app map exact_total]. rewrite (Hb b _ eq_refl), IH.
    unfold month_total. rewrite (total_amount_filter_exact _ _ Hw).
    set (i := (month_index today - Z.of_nat n)%Z).
    rewrite (filter_ext_in
               (fun t => Dashboard.of_type ty t && in_window today (S n) t)
               (fun t => (Dashboard.of_type ty t && in_month i t)
                         || (Dashboard.of_type ty t && in_window today n t))).
    + symmetry. apply total_amount_split. intros t Ht.
      destruct (in_window_step today n t (Hv t Ht)) as [_ D]. fold i in D.
      destruct (Dashboard.of_type ty t); simpl; [exact D|reflexivity].
    + intros t Ht.
      destruct (in_window_step today n t (Hv t Ht)) as [E _]. fold i in E.
      rewrite E. destruct (Dashboard.of_type ty t); reflexivity.
Qed.

(** X2. The monthly buckets conserve whole amounts: when the amounts are
    whole numbers, none negative, that add up to less than [2 ^ 53] (so
    that no addition rounds), the income (resp. expense) totals of the
    buckets of the [n] trailing months add up to the sum of the amounts of
    the income (resp. expense) transactions dated in those months; a
    transaction is counted in one bucket only, and one dated outside the
    window in none. *)
Theorem monthlyStats_conserves_window
    (today : Date.t) (n : nat) (txs : list Transaction.t) :
  (forall t, In t txs -> valid_month (Transaction.date t)) ->
  whole_amounts txs ->
  exact_total (map Dashboard.income
                   (Dashboard.monthlyStats (getLastNMonths today n) txs))
  == exact_total_amount
       (filter (fun t => Dashboard.of_type EntryType.income t
                         && in_window today n t) txs) /\
  exact_total (map Dashboard.expenses
                   (Dashboard.monthlyStats (getLastNMonths today n) txs))
  == exact_total_amount
       (filter (fun t => Dashboard.of_type EntryType.expense t
                         && in_window today n t) txs).
Proof.
  intros Hv Hw. split.
  - exact (monthlyStats_window_total EntryType.income today n txs Hv Hw).
  - exact (monthlyStats_window_total EntryType.expense today n txs Hv Hw).
Qed.

Lemma monthlyStats_conserves_window_witness :
  let txs := [Fixture.jan15; Fixture.feb10; Fixture.feb11] in
  (forall t, In t txs -> valid_month (Transaction.date t)) /\
  whole_amounts txs /\
  exact_total
    (map Dashboard.expenses
         (Dashboard.monthlyStats (getLastNMonths Fixture.feb2024 1) txs))
  == exact_total_amount
       (filter (fun t => Dashboard.of_type EntryType.expense t
                         && in_window Fixture.feb2024 1 t) txs).
Proof.
  intros txs.
  assert (Hv : forall t, In t txs -> valid_month (Transaction.date t)).
  { intros t [<-|[<-|[<-|[]]]]; unfold valid_month; simpl; lia. }
  assert (Hw : whole_amounts txs).
  { split; [|reflexivity].
    repeat constructor; [exists 100%Z|exists 50%Z|exists 30%Z];
      split; try lia; reflexivity. }
  split; [exact Hv|]. split; [exact Hw|].
  exact (proj2 (monthlyStats_conserves_window Fixture.feb2024 1 txs Hv Hw)).
Defined.

(** ** Dashboard: the data-processing effect *)

Lemma exact_total_amount_by_type (xs : list Transaction.t) :
  exact_total_amount (filter (Dashboard.of_type EntryType.income) xs)
  + exact_total_amount (filter (Dashboard.of_type EntryType.expense) xs)
  == exact_total_amount xs.
Proof.
  induction xs as [|t xs IH]; [unfold exact_total_amount; simpl; ring|].
  assert (T : Dashboard.of_type EntryType.income t
              = negb (Dashboard.of_type EntryType.expense t)).
  { unfold Dashboard.of_type. now destruct (Transaction.type t). }
  cbn [filter]. rewrite T.
  destruct (Dashboard.of_type EntryType.expense t); cbn [negb];
    rewrite !exact_total_amount_cons, <- IH; ring.
Qed.

Lemma total_amount_by_type (xs : list Transaction.t) :
  whole_amounts xs ->
  total_amount (filter (Dashboard.of_type EntryType.income) xs)
  + total_amount (filter (Dashboard.of_type EntryType.expense) xs)
  == total_amount xs.
Proof.
  intros H.
  rewrite !(total_amount_filter_exact _ _ H), (total_amount_exact _ H).
  apply exact_total_amount_by_type.
Qed.


(** X4. After a successful add the new row heads the list; when the
    amounts, the new one included, are whole numbers, none negative, that
    add up to less than [2 ^ 53] (so that no addition rounds), the totals
    the effect then computes are the former ones plus the row's amount on
    the side of its type. *)
Theorem handleAddTransaction_then_processData
    (today : Date.t) (user : string) (row : Transaction.t)
    (st : Dashboard.state) :
  let st' :=
    Dashboard.processData today
      (fst (Dashboard.handleAddTransaction (Some user) (Ok row) st)) in
  Dashboard.transactions st' = row :: Dashboard.transactions st /\
  hd_error (Dashboard.recentTransactions st') = Some row /\
  (whole_amounts (row :: Dashboard.transactions st) ->
   Dashboard.totalIncome (Dashboard.stats st')
   == (if Dashboard.of_type EntryType.income row
       then Transaction.amount row else 0)
      + total_amount (filter (Dashboard.of_type EntryType.income)
                             (Dashboard.transactions st)) /\
   Dashboard.totalExpenses (Dashboard.stats st')
   == (if Dashboard.of_type EntryType.expense row
       then Transaction.amount row else 0)
      + total_amount (filter (Dashboard.of_type EntryType.expense)
                             (Dashboard.transactions st))).
Proof.
  cbv zeta. unfold Dashboard.handleAddTransaction, Dashboard.processData.
  cbn [fst Dashboard.transactions Dashboard.categories Dashboard.savingsGoals
       Dashboard.stats Dashboard.totalIncome Dashboard.totalExpenses
       Dashboard.recentTransactions].
  split; [reflexivity|]. split; [reflexivity|]. intros Hw.
  pose proof (whole_amounts_tail _ _ Hw) as Hw'.
  rewrite !reduce_amounts_total.
  rewrite !(total_amount_filter_exact _ _ Hw), !(total_amount_filter_exact _ _ Hw').
  cbn [filter].
  split.
  - destruct (Dashboard.of_type EntryType.income row);
      rewrite ?exact_total_amount_cons; ring.
  - destruct (Dashboard.of_type EntryType.expense row);
      rewrite ?exact_total_amount_cons; ring.
Qed.

(** ** Category summary: which slices it holds *)

(** X5. A slice is in the dashboard's summary exactly when it is the slice of
    an expense category whose transactions sum to a positive amount; the
    summary is never longer than the list of expense categories. *)
Theorem expenseByCategory_members
    (categories : list Category.t) (transactions : list Transaction.t)
    (s : Dashboard.Slice) :
  (In s (Dashboard.expenseByCategory categories transactions) <->
   exists c,
     In c categories /\ Category.type c = EntryType.expense /\
     s = Dashboard.slice_of transactions c /\
     0 < total_amount (filter (references_category c) transactions)) /\
  (List.length (Dashboard.expenseByCategory categories transactions)
   <= List.length (filter (has_type EntryType.expense) categories))%nat.
Proof.
  rewrite expenseByCategory_summary. unfold category_summary.
  pose proof (Array_sort_perm Dashboard.by_value_desc
                (filter Dashboard.positive
                   (map (Dashboard.slice_of transactions)
                      (filter (has_type EntryType.expense) categories))))
    as P.
  split.
  - split.
    + intros H. apply (Permutation_in _ P) in H.
      apply filter_In in H. destruct H as [H Hp].
      apply in_map_iff in H. destruct H as [c [<- Hc]].
      apply filter_In in Hc. destruct Hc as [Hc Ht].
      exists c. split; [exact Hc|].
      split; [now apply EntryType_eqb_eq|]. split; [reflexivity|].
      apply positive_spec in Hp. now rewrite slice_value in Hp.
    + intros [c [Hc [Ht [-> Hp]]]].
      apply (Permutation_in _ (Permutation_sym P)).
      apply filter_In. split.
      * apply in_map. apply filter_In. split; [exact Hc|].
        now apply EntryType_eqb_eq.
      * apply positive_spec. now rewrite slice_value.
  - rewrite (Permutation_length P).
    etransitivity; [apply filter_length_le|]. now rewrite length_map.
Qed.

(** ** Reports page: summary figures *)

(** X6. The summary counts the filtered transactions, and the average is
    always a finite number: the double nearest to the sum divided by the
    count, and 0 for an empty list (no division by zero).  When the
    amounts are whole numbers, none negative, that add up to less than
    [2 ^ 53] (so that no addition rounds), the income and expense totals
    add up to the sum of all amounts. *)
Theorem summary_consistent (st : ReportsPage.state) :
  let s := ReportsPage.summary st in
  let filtered := ReportsPage.filteredTransactions st in
  ReportsPage.transactionCount s = List.length filtered /\
  (whole_amounts filtered ->
   ReportsPage.totalIncome s + ReportsPage.totalExpenses s
   == total_amount filtered) /\
  exists average : Q,
    ReportsPage.averageTransaction s = Js.Fin average /\
    (filtered <> [] ->
     average
     == Js.round64
          (total_amount filtered
           / Js.round64 (inject_Z (Z.of_nat (List.length filtered))))) /\
    (filtered = [] -> average == 0).
Proof.
  cbv zeta. unfold ReportsPage.summary.
  cbn [ReportsPage.transactionCount ReportsPage.totalIncome
       ReportsPage.totalExpenses ReportsPage.averageTransaction].
  split; [reflexivity|].
  split; [intros Hw; rewrite !reduce_amounts_total;
          now apply total_amount_by_type|].
  destruct (ReportsPage.filteredTransactions st) as [|t txs] eqn:E.
  - exists 0. cbn. split; [reflexivity|]. split; [|reflexivity].
    intros H. now contradiction H.
  - set (n := List.length (t :: txs)).
    assert (Hn : ~ inject_Z (Z.of_nat n) == 0).
    { intros H. change 0 with (inject_Z 0) in H.
      apply (proj1 (inject_Z_injective _ _)) in H. unfold n in H.
      cbn [List.length] in H. lia. }
    replace (0 <? n)%nat with true
      by (symmetry; apply Nat.ltb_lt; unfold n; simpl; lia).
    unfold Js.div64. rewrite (Qeq_bool_false_intro _ _ Hn).
    eexists. split; [reflexivity|]. split; [|discriminate].
    intros _.
    assert (H : Js.round64 (reduce_amounts (t :: txs))
                / Js.round64 (inject_Z (Z.of_nat n))
                == total_amount (t :: txs)
                   / Js.round64 (inject_Z (Z.of_nat n)))
      by (now rewrite reduce_amounts_double, reduce_amounts_total).
    rewrite (round64_comp _ _ H). reflexivity.
Qed.

(** ** Reports page: bars of the category breakdown *)

Lemma Js_max_from (xs : list Q) (q : Q) :
  exists m,
    fold_left
      (fun m x =>
         match m with
         | Js.Fin q => if Qle_bool q x then Js.Fin x else Js.Fin q
         | Js.NegInf => Js.Fin x
         | other => other
         end)
      xs (Js.Fin q) = Js.Fin m /\
    (m = q \/ In m xs) /\ q <= m /\ Forall (fun x => x <= m) xs.
Proof.
  revert q. induction xs as [|x xs IH]; intros q.
  - exists q. simpl. repeat split; auto. apply Qle_refl.
  - simpl. destruct (Qle_bool q x) eqn:E.
    + apply Qle_bool_iff in E.
      destruct (IH x) as [m [Hm [Hin [Hle Hall]]]].
      exists m. split; [exact Hm|].
      split; [right; destruct Hin as [->|Hin]; [now left|now right]|].
      split; [now apply Qle_trans with x|]. now constructor.
    + apply Qle_bool_false in E.
      destruct (IH q) as [m [Hm [Hin [Hle Hall]]]].
      exists m. split; [exact Hm|].
      split; [destruct Hin as [->|Hin]; [now left|right; now right]|].
      split; [exact Hle|]. constructor; [|exact Hall].
      apply Qle_trans with q; [now apply Qlt_le_weak|exact Hle].
Qed.

Lemma Js_max_nonempty (x : Q) (xs : list Q) :
  exists m,
    Js.max (x :: xs) = Js.Fin m /\ In m (x :: xs) /\
    Forall (fun y => y <= m) (x :: xs).
Proof.
  unfold Js.max. cbn [fold_left].
  destruct (Js_max_from xs x) as [m [Hm [Hin [Hle Hall]]]].
  exists m. split; [exact Hm|]. split.
  - destruct Hin as [->|Hin]; [now left|now right].
  - now constructor.
Qed.

(** X7. Every bar of the category breakdown has a finite width above 0 and at
    most 100 percent, and the first bar (the largest total) is exactly 100
    percent wide. *)
Theorem barWidths_bounded (st : ReportsPage.state) :
  List.length (ReportsPage.barWidths st)
  = List.length (ReportsPage.categoryData st) /\
  Forall (fun width => exists w, width = Js.Fin w /\ 0 < w /\ w <= 100)
         (ReportsPage.barWidths st) /\
  (forall width, hd_error (ReportsPage.barWidths st) = Some width ->
     exists w, width = Js.Fin w /\ w == 100).
Proof.
  unfold ReportsPage.barWidths.
  destruct (category_summary_positive_sorted
              (ReportsPage.categories st)
              (ReportsPage.filteredTransactions st)) as [Hpos Hsort].
  rewrite <- categoryData_summary in Hpos, Hsort.
  destruct (ReportsPage.categoryData st) as [|c cs] eqn:E.
  - split; [reflexivity|]. split; [constructor|]. intros w H. discriminate.
  - destruct (Js_max_nonempty (Dashboard.value c) (map Dashboard.value cs))
      as [m [Hm [Hin Hall]]].
    change (Dashboard.value c :: map Dashboard.value cs)
      with (map Dashboard.value (c :: cs)) in Hm, Hin, Hall.
    rewrite Hm.
    assert (Hmpos : 0 < m).
    { apply in_map_iff in Hin. destruct Hin as [s [<- Hs]].
      rewrite Forall_forall in Hpos. now apply Hpos. }
    assert (Hmnz : ~ m == 0).
    { intros Z0. rewrite Z0 in Hmpos. exact (Qlt_irrefl 0 Hmpos). }
    assert (W : forall s, In s (c :: cs) ->
                0 < Dashboard.value s / m * 100 /\
                Dashboard.value s / m * 100 <= 100).
    { intros s Hs.
      assert (Hv : 0 < Dashboard.value s)
        by (rewrite Forall_forall in Hpos; now apply Hpos).
      assert (Hle : Dashboard.value s <= m).
      { rewrite Forall_forall in Hall. apply Hall. now apply in_map. }
      assert (Hq : 0 < Dashboard.value s / m).
      { apply Qlt_shift_div_l; [exact Hmpos|]. now rewrite Qmult_0_l. }
      split.
      - setoid_replace 0 with (0 * 100) by ring.
        apply Qmult_lt_compat_r; [reflexivity|exact Hq].
      - setoid_replace 100 with (1 * 100) at 2 by ring.
        apply Qmult_le_compat_r; [|discriminate].
        apply Qle_shift_div_r; [exact Hmpos|]. now rewrite Qmult_1_l. }
    split; [now rewrite length_map|]. split.
    + apply Forall_forall. intros width Hw. apply in_map_iff in Hw.
      destruct Hw as [s [<- Hs]]. cbn [Js.div_by].
      rewrite (Js_div_nonzero _ _ Hmnz). cbn [Js.times].
      eexists. split; [reflexivity|]. now apply W.
    + intros width Hw. cbn [map hd_error] in Hw. injection Hw as <-.
      cbn [Js.div_by]. rewrite (Js_div_nonzero _ _ Hmnz). cbn [Js.times].
      eexists. split; [reflexivity|].
      assert (Hcm : Dashboard.value c == m).
      { apply Qle_antisym.
        - rewrite Forall_forall in Hall. apply Hall. now left.
        - apply in_map_iff in Hin. destruct Hin as [s [<- [<-|Hs]]].
          + apply Qle_refl.
          + inversion Hsort as [|? ? _ Hc]; subst.
            rewrite Forall_forall in Hc. now apply Hc. }
      rewrite Hcm. now field.
Qed.

(** ** Chart colours *)

Lemma Js_rem_bounds (x m : Q) :
  0 <= x -> 0 < m -> 0 <= Js.rem x m /\ Js.rem x m < m.
Proof.
  intros Hx Hm. unfold Js.rem.
  assert (Hmnz : ~ m == 0).
  { intros Z0. rewrite Z0 in Hm. exact (Qlt_irrefl 0 Hm). }
  assert (Hq : 0 <= x / m).
  { apply Qle_shift_div_l; [exact Hm|]. now rewrite Qmult_0_l. }
  apply Qle_bool_iff in Hq. rewrite Hq. apply Qle_bool_iff in Hq.
  pose proof (Qfloor_le (x / m)) as F1.
  pose proof (Qlt_floor (x / m)) as F2.
  rewrite inject_Z_plus in F2.
  set (f := inject_Z (Qfloor (x / m))) in *.
  assert (E : x == m * (x / m)) by (now field).
  split.
  - apply (Qplus_le_l _ _ (m * f)).
    setoid_replace (x - m * f + m * f) with x by ring.
    setoid_replace (0 + m * f) with (m * f) by ring.
    apply Qle_trans with (m * (x / m)); [|rewrite <- E; apply Qle_refl].
    rewrite (Qmult_comm m f), (Qmult_comm m (x / m)).
    apply Qmult_le_compat_r; [exact F1|now apply Qlt_le_weak].
  - apply (Qplus_lt_l _ _ (m * f)).
    setoid_replace (x - m * f + m * f) with x by ring.
    setoid_replace (m + m * f) with ((f + inject_Z 1) * m) by ring.
    apply Qle_lt_trans with (m * (x / m)); [rewrite <- E; apply Qle_refl|].
    rewrite (Qmult_comm m (x / m)).
    apply Qmult_lt_compat_r; [exact Hm|exact F2].
Qed.

Lemma generated_hue_range (i : nat) : (0 <= generated_hue i < 360)%Z.
Proof.
  unfold generated_hue.
  set (x := inject_Z (Z.of_nat i) * (275 # 2)).
  assert (Hx : 0 <= x).
  { unfold x. apply Qmult_le_0_compat; [|discriminate].
    change 0 with (inject_Z 0). rewrite <- Zle_Qle. lia. }
  destruct (Js_rem_bounds x 360 Hx ltac:(reflexivity)) as [L U].
  split.
  - rewrite <- (Qfloor_Z 0). now apply Qfloor_resp_le.
  - rewrite Zlt_Qlt. apply Qle_lt_trans with (Js.rem x 360); [|exact U].
    apply Qfloor_le.
Qed.

Lemma generateColors_small (count : nat) :
  (count <= 5)%nat -> generateColors count = firstn count chart_colors.
Proof.
  intros H. unfold generateColors.
  destruct (Nat.ltb_spec (List.length chart_colors) count) as [L|_];
    [simpl in L; lia|reflexivity].
Qed.

Lemma generateColors_large (count : nat) :
  (5 < count)%nat ->
  generateColors count
  = (chart_colors
       ++ map (fun i =>
                 ("hsl(" ++ decimal_string (generated_hue i) ++ ", 70%, 60%)")%string)
              (seq 0 (count - 5)))%list.
Proof.
  intros H. unfold generateColors.
  destruct (Nat.ltb_spec (List.length chart_colors) count) as [_|L];
    [reflexivity|simpl in L; lia].
Qed.

Lemma firstn_seq_le (k start len : nat) :
  (k <= len)%nat -> firstn k (seq start len) = seq start k.
Proof.
  revert start len. induction k as [|k IH]; intros start len H;
    [reflexivity|].
  destruct len as [|len]; [lia|]. simpl. f_equal. apply IH. lia.
Qed.

(** X8. [generateColors count] holds exactly [count] colours: the palette
    first, then generated colours whose hue lies between 0 and 359; and
    the colour of an index does not depend on how many are asked for. *)
Theorem generateColors_spec (count : nat) :
  List.length (generateColors count) = count /\
  (forall i colour, nth_error (generateColors count) i = Some colour ->
     (i < 5)%nat /\ nth_error chart_colors i = Some colour \/
     (5 <= i)%nat /\
     exists hue : Z,
       (0 <= hue < 360)%Z /\
       colour = ("hsl(" ++ decimal_string hue ++ ", 70%, 60%)")%string) /\
  (forall fewer, (fewer <= count)%nat ->
     firstn fewer (generateColors count) = generateColors fewer).
Proof.
  destruct (Nat.le_gt_cases count 5) as [Hs|Hl].
  - rewrite (generateColors_small count Hs). split; [|split].
    + rewrite length_firstn. simpl. lia.
    + intros i colour H. left.
      assert (Hi : (i < count)%nat).
      { assert (N : nth_error (firstn count chart_colors) i <> None)
          by congruence.
        apply nth_error_Some in N. rewrite length_firstn in N. lia. }
      split; [lia|]. now rewrite nth_error_firstn in H;
        destruct (Nat.ltb_spec i count); [|lia].
    + intros fewer Hf. rewrite (generateColors_small fewer) by lia.
      rewrite firstn_firstn. f_equal. lia.
  - rewrite (generateColors_large count Hl). split; [|split].
    + rewrite length_app, length_map, length_seq. simpl. lia.
    + intros i colour H.
      destruct (Nat.lt_ge_cases i 5) as [Hi|Hi].
      * left. split; [exact Hi|].
        now rewrite nth_error_app1 in H by (simpl; lia).
      * right. split; [exact Hi|].
        rewrite nth_error_app2 in H by (simpl; lia).
        rewrite nth_error_map in H.
        destruct (nth_error (seq 0 (count - 5))
                            (i - List.length chart_colors)) as [j|];
          [|discriminate].
        injection H as <-. exists (generated_hue j).
        split; [apply generated_hue_range|reflexivity].
    + intros fewer Hf.
      destruct (Nat.le_gt_cases fewer 5) as [Fs|Fl].
      * rewrite (generateColors_small fewer Fs).
        rewrite firstn_app.
        replace (fewer - List.length chart_colors)%nat with 0%nat
          by (simpl; lia).
        cbn [firstn]. now rewrite app_nil_r.
      * rewrite (generateColors_large fewer Fl).
        rewrite firstn_app, firstn_all2 by (simpl; lia).
        f_equal. rewrite firstn_map. f_equal.
        apply firstn_seq_le. simpl. lia.
Qed.

(** ** Reports page: daily totals *)

Section SortedBy.

Context {A : Type} (cmp : A -> A -> Q) (R : A -> A -> Prop).
Hypothesis cmp_le : forall x y, Qle_bool (cmp x y) 0 = true -> R x y.
Hypothesis cmp_gt : forall x y, Qle_bool (cmp x y) 0 = false -> R y x.
Hypothesis R_trans : forall x y z, R x y -> R y z -> R x z.

Lemma sort_insert_by (x : A) (l : list A) :
  StronglySorted R l -> StronglySorted R (sort_insert cmp x l).
Proof.
  induction 1 as [|y l Hs IH Hy]; simpl.
  - repeat constructor.
  - destruct (Qle_bool (cmp x y) 0) eqn:E.
    + constructor; [now constructor|].
      constructor; [now apply cmp_le|].
      eapply Forall_impl; [|exact Hy].
      intros z Hz. apply R_trans with y; [now apply cmp_le|exact Hz].
    + constructor; [exact IH|].
      eapply Permutation_Forall; [symmetry; apply sort_insert_perm|].
      constructor; [now apply cmp_gt|exact Hy].
Qed.

Lemma Array_sort_by (l : list A) : StronglySorted R (Array_sort cmp l).
Proof.
  induction l as [|x l IH]; simpl; [constructor|].
  now apply sort_insert_by.
Qed.

End SortedBy.

Section DailyTotals.

Variable dayOf : Transaction.t -> string.
Variable getTime : string -> Z.

Lemma Map_get_None (key : string) (acc : list (string * ReportsPage.Day)) :
  ReportsPage.Map_get key acc = None <-> ~ In key (map fst acc).
Proof.
  induction acc as [|[k v] acc IH]; simpl; [tauto|].
  destruct (String.eqb_spec k key) as [->|N].
  - split; [discriminate|]. intros H. exfalso. apply H. now left.
  - rewrite IH. tauto.
Qed.

Lemma Map_get_In (key : string) (d : ReportsPage.Day) (acc : list (string * ReportsPage.Day)) :
  NoDup (map fst acc) ->
  (ReportsPage.Map_get key acc = Some d <-> In (key, d) acc).
Proof.
  induction acc as [|[k v] acc IH]; simpl; intros Hnd.
  - split; [discriminate|tauto].
  - inversion Hnd as [|? ? Hnew Hnd']; subst.
    destruct (String.eqb_spec k key) as [->|N].
    + split.
      * intros H. injection H as <-. now left.
      * intros [H|H]; [now injection H as <-|].
        exfalso. apply Hnew. apply in_map_iff. exists (key, d). now split.
    + rewrite (IH Hnd'). split; [tauto|].
      intros [H|H]; [injection H as -> _; contradiction|exact H].
Qed.

Lemma Map_get_set (key k : string) (v : ReportsPage.Day) (acc : list (string * ReportsPage.Day)) :
  ReportsPage.Map_get k (ReportsPage.Map_set key v acc)
  = if (key =? k)%string then Some v else ReportsPage.Map_get k acc.
Proof.
  induction acc as [|[k0 v0] acc IH]; simpl.
  - destruct (String.eqb_spec key k); reflexivity.
  - destruct (String.eqb_spec k0 key) as [->|N]; simpl.
    + destruct (String.eqb_spec key k); reflexivity.
    + rewrite IH. destruct (String.eqb_spec k0 k) as [->|N'];
        [|reflexivity].
      destruct (String.eqb_spec key k); [congruence|reflexivity].
Qed.

Lemma Map_set_keys (key : string) (v : ReportsPage.Day) (acc : list (string * ReportsPage.Day)) :
  map fst (ReportsPage.Map_set key v acc)
  = match ReportsPage.Map_get key acc with
    | Some _ => map fst acc
    | None => (map fst acc ++ [key])%list
    end.
Proof.
  induction acc as [|[k0 v0] acc IH]; simpl; [reflexivity|].
  destruct (String.eqb_spec k0 key) as [->|N]; simpl; [reflexivity|].
  rewrite IH. now destruct (ReportsPage.Map_get key acc).
Qed.

Lemma Map_set_tidy (key : string) (v : ReportsPage.Day) (acc : list (string * ReportsPage.Day)) :
  ReportsPage.date v = key -> tidy acc ->
  tidy (ReportsPage.Map_set key v acc).
Proof.
  intros Hv [Hnd Hd]. split.
  - rewrite Map_set_keys.
    destruct (ReportsPage.Map_get key acc) eqn:G; [exact Hnd|].
    apply Map_get_None in G.
    apply NoDup_app; [exact Hnd|repeat constructor; simpl; tauto|].
    intros a Ha [<-|[]]. contradiction.
  - clear Hnd. induction Hd as [|[k0 v0] acc H0 Hacc IH]; simpl.
    + repeat constructor. exact Hv.
    + destruct (String.eqb_spec k0 key) as [->|N];
        constructor; simpl; auto.
Qed.

Lemma addToDay_tidy (acc : list (string * ReportsPage.Day)) (t : Transaction.t) :
  tidy acc -> tidy (ReportsPage.addToDay dayOf acc t).
Proof.
  intros H. unfold ReportsPage.addToDay. apply Map_set_tidy; [|exact H].
  destruct (ReportsPage.Map_get (dayOf t) acc) as [d|] eqn:G.
  - destruct H as [Hnd Hd]. apply (Map_get_In _ _ _ Hnd) in G.
    rewrite Forall_forall in Hd. specialize (Hd _ G). simpl in Hd.
    now destruct (Transaction.type t).
  - now destruct (Transaction.type t).
Qed.

Lemma addToDay_got (ty : EntryType.t) (key : string) (acc : list (string * ReportsPage.Day))
    (t : Transaction.t) :
  got ty key (ReportsPage.addToDay dayOf acc t)
  = if Dashboard.of_type ty t && (dayOf t =? key)%string
    then Js.plus64 (got ty key acc) (Transaction.amount t)
    else got ty key acc.
Proof.
  unfold got, ReportsPage.addToDay. rewrite Map_get_set.
  unfold Dashboard.of_type.
  destruct (String.eqb_spec (dayOf t) key) as [<-|N].
  - destruct (ReportsPage.Map_get (dayOf t) acc) as [d|];
      destruct (Transaction.type t), ty; reflexivity.
  - now rewrite andb_false_r.
Qed.

Lemma addToDay_keys (key : string) (acc : list (string * ReportsPage.Day))
    (t : Transaction.t) :
  In key (map fst (ReportsPage.addToDay dayOf acc t)) <->
  In key (map fst acc) \/ dayOf t = key.
Proof.
  unfold ReportsPage.addToDay. rewrite Map_set_keys.
  destruct (ReportsPage.Map_get (dayOf t) acc) as [d|] eqn:E.
  - split; [tauto|]. intros [H|<-]; [exact H|].
    destruct (in_dec string_dec (dayOf t) (map fst acc)) as [I|N];
      [exact I|].
    apply Map_get_None in N. congruence.
  - rewrite in_app_iff. simpl. tauto.
Qed.

Lemma fold_addToDay (ty : EntryType.t) (key : string)
    (txs : list Transaction.t) :
  tidy (fold_left (ReportsPage.addToDay dayOf) txs []) /\
  got ty key (fold_left (ReportsPage.addToDay dayOf) txs [])
  == day_total dayOf ty key txs /\
  (In key (map fst (fold_left (ReportsPage.addToDay dayOf) txs [])) <->
   exists t, In t txs /\ dayOf t = key).
Proof.
  induction txs as [|t txs IH] using rev_ind.
  - split; [split; constructor|]. split; [reflexivity|].
    split; [intros []|intros [t [[] _]]].
  - rewrite fold_left_app. cbn [fold_left].
    destruct IH as [T [G K]].
    split; [now apply addToDay_tidy|]. split.
    + rewrite addToDay_got. unfold day_total in *.
      rewrite filter_app. cbn [filter].
      destruct (Dashboard.of_type ty t && (dayOf t =? key)%string).
      * unfold total_amount in *. rewrite map_app. cbn [map].
        rewrite total_snoc. now rewrite (plus64_comp _ _ _ G).
      * now rewrite app_nil_r.
    + rewrite addToDay_keys, K. split.
      * intros [[u [Hu E]]|H].
        -- exists u. split; [apply in_or_app; now left|exact E].
        -- exists t. split; [apply in_or_app; right; now left|exact H].
      * intros [u [Hu E]]. apply in_app_or in Hu.
        destruct Hu as [Hu|[<-|[]]]; [left; now exists u|now right].
Qed.

(** X9. The daily totals hold one entry per day on which a filtered
    transaction falls, in the order of time; the entry of a day carries
    the day as its date and the sums of the amounts of that day's income
    and of its other transactions. *)
Theorem dailyData_groups_by_day (st : ReportsPage.state) :
  let days := ReportsPage.dailyData dayOf getTime st in
  let filtered := ReportsPage.filteredTransactions st in
  NoDup (map ReportsPage.date days) /\
  (forall key, In key (map ReportsPage.date days) <->
               exists t, In t filtered /\ dayOf t = key) /\
  (forall d, In d days ->
     ReportsPage.income d
     == day_total dayOf EntryType.income (ReportsPage.date d) filtered /\
     ReportsPage.expenses d
     == day_total dayOf EntryType.expense (ReportsPage.date d) filtered) /\
  StronglySorted
    (fun a b => (getTime (ReportsPage.date a) <= getTime (ReportsPage.date b))%Z)
    days.
Proof.
  cbv zeta. unfold ReportsPage.dailyData.
  set (filtered := ReportsPage.filteredTransactions st).
  set (acc := fold_left (ReportsPage.addToDay dayOf) filtered []).
  assert (T : tidy acc).
  { exact (proj1 (fold_addToDay EntryType.income "" filtered)). }
  assert (D : map ReportsPage.date (map snd acc) = map fst acc).
  { destruct T as [_ Hd]. rewrite map_map.
    apply map_ext_in. intros e He. rewrite Forall_forall in Hd. now apply Hd. }
  pose proof (Array_sort_perm (ReportsPage.by_time getTime) (map snd acc)) as P.
  assert (PD : Permutation
                 (map ReportsPage.date
                    (Array_sort (ReportsPage.by_time getTime) (map snd acc)))
                 (map fst acc)).
  { rewrite <- D. now apply Permutation_map. }
  split; [|split; [|split]].
  - apply (Permutation_NoDup (Permutation_sym PD)). exact (proj1 T).
  - intros key.
    destruct (fold_addToDay EntryType.income key filtered) as [_ [_ K]].
    fold acc in K. split.
    + intros H. apply (Permutation_in _ PD) in H. now apply K in H.
    + intros H. apply (Permutation_in _ (Permutation_sym PD)).
      now apply K.
  - intros d Hd. apply (Permutation_in _ P) in Hd.
    apply in_map_iff in Hd. destruct Hd as [[k d'] [E Hin]].
    simpl in E. subst d'.
    assert (Hk : ReportsPage.date d = k).
    { destruct T as [_ Hf]. rewrite Forall_forall in Hf.
      exact (Hf _ Hin). }
    apply (Map_get_In k d acc (proj1 T)) in Hin.
    destruct (fold_addToDay EntryType.income k filtered) as [_ [Gi _]].
    destruct (fold_addToDay EntryType.expense k filtered) as [_ [Ge _]].
    fold acc in Gi, Ge. unfold got in Gi, Ge. rewrite Hin in Gi, Ge.
    rewrite Hk. split; assumption.
  - apply Array_sort_by.
    + intros x y H. unfold ReportsPage.by_time in H.
      apply Qle_bool_iff in H. change 0 with (inject_Z 0) in H.
      rewrite <- Zle_Qle in H. lia.
    + intros x y H. unfold ReportsPage.by_time in H.
      apply Qle_bool_false in H. change 0 with (inject_Z 0) in H.
      rewrite <- Zlt_Qlt in H. lia.
    + intros x y z. lia.
Qed.

End DailyTotals.

(** ** Transactions page: what a successful call does to the list *)

Lemma update_keeps_ids (values : TransactionsPage.FormValues) (id : string)
    (txs : list Transaction.t) :
  ids (map (fun transaction =>
              if (Transaction.id transaction =? id)%string
              then TransactionsPage.apply_values values transaction
              else transaction) txs)
  = ids txs.
Proof.
  unfold ids. rewrite map_map. apply map_ext. intros t.
  now destruct (Transaction.id t =? id)%string.
Qed.

Lemma NoDup_ids_filter (f : Transaction.t -> bool) (txs : list Transaction.t) :
  NoDup (ids txs) -> NoDup (ids (filter f txs)).
Proof.
  unfold ids. induction txs as [|t txs IH]; intros H; [constructor|].
  inversion H as [|x l Hnew Hnd]; subst. simpl.
  destruct (f t); [|now apply IH]. simpl. constructor; [|now apply IH].
  intros Hin. apply Hnew. apply in_map_iff in Hin.
  destruct Hin as [u [E Hu]]. apply filter_In in Hu.
  apply in_map_iff. exists u. tauto.
Qed.

(** X10. The handlers of the transactions page keep the ids of the list
    distinct (an inserted row bringing a fresh id): an update leaves the
    ids and their order as they are, and a confirmed, successful delete
    removes the row with the given id and no other. *)
Theorem transaction_ids_stay_distinct
    (user : option string) (values : TransactionsPage.FormValues)
    (id : string) (confirmed : bool)
    (response : Response Transaction.t) (deleted : Response unit)
    (st : TransactionsPage.state) :
  NoDup (ids (TransactionsPage.transactions st)) ->
  (forall row, response = Ok row ->
     ~ In (Transaction.id row) (ids (TransactionsPage.transactions st))) ->
  let added :=
    fst (TransactionsPage.handleAddTransaction user values response st) in
  let removed :=
    fst (TransactionsPage.handleDeleteTransaction user id confirmed deleted st) in
  NoDup (ids (TransactionsPage.transactions added)) /\
  NoDup (ids (TransactionsPage.transactions removed)) /\
  (TransactionsPage.isEditMode st = true ->
   TransactionsPage.currentTransaction st <> None ->
   ids (TransactionsPage.transactions added)
   = ids (TransactionsPage.transactions st)) /\
  (user <> None -> confirmed = true -> (exists u, deleted = Ok u) ->
   ~ In id (ids (TransactionsPage.transactions removed)) /\
   forall t, Transaction.id t <> id ->
     (In t (TransactionsPage.transactions removed) <->
      In t (TransactionsPage.transactions st))).
Proof.
  intros Hnd Hfresh. cbv zeta. split; [|split; [|split]].
  - unfold TransactionsPage.handleAddTransaction.
    destruct user as [u|]; [|exact Hnd].
    destruct (TransactionsPage.isEditMode st),
             (TransactionsPage.currentTransaction st) as [cur|],
             response as [row|message];
      cbn; rewrite ?update_keeps_ids; try exact Hnd;
      constructor; try exact Hnd; now apply Hfresh.
  - unfold TransactionsPage.handleDeleteTransaction.
    destruct user as [u|]; [|exact Hnd].
    destruct confirmed, deleted as [row|message]; cbn; try exact Hnd.
    now apply NoDup_ids_filter.
  - intros Hedit Hcur. unfold TransactionsPage.handleAddTransaction.
    destruct user as [u|]; [|reflexivity]. rewrite Hedit.
    destruct (TransactionsPage.currentTransaction st) as [cur|];
      [|contradiction].
    destruct response as [row|message]; cbn; [|reflexivity].
    apply update_keeps_ids.
  - intros Hu Hc [r ->]. subst confirmed.
    unfold TransactionsPage.handleDeleteTransaction.
    destruct user as [u|]; [|contradiction]. cbn. split.
    + unfold ids. rewrite in_map_iff. intros [t [E Ht]].
      apply filter_In in Ht. destruct Ht as [_ Ht].
      apply negb_true_iff in Ht. apply String.eqb_neq in Ht. contradiction.
    + intros t Hne. rewrite filter_In.
      apply String.eqb_neq in Hne. rewrite Hne. simpl. tauto.
Qed.

Lemma transaction_ids_stay_distinct_witness :
  let st := Fixture.transactions_page [Fixture.jan15; Fixture.feb10] in
  NoDup (ids (TransactionsPage.transactions st)) /\
  NoDup (ids (TransactionsPage.transactions
                (fst (TransactionsPage.handleAddTransaction (Some "u1")
                        {| TransactionsPage.v_amount := 75;
                           TransactionsPage.v_description := "Cinema";
                           TransactionsPage.v_date := Fixture.feb2024;
                           TransactionsPage.v_category_id := "A";
                           TransactionsPage.v_type := EntryType.expense |}
                        (Ok Fixture.feb11) st)))).
Proof.
  intros st.
  assert (H : NoDup (ids (TransactionsPage.transactions st))).
  { repeat constructor; simpl; intuition discriminate. }
  split; [exact H|].
  refine (proj1 (transaction_ids_stay_distinct (Some "u1") _ "t1" true
                   (Ok Fixture.feb11) (Ok tt) st H _)).
  intros row E. injection E as <-. simpl. intuition discriminate.
Defined.

(** X11. Editing a listed transaction and submitting the form sends one update
    and no insert; on success the list keeps its length, the row with the
    edited id carries the submitted values, and the dialog is closed with
    the edit mode reset.  The form opens with the row's own values. *)
Theorem edit_then_submit_updates
    (user : string) (t : Transaction.t) (values : TransactionsPage.FormValues)
    (row : Transaction.t) (st : TransactionsPage.state) :
  In t (TransactionsPage.transactions st) ->
  let editing := TransactionsPage.handleEditTransaction t st in
  let result :=
    TransactionsPage.handleAddTransaction (Some user) values (Ok row) editing in
  TransactionsPage.defaultValues editing
  = Some {| TransactionsPage.v_amount := Transaction.amount t;
            TransactionsPage.v_description := Transaction.description t;
            TransactionsPage.v_date := Transaction.date t;
            TransactionsPage.v_category_id := Transaction.category_id t;
            TransactionsPage.v_type := Transaction.type t |} /\
  filter is_request (snd result) = [Request "transactions" "update"] /\
  List.length (TransactionsPage.transactions (fst result))
  = List.length (TransactionsPage.transactions st) /\
  In (TransactionsPage.apply_values values t)
     (TransactionsPage.transactions (fst result)) /\
  TransactionsPage.isAddTransactionOpen (fst result) = false /\
  TransactionsPage.isEditMode (fst result) = false /\
  TransactionsPage.currentTransaction (fst result) = None.
Proof.
  intros Hin. cbv zeta. cbn.
  split; [reflexivity|]. split; [reflexivity|].
  split; [apply length_map|]. split; [|repeat split].
  apply in_map_iff. exists t. split; [|exact Hin].
  now rewrite String.eqb_refl.
Qed.

Lemma edit_then_submit_updates_witness :
  let st := Fixture.transactions_page [Fixture.jan15; Fixture.feb10] in
  let values :=
    {| TransactionsPage.v_amount := 75;
       TransactionsPage.v_description := "Cinema";
       TransactionsPage.v_date := Fixture.feb2024;
       TransactionsPage.v_category_id := "A";
       TransactionsPage.v_type := EntryType.expense |} in
  In Fixture.feb10 (TransactionsPage.transactions st) /\
  In (TransactionsPage.apply_values values Fixture.feb10)
     (TransactionsPage.transactions
        (fst (TransactionsPage.handleAddTransaction (Some "u1") values
                (Ok Fixture.feb11)
                (TransactionsPage.handleEditTransaction Fixture.feb10 st)))).
Proof.
  intros st values.
  assert (H : In Fixture.feb10 (TransactionsPage.transactions st))
    by (simpl; tauto).
  split; [exact H|].
  exact (proj1 (proj2 (proj2 (proj2
           (edit_then_submit_updates "u1" Fixture.feb10 values Fixture.feb11
              st H))))).
Defined.

(** X12. A submit that fails leaves the dialog as it was (open, same mode, same
    current transaction), so the form can be sent again; one that succeeds
    closes it and resets the mode; either way the submitting flag is
    cleared. *)
Theorem submit_outcome_and_dialog
    (user : string) (values : TransactionsPage.FormValues)
    (st : TransactionsPage.state) :
  (forall message,
     let st' :=
       fst (TransactionsPage.handleAddTransaction (Some user) values
              (Error message) st) in
     TransactionsPage.isAddTransactionOpen st'
       = TransactionsPage.isAddTransactionOpen st /\
     TransactionsPage.isEditMode st' = TransactionsPage.isEditMode st /\
     TransactionsPage.currentTransaction st'
       = TransactionsPage.currentTransaction st /\
     TransactionsPage.isSubmitting st' = false) /\
  (forall row,
     let st' :=
       fst (TransactionsPage.handleAddTransaction (Some user) values
              (Ok row) st) in
     TransactionsPage.isAddTransactionOpen st' = false /\
     TransactionsPage.isEditMode st' = false /\
     TransactionsPage.currentTransaction st' = None /\
     TransactionsPage.isSubmitting st' = false).
Proof.
  split; intros x; cbv zeta; unfold TransactionsPage.handleAddTransaction;
    destruct (TransactionsPage.isEditMode st) eqn:E,
             (TransactionsPage.currentTransaction st) eqn:C;
    cbn; rewrite ?E, ?C; repeat split.
Qed.

(** ** Dialogs that are reopened without a reset *)

Lemma map_if_absent {A : Type} (p : A -> bool) (f : A -> A) (l : list A) :
  (forall x, In x l -> p x = false) ->
  map (fun x => if p x then f x else x) l = l.
Proof.
  induction l as [|x l IH]; intros H; [reflexivity|].
  simpl. rewrite (H x (or_introl eq_refl)). f_equal.
  apply IH. intros y Hy. apply H. now right.
Qed.

(** X13. Closing a dialog only clears its open flag.  When the dialog of an
    edited transaction (or of a goal chosen for a contribution) was closed,
    the row deleted, and the dialog is then opened by the button of the
    empty page, which sets the open flag alone, the submit is still an
    update of the deleted row: no insert is sent and the submitted values
    are not added to the list.  The button of the page header resets the
    mode, and the same submit is an insert. *)
Theorem reopened_dialog_keeps_edit_mode
    (user : string) (t : Transaction.t) (values : TransactionsPage.FormValues)
    (row : Transaction.t) (st : TransactionsPage.state)
    (g : SavingsGoal.t) (goalValues : GoalsPage.FormValues)
    (goalRow : SavingsGoal.t) (gs : GoalsPage.state) :
  let closed :=
    TransactionsPage.setIsAddTransactionOpen false
      (TransactionsPage.handleEditTransaction t st) in
  let deleted :=
    fst (TransactionsPage.handleDeleteTransaction (Some user)
           (Transaction.id t) true (Ok tt) closed) in
  let reopened := TransactionsPage.setIsAddTransactionOpen true deleted in
  let submitted :=
    TransactionsPage.handleAddTransaction (Some user) values (Ok row)
      reopened in
  let fresh :=
    TransactionsPage.handleAddTransaction (Some user) values (Ok row)
      (TransactionsPage.clickAddTransaction deleted) in
  let goalDeleted :=
    fst (GoalsPage.handleDeleteGoal (Some user) (SavingsGoal.id g) true (Ok tt)
           (GoalsPage.setIsContributeOpen false
              (GoalsPage.handleContributeToGoal g gs))) in
  let goalSubmitted :=
    GoalsPage.handleAddGoal (Some user) goalValues (Ok goalRow)
      (GoalsPage.setIsAddGoalOpen true goalDeleted) in
  (filter is_request (snd submitted) = [Request "transactions" "update"] /\
   TransactionsPage.transactions (fst submitted)
   = TransactionsPage.transactions deleted) /\
  (filter is_request (snd fresh) = [Request "transactions" "insert"] /\
   TransactionsPage.transactions (fst fresh)
   = row :: TransactionsPage.transactions deleted) /\
  (filter is_request (snd goalSubmitted) = [Request "savings_goals" "update"] /\
   GoalsPage.savingsGoals (fst goalSubmitted)
   = GoalsPage.savingsGoals goalDeleted).
Proof.
  cbv zeta. cbn. repeat split.
  - apply map_if_absent. intros x Hx. apply filter_In in Hx.
    destruct Hx as [_ Hx]. now apply negb_true_iff in Hx.
  - apply map_if_absent. intros x Hx. apply filter_In in Hx.
    destruct Hx as [_ Hx]. now apply negb_true_iff in Hx.
Qed.

(** ** Budget page: thresholds, and setting a budget *)

Lemma Qfloor_ge (k : Z) (y : Q) : (k <= Qfloor y)%Z <-> inject_Z k <= y.
Proof.
  split; intros H.
  - apply Qle_trans with (inject_Z (Qfloor y)); [|apply Qfloor_le].
    now rewrite <- Zle_Qle.
  - rewrite <- (Qfloor_Z k). now apply Qfloor_resp_le.
Qed.

Lemma round64_100 : Js.round64 100 == 100.
Proof. apply (round64_Z 100). reflexivity. Qed.

(** The computed percentage keeps every bound that is a double itself. *)
Lemma percent_lower (a b d : Q) :
  0 < b -> Js.round64 d == d -> Js.round64 (d * 100) == d * 100 ->
  d * Js.round64 b <= Js.round64 a -> d * 100 <= percent a b.
Proof.
  intros Hb Hd Hd100 H. unfold percent.
  pose proof (round64_pos b Hb) as Pb. pose proof round64_100 as C.
  set (ra := Js.round64 a) in *. set (rb := Js.round64 b) in *.
  assert (Q1 : d <= ra / rb) by (now apply Qle_shift_div_l).
  assert (R1 : d <= Js.round64 (ra / rb)).
  { apply Qle_trans with (Js.round64 d); [rewrite Hd; apply Qle_refl|].
    now apply round64_le. }
  apply Qle_trans with (Js.round64 (d * 100));
    [rewrite Hd100; apply Qle_refl|].
  apply round64_le. rewrite C.
  apply Qmult_le_compat_r; [exact R1|discriminate].
Qed.

Lemma percent_upper (a b d : Q) :
  0 < b -> Js.round64 d == d -> Js.round64 (d * 100) == d * 100 ->
  Js.round64 a <= d * Js.round64 b -> percent a b <= d * 100.
Proof.
  intros Hb Hd Hd100 H. unfold percent.
  pose proof (round64_pos b Hb) as Pb. pose proof round64_100 as C.
  set (ra := Js.round64 a) in *. set (rb := Js.round64 b) in *.
  assert (Q1 : ra / rb <= d) by (now apply Qle_shift_div_r).
  assert (R1 : Js.round64 (ra / rb) <= d).
  { apply Qle_trans with (Js.round64 d); [|rewrite Hd; apply Qle_refl].
    now apply round64_le. }
  apply Qle_trans with (Js.round64 (d * 100));
    [|rewrite Hd100; apply Qle_refl].
  apply round64_le. rewrite C.
  apply Qmult_le_compat_r; [exact R1|discriminate].
Qed.

Lemma percent_le (a a' b : Q) :
  0 < b -> a <= a' -> percent a b <= percent a' b.
Proof.
  intros Hb H. unfold percent.
  pose proof (round64_pos b Hb) as Pb.
  apply round64_le. apply Qmult_le_compat_r.
  - apply round64_le. apply Qmult_le_compat_r.
    + now apply round64_le.
    + apply Qlt_le_weak. now apply Qinv_lt_0_compat.
  - apply round64_nonneg. discriminate.
Qed.

Lemma Qfloor_lt (k : Z) (y : Q) : y < inject_Z k -> (Qfloor y < k)%Z.
Proof.
  intros H. destruct (Z_lt_le_dec (Qfloor y) k) as [L|L]; [exact L|].
  apply Qfloor_ge in L. exfalso. exact (Qlt_not_le _ _ H L).
Qed.

(** X14. With a positive budget, read as a double, the status is "danger"
    whenever at least 90 percent of it is spent, in particular whenever
    the category is over its budget; it is "warning" from 75 to 89 percent
    and "normal" up to 74 percent.  Between 89 and 90 percent (and between
    74 and 75) the rounding of the percentage decides. *)
Theorem budget_tier_thresholds
    (transactions : list Transaction.t) (category : Category.t) (b : Q) :
  Category.budget category = Some b -> 0 < b ->
  exists st,
    BudgetPage.getBudgetStatus transactions category = Some st /\
    ((9 # 10) * Js.round64 b <= BudgetPage.spent st ->
     BudgetPage.status st = "danger") /\
    ((3 # 4) * Js.round64 b <= BudgetPage.spent st ->
     BudgetPage.spent st <= (89 # 100) * Js.round64 b ->
     BudgetPage.status st = "warning") /\
    (BudgetPage.spent st <= (74 # 100) * Js.round64 b ->
     BudgetPage.status st = "normal") /\
    (b <= BudgetPage.spent st -> BudgetPage.status st = "danger") /\
    (BudgetPage.remaining st < 0 -> BudgetPage.status st = "danger").
Proof.
  intros Hb Hpos.
  assert (Hnz : ~ b == 0).
  { intros Z0. rewrite Z0 in Hpos. exact (Qlt_irrefl 0 Hpos). }
  pose proof (getBudgetStatus_some transactions category b Hb Hnz) as E.
  cbv zeta in E.
  eexists. split; [exact E|].
  cbn [BudgetPage.spent BudgetPage.status BudgetPage.remaining].
  pose proof (reduce_amounts_double
                (filter (references_category category) transactions)) as Hs.
  set (spent := reduce_amounts
                  (filter (references_category category) transactions)) in *.
  pose proof (round64_pos b Hpos) as Pb.
  set (rb := Js.round64 b) in *.
  set (p := Qfloor (percent spent b + (1 # 2))) in *.
  assert (T90 : (9 # 10) * rb <= spent -> (90 <= p)%Z).
  { intros H. unfold p. apply Qfloor_ge.
    assert (L : (115 # 128) * 100 <= percent spent b).
    { apply percent_lower; [exact Hpos|reflexivity|reflexivity|].
      fold rb. rewrite Hs. lra. }
    change (inject_Z 90) with 90. lra. }
  assert (T75 : (3 # 4) * rb <= spent -> (75 <= p)%Z).
  { intros H. unfold p. apply Qfloor_ge.
    assert (L : (3 # 4) * 100 <= percent spent b).
    { apply percent_lower; [exact Hpos|reflexivity|reflexivity|].
      fold rb. rewrite Hs. lra. }
    change (inject_Z 75) with 75. lra. }
  assert (U90 : spent <= (89 # 100) * rb -> (p < 90)%Z).
  { intros H. unfold p. apply Qfloor_lt.
    assert (L : percent spent b <= (57 # 64) * 100).
    { apply percent_upper; [exact Hpos|reflexivity|reflexivity|].
      fold rb. rewrite Hs. lra. }
    change (inject_Z 90) with 90. lra. }
  assert (U75 : spent <= (74 # 100) * rb -> (p < 75)%Z).
  { intros H. unfold p. apply Qfloor_lt.
    assert (L : percent spent b <= (95 # 128) * 100).
    { apply percent_upper; [exact Hpos|reflexivity|reflexivity|].
      fold rb. rewrite Hs. lra. }
    change (inject_Z 75) with 75. lra. }
  assert (Over : b <= spent -> (9 # 10) * rb <= spent).
  { intros H. apply (round64_le b spent) in H. fold rb in H.
    rewrite Hs in H. lra. }
  change 90 with (inject_Z 90). change 75 with (inject_Z 75).
  assert (D : (90 <= p)%Z ->
              (if Qle_bool (inject_Z 90) (inject_Z p) then "danger"
               else if Qle_bool (inject_Z 75) (inject_Z p) then "warning"
               else "normal") = "danger").
  { intros H. apply Qle_bool_inject in H. now rewrite H. }
  split; [intros H; now apply D, T90|]. split; [|split; [|split]].
  - intros L U. apply T75 in L. apply U90 in U.
    apply Qle_bool_inject in L. rewrite L.
    destruct (Qle_bool (inject_Z 90) (inject_Z p)) eqn:E90; [|reflexivity].
    apply Qle_bool_inject in E90. lia.
  - intros U. apply U75 in U.
    destruct (Qle_bool (inject_Z 90) (inject_Z p)) eqn:E90;
      [apply Qle_bool_inject in E90; lia|].
    destruct (Qle_bool (inject_Z 75) (inject_Z p)) eqn:E75;
      [apply Qle_bool_inject in E75; lia|reflexivity].
  - intros H. now apply D, T90, Over.
  - intros H. apply D, T90, Over. lra.
Qed.

Lemma budget_tier_thresholds_witness :
  let txs := [Fixture.jan15; Fixture.feb10; Fixture.feb11] in
  Category.budget Fixture.food = Some 200 /\ 0 < 200 /\
  exists st,
    BudgetPage.getBudgetStatus txs Fixture.food = Some st /\
    ((9 # 10) * Js.round64 200 <= BudgetPage.spent st ->
     BudgetPage.status st = "danger").
Proof.
  intros txs.
  assert (H1 : Category.budget Fixture.food = Some 200) by reflexivity.
  assert (H2 : 0 < 200) by reflexivity.
  split; [exact H1|]. split; [exact H2|].
  destruct (budget_tier_thresholds txs Fixture.food 200 H1 H2)
    as [st [A [B _]]].
  exists st. split; [exact A|exact B].
Defined.



(** ** Goals page: contributions *)

Lemma goal_percentage_value (goal : SavingsGoal.t) :
  ~ SavingsGoal.target_amount goal == 0 ->
  GoalCard.percentage goal
  = Js.Fin (inject_Z
              (Z.min 100
                 (Qfloor (percent (SavingsGoal.current_amount goal)
                                  (SavingsGoal.target_amount goal)
                          + (1 # 2))))).
Proof.
  intros H. unfold GoalCard.percentage. now rewrite (percentage_capped _ _ H).
Qed.


(** X17. For a goal with a positive target, adding to the saved amount never
    lowers the percentage shown, which is at most 100; the card shows 100
    percent whenever the target is reached, and less than 100 while at
    most 99 percent of the target, both read as doubles, is saved. *)
Theorem goal_progress_monotone (goal : SavingsGoal.t) (amount : Q) :
  0 < SavingsGoal.target_amount goal -> 0 <= amount ->
  let raised :=
    GoalsPage.with_current_amount
      (SavingsGoal.current_amount goal + amount) goal in
  exists p p' : Z,
    GoalCard.percentage goal = Js.Fin (inject_Z p) /\
    GoalCard.percentage raised = Js.Fin (inject_Z p') /\
    (p <= p' <= 100)%Z /\
    (SavingsGoal.target_amount goal <= SavingsGoal.current_amount goal ->
     p = 100%Z) /\
    (Js.round64 (SavingsGoal.current_amount goal)
     <= (99 # 100) * Js.round64 (SavingsGoal.target_amount goal) ->
     (p < 100)%Z).
Proof.
  intros Ht Ha. cbv zeta.
  assert (Hnz : ~ SavingsGoal.target_amount goal == 0).
  { intros Z0. rewrite Z0 in Ht. exact (Qlt_irrefl 0 Ht). }
  set (t := SavingsGoal.target_amount goal) in *.
  set (c := SavingsGoal.current_amount goal) in *.
  exists (Z.min 100 (Qfloor (percent c t + (1 # 2)))),
         (Z.min 100 (Qfloor (percent (c + amount) t + (1 # 2)))).
  split; [now apply goal_percentage_value|].
  split; [now apply (goal_percentage_value
                       (GoalsPage.with_current_amount (c + amount) goal))|].
  assert (M : (Qfloor (percent c t + (1 # 2))
               <= Qfloor (percent (c + amount) t + (1 # 2)))%Z).
  { apply Qfloor_resp_le. apply Qplus_le_l. apply percent_le; [exact Ht|].
    lra. }
  pose proof (round64_pos t Ht) as Pt.
  split; [lia|]. split.
  - intros H.
    assert (L : 1 * 100 <= percent c t).
    { apply percent_lower; [exact Ht|reflexivity|reflexivity|].
      apply (round64_le t c) in H. lra. }
    assert (G : (100 <= Qfloor (percent c t + (1 # 2)))%Z).
    { apply Qfloor_ge. change (inject_Z 100) with 100. lra. }
    lia.
  - intros H.
    assert (L : percent c t <= (127 # 128) * 100).
    { apply percent_upper; [exact Ht|reflexivity|reflexivity|]. lra. }
    assert (G : (Qfloor (percent c t + (1 # 2)) < 100)%Z).
    { apply Qfloor_lt. change (inject_Z 100) with 100. lra. }
    lia.
Qed.

Lemma goal_progress_monotone_witness :
  let goal := Fixture.goal 1000 400 in
  0 < SavingsGoal.target_amount goal /\ 0 <= 250 /\
  exists p p' : Z,
    GoalCard.percentage goal = Js.Fin (inject_Z p) /\
    GoalCard.percentage
      (GoalsPage.with_current_amount
         (SavingsGoal.current_amount goal + 250) goal)
    = Js.Fin (inject_Z p') /\
    (p <= p' <= 100)%Z.
Proof.
  intros goal.
  assert (H1 : 0 < SavingsGoal.target_amount goal) by reflexivity.
  assert (H2 : 0 <= 250) by discriminate.
  split; [exact H1|]. split; [exact H2|].
  destruct (goal_progress_monotone goal 250 H1 H2) as [p [p' [A [B [C _]]]]].
  exists p, p'. repeat split; try assumption; apply C.
Defined.

(** ** Investments page: return figures *)


(** ** Transaction form: the category select *)

(** X19. After the effect the select offers exactly the categories of the
    form's type, and the chosen category is either cleared or kept
    unchanged and among the offered ones; running the effect again changes
    nothing. *)
Theorem filterByType_keeps_selection_offered
    (categories : list Category.t) (transactionType : EntryType.t)
    (st : TransactionForm.state) :
  let st' := TransactionForm.filterByType categories transactionType st in
  (forall c, In c (TransactionForm.filteredCategories st') <->
             In c categories /\ Category.type c = transactionType) /\
  (TransactionForm.category_id st' = "" \/
   TransactionForm.category_id st' = TransactionForm.category_id st /\
   exists c, In c (TransactionForm.filteredCategories st') /\
             Category.id c = TransactionForm.category_id st') /\
  TransactionForm.filterByType categories transactionType st' = st'.
Proof.
  cbv zeta. unfold TransactionForm.filterByType.
  cbn [TransactionForm.filteredCategories TransactionForm.category_id
       TransactionForm.isAddCategoryOpen TransactionForm.isCategorySubmitting].
  split; [|split].
  - intros c. rewrite filter_In. now rewrite EntryType_eqb_eq.
  - destruct (String.eqb_spec (TransactionForm.category_id st) "") as [E|N];
      [now left|].
    destruct (find (fun cat => Category.id cat =? TransactionForm.category_id st)%string
                   categories) as [c|] eqn:F; [|now left].
    destruct (EntryType.eqb (Category.type c) transactionType) eqn:T;
      [|now left].
    right. split; [reflexivity|]. apply find_some in F.
    destruct F as [Hin Hid]. apply String.eqb_eq in Hid.
    exists c. split; [|exact Hid]. apply filter_In. now split.
  - f_equal.
    destruct (String.eqb_spec (TransactionForm.category_id st) "") as [E|N].
    + now rewrite E.
    + destruct (find (fun cat => Category.id cat =? TransactionForm.category_id st)%string
                     categories) as [c|] eqn:F; [|reflexivity].
      destruct (EntryType.eqb (Category.type c) transactionType) eqn:T;
        [|reflexivity].
      apply String.eqb_neq in N. now rewrite N, F, T.
Qed.

(** X20. A category created inline is appended to the select and chosen, but
    the list handed down by the page does not learn of it: when the effect
    runs again over that list, the new category is no longer offered and
    the choice is cleared. *)
Theorem inline_category_lost_by_effect
    (user : string) (row : Category.t) (categories : list Category.t)
    (transactionType : EntryType.t) (st : TransactionForm.state) :
  ~ In (Category.id row) (map Category.id categories) ->
  let created :=
    fst (TransactionForm.handleAddCategory (Some user) (Ok (Some row)) st) in
  let again :=
    TransactionForm.filterByType categories transactionType created in
  (In row (TransactionForm.filteredCategories created) /\
   TransactionForm.category_id created = Category.id row) /\
  (~ In row (TransactionForm.filteredCategories again) /\
   TransactionForm.category_id again = "").
Proof.
  intros Hnew. cbv zeta. cbn. split.
  - split; [|reflexivity]. apply in_or_app. right. now left.
  - split.
    + intros H. apply filter_In in H. destruct H as [H _].
      apply Hnew. now apply in_map.
    + destruct (String.eqb_spec (Category.id row) "") as [E|N]; [exact E|].
      destruct (find (fun cat => Category.id cat =? Category.id row)%string
                     categories) as [c|] eqn:F; [|reflexivity].
      exfalso. apply find_some in F. destruct F as [Hin Hid].
      apply String.eqb_eq in Hid. apply Hnew. rewrite <- Hid.
      now apply in_map.
Qed.

Lemma inline_category_lost_by_effect_witness :
  let st := {| TransactionForm.filteredCategories := [Fixture.food];
               TransactionForm.isAddCategoryOpen := true;
               TransactionForm.isCategorySubmitting := false;
               TransactionForm.category_id := "" |} in
  let row := Fixture.category "N" "Pets" EntryType.expense None in
  ~ In (Category.id row) (map Category.id [Fixture.food; Fixture.salary]) /\
  TransactionForm.category_id
    (TransactionForm.filterByType [Fixture.food; Fixture.salary]
       EntryType.expense
       (fst (TransactionForm.handleAddCategory (Some "u1") (Ok (Some row)) st)))
  = "".
Proof.
  intros st row.
  assert (H : ~ In (Category.id row)
                   (map Category.id [Fixture.food; Fixture.salary])).
  { simpl. intuition discriminate. }
  split; [exact H|].
  exact (proj2 (proj2 (inline_category_lost_by_effect "u1" row
                         [Fixture.food; Fixture.salary] EntryType.expense
                         st H))).
Defined.

(** ** Sign-in form *)

(** X21. The form sets the session and goes to the dashboard only together, and
    only when every call it made succeeded (for a registration: when the
    sign-up brought a session and the profile row was inserted).  Any
    failed call ends in one error notification, with a fallback text for an
    empty message, and neither session nor navigation; a sign-up that
    brings no session ends without any notification. *)
Theorem onSubmit_outcomes
    (mode : AuthForm.AuthMode) (signIn : Response AuthForm.Session)
    (signUp : Response (option AuthForm.Session))
    (insertProfile : Response unit) :
  let steps := AuthForm.onSubmit mode signIn signUp insertProfile in
  let succeeded (s : AuthForm.Session) :=
    match mode with
    | AuthForm.login => signIn = Ok s
    | AuthForm.register =>
        signUp = Ok (Some s) /\ exists u, insertProfile = Ok u
    end in
  (existsb AuthForm.is_navigate steps = existsb AuthForm.is_set_session steps) /\
  (forall s, In (AuthForm.SetSession s) steps <-> succeeded s) /\
  (forall path, In (AuthForm.Navigate path) steps ->
     path = "/dashboard" /\ existsb AuthForm.is_failure steps = false) /\
  (existsb AuthForm.is_failure steps = true ->
   existsb AuthForm.is_set_session steps = false /\
   List.length (filter AuthForm.is_failure steps) = 1%nat) /\
  (mode = AuthForm.register -> signUp = Ok None ->
   steps = [AuthForm.Call "signUp"]).
Proof.
  cbv zeta. unfold AuthForm.onSubmit.
  split; [|split; [|split; [|split]]].
  - destruct mode, signIn as [s1|m1], signUp as [[s2|]|m2],
             insertProfile as [[]|m3]; reflexivity.
  - intros s.
    destruct mode, signIn as [s1|m1], signUp as [[s2|]|m2],
             insertProfile as [[]|m3]; cbn; split; intros H;
      repeat match goal with
             | H : _ \/ _ |- _ => destruct H
             | H : _ /\ _ |- _ => destruct H
             | H : exists _, _ |- _ => destruct H
             | H : False |- _ => contradiction
             end;
      try discriminate;
      try match goal with
          | H : AuthForm.SetSession _ = AuthForm.SetSession _ |- _ =>
              injection H as <-
          | H : Ok _ = Ok _ |- _ => injection H as <-
          end;
      try (split; [reflexivity|eexists; reflexivity]);
      try reflexivity;
      try match goal with
          | H : Ok (Some _) = Ok (Some _) |- _ => inversion H; subst
          end;
      tauto.
  - intros path H.
    destruct mode, signIn as [s1|m1], signUp as [[s2|]|m2],
             insertProfile as [[]|m3]; cbn in *;
      repeat match goal with
             | H : _ \/ _ |- _ => destruct H
             | H : False |- _ => contradiction
             end;
      try discriminate;
      match goal with
      | H : AuthForm.Navigate _ = AuthForm.Navigate _ |- _ =>
          injection H as <-
      end; split; reflexivity.
  - destruct mode, signIn as [s1|m1], signUp as [[s2|]|m2],
             insertProfile as [[]|m3]; cbn; intros H;
      try discriminate H; split; reflexivity.
  - intros -> ->. reflexivity.
Qed.

(** ** CSV export: reading the file back *)

(** X22. When no category name and no description holds a comma or a line
    feed, the exported file reads back: split at the line feeds and then at
    the commas it gives the header and, for each transaction in order, its
    five fields.  (The transactions page needs the same of the dates its
    locale prints.) *)
Theorem export_reads_back
    (toLocaleDateString : Date.t -> string) (nowUTC : Date.t)
    (tp : TransactionsPage.state) (rp : ReportsPage.state) :
  (forall d, plain (toLocaleDateString d) = true) ->
  (forall c, In c (TransactionsPage.categories tp) ->
             plain (Category.name c) = true) ->
  (forall t, In t (TransactionsPage.transactions tp) ->
             plain (Transaction.description t) = true) ->
  (forall c, In c (ReportsPage.categories rp) ->
             plain (Category.name c) = true) ->
  (forall t, In t (ReportsPage.filteredTransactions rp) ->
             plain (Transaction.description t) = true) ->
  (forall filename content,
     TransactionsPage.exportTransactions toLocaleDateString nowUTC tp
     = [Download filename content] ->
     map (split_on ",") (split_on "010" content)
     = csv_headers
         :: map (TransactionsPage.csv_row toLocaleDateString
                   (TransactionsPage.categories tp))
                (TransactionsPage.transactions tp)) /\
  (forall filename content,
     ReportsPage.exportReport rp = [Download filename content] ->
     map (split_on ",") (split_on "010" content)
     = csv_headers
         :: map (ReportsPage.csv_row (ReportsPage.categories rp))
                (ReportsPage.filteredTransactions rp)).
Proof.
  intros Hdate Hn1 Hd1 Hn2 Hd2. split.
  - intros filename content E.
    unfold TransactionsPage.exportTransactions in E.
    destruct (TransactionsPage.transactions tp) as [|t0 txs] eqn:T;
      [discriminate|].
    injection E as _ <-. apply csv_content_reads_back.
    apply Forall_forall. intros row Hrow. apply in_map_iff in Hrow.
    destruct Hrow as [t [<- Ht]]. split; [discriminate|].
    unfold TransactionsPage.csv_row. repeat constructor.
    + apply Hdate.
    + now destruct (Transaction.type t).
    + now apply category_label_plain.
    + now apply Hd1.
    + apply toFixed2_plain.
  - intros filename content E. unfold ReportsPage.exportReport in E.
    destruct (ReportsPage.filteredTransactions rp) as [|t0 txs] eqn:T;
      [discriminate|].
    injection E as _ <-. apply csv_content_reads_back.
    apply Forall_forall. intros row Hrow. apply in_map_iff in Hrow.
    destruct Hrow as [t [<- Ht]]. split; [discriminate|].
    unfold ReportsPage.csv_row. repeat constructor.
    + apply format_yyyy_MM_dd_plain.
    + now destruct (Transaction.type t).
    + now apply category_label_plain.
    + now apply Hd2.
    + apply toFixed2_plain.
Qed.

Lemma export_reads_back_witness :
  let tp := Fixture.transactions_page [Fixture.jan15; Fixture.feb11] in
  let rp := Fixture.reports_page [Fixture.jan15; Fixture.feb11] "all" in
  (forall d, plain (format_yyyy_MM_dd d) = true) /\
  (forall t, In t (ReportsPage.filteredTransactions rp) ->
             plain (Transaction.description t) = true) /\
  (forall filename content,
     ReportsPage.exportReport rp = [Download filename content] ->
     map (split_on ",") (split_on "010" content)
     = csv_headers
         :: map (ReportsPage.csv_row (ReportsPage.categories rp))
                (ReportsPage.filteredTransactions rp)).
Proof.
  intros tp rp.
  assert (Hc : forall c, In c [Fixture.food; Fixture.salary] ->
                         plain (Category.name c) = true).
  { intros c [<-|[<-|[]]]; reflexivity. }
  assert (Hd : forall t, In t [Fixture.jan15; Fixture.feb11] ->
                         plain (Transaction.description t) = true).
  { intros t [<-|[<-|[]]]; reflexivity. }
  split; [exact format_yyyy_MM_dd_plain|]. split; [exact Hd|].
  exact (proj2 (export_reads_back format_yyyy_MM_dd Fixture.feb2024 tp rp
                  format_yyyy_MM_dd_plain Hc Hd Hc Hd)).
Defined.

(** A description with a comma is read back as two fields. *)
Example export_comma_in_description :
  map (split_on ",")
      (split_on "010"
         (csv_content [ReportsPage.csv_row [Fixture.food] Fixture.feb10]))
  = [csv_headers;
     ["2024-02-10"; "expense"; "Food"; "Dinner"; " drinks"; "50.00"]].
Proof. vm_compute. reflexivity. Qed.

(** ** Month names and month lengths *)

Lemma days_in_month_range (year month0 : Z) :
  (28 <= days_in_month year month0 <= 31)%Z.
Proof.
  unfold days_in_month.
  destruct (month0 =? 1)%Z; [destruct (is_leap_year year); lia|].
  destruct ((month0 =? 3)%Z || (month0 =? 5)%Z || (month0 =? 8)%Z
            || (month0 =? 10)%Z); lia.
Qed.

Lemma carry_days_in_range (fuel : nat) (year month0 day : Z) :
  (1 <= day <= days_in_month year month0)%Z ->
  carry_days fuel year month0 day
  = {| Date.year := year; Date.month0 := month0; Date.day := day |}.
Proof.
  intros H. destruct fuel as [|fuel]; [reflexivity|]. simpl.
  destruct (Z.ltb_spec day 1); [lia|].
  destruct (Z.ltb_spec (days_in_month year month0) day); [lia|reflexivity].
Qed.

(** [new Date(year, month, 1)] as [getLastNMonths] uses it. *)
Lemma Date_make_first (year month : Z) :
  Date_make year month 1 = Date_first_of_month year month.
Proof.
  unfold Date_make, Date_first_of_month. apply carry_days_in_range.
  pose proof (days_in_month_range (year + month / 12) (month mod 12)). lia.
Qed.

Lemma long_month_names_differ (m : Z) :
  (0 <= m <= 10)%Z -> long_month_name (m + 1) <> long_month_name m.
Proof.
  intros H.
  assert (C : (m = 0 \/ m = 1 \/ m = 2 \/ m = 3 \/ m = 4 \/ m = 5 \/ m = 6
               \/ m = 7 \/ m = 8 \/ m = 9 \/ m = 10)%Z) by lia.
  repeat (destruct C as [->|C]; [discriminate|]). subst. discriminate.
Qed.

(** X23. [getMonthName] names the month asked for exactly when the day of the
    clock exists in that month; on a later day (the 29th to 31st) the date
    overflows and the name of the following month is returned.  It is
    right on every day up to the 28th. *)
Theorem getMonthName_day_overflow (today : Date.t) (month : Z) :
  (1 <= Date.day today <= 31)%Z -> (1 <= month <= 12)%Z ->
  (getMonthName today month = long_month_name (month - 1)
   <-> (Date.day today <= days_in_month (Date.year today) (month - 1))%Z) /\
  ((days_in_month (Date.year today) (month - 1) < Date.day today)%Z ->
   getMonthName today month = long_month_name month) /\
  ((Date.day today <= 28)%Z ->
   getMonthName today month = long_month_name (month - 1)).
Proof.
  intros Hd Hm.
  set (m0 := (month - 1)%Z).
  assert (Hm0 : (0 <= m0 <= 11)%Z) by (unfold m0; lia).
  assert (Ediv : (m0 / 12 = 0)%Z) by (apply Z.div_small; lia).
  assert (Emod : (m0 mod 12 = m0)%Z) by (apply Z.mod_small; lia).
  pose proof (days_in_month_range (Date.year today) m0) as R.
  assert (In_range :
            (Date.day today <= days_in_month (Date.year today) m0)%Z ->
            getMonthName today month = long_month_name m0).
  { intros L. unfold getMonthName, Date_setMonth, Date_make. fold m0.
    rewrite Ediv, Emod, Z.add_0_r.
    rewrite carry_days_in_range by lia. reflexivity. }
  assert (Over :
            (days_in_month (Date.year today) m0 < Date.day today)%Z ->
            getMonthName today month = long_month_name (m0 + 1)).
  { intros L. unfold getMonthName, Date_setMonth, Date_make. fold m0.
    rewrite Ediv, Emod, Z.add_0_r.
    assert (N11 : m0 <> 11%Z).
    { intros E. rewrite E in L. unfold days_in_month in L. simpl in L. lia. }
    destruct (Z.to_nat (Z.abs (Date.day today)) + 1)%nat as [|[|fuel]] eqn:F;
      try lia.
    cbn [carry_days].
    destruct (Z.ltb_spec (Date.day today) 1); [lia|].
    destruct (Z.ltb_spec (days_in_month (Date.year today) m0)
                         (Date.day today)); [|lia].
    destruct (Z.eqb_spec m0 11); [contradiction|].
    pose proof (days_in_month_range (Date.year today) (m0 + 1)).
    destruct (Z.ltb_spec (Date.day today
                          - days_in_month (Date.year today) m0) 1); [lia|].
    destruct (Z.ltb_spec (days_in_month (Date.year today) (m0 + 1))
                         (Date.day today
                          - days_in_month (Date.year today) m0));
      [lia|reflexivity]. }
  replace month with (m0 + 1)%Z at 3 by (unfold m0; lia).
  split; [|split].
  - split; [|exact In_range]. intros E.
    destruct (Z.le_gt_cases (Date.day today)
                            (days_in_month (Date.year today) m0)) as [L|G];
      [exact L|].
    exfalso. rewrite (Over G) in E.
    assert (m0 <> 11%Z).
    { intros E11. rewrite E11 in G. unfold days_in_month in G. simpl in G. lia. }
    apply (long_month_names_differ m0); [lia|exact E].
  - exact Over.
  - intros L. apply In_range. lia.
Qed.

Lemma getMonthName_day_overflow_witness :
  let today := Fixture.on 2024 1 31 in
  (1 <= Date.day today <= 31)%Z /\ (1 <= 2 <= 12)%Z /\
  getMonthName today 2 = long_month_name 2 /\
  getMonthName today 2 = "March".
Proof.
  intros today.
  assert (H1 : (1 <= Date.day today <= 31)%Z) by (simpl; lia).
  assert (H2 : (1 <= 2 <= 12)%Z) by lia.
  split; [exact H1|]. split; [exact H2|].
  pose proof (proj1 (proj2 (getMonthName_day_overflow today 2 H1 H2))) as O.
  assert (G : (days_in_month (Date.year today) (2 - 1) < Date.day today)%Z)
    by (vm_compute; reflexivity).
  split; [exact (O G)|]. rewrite (O G). reflexivity.
Defined.

(** X24. [getDaysInMonth year month], for a year that a date can hold
    and a month counted from 1, is the number of days of that month in the
    year that the date constructor reads: the year itself outside 0..99,
    the year 1900 later from 0 to 99.  It is between 28 and 31, and 29 for
    February exactly when the year read is a leap year. *)
Theorem getDaysInMonth_length (year month : Z) :
  (-271820 <= year <= 275759)%Z -> (1 <= month <= 12)%Z ->
  getDaysInMonth year month
  = days_in_month (if (0 <=? year)%Z && (year <=? 99)%Z
                   then 1900 + year else year)%Z (month - 1) /\
  (~ (0 <= year <= 99)%Z ->
   getDaysInMonth year month = days_in_month year (month - 1)) /\
  (28 <= getDaysInMonth year month <= 31)%Z /\
  (month = 2%Z ->
   getDaysInMonth year month
   = (if is_leap_year (if (0 <=? year)%Z && (year <=? 99)%Z
                       then 1900 + year else year)
      then 29 else 28)%Z).
Proof.
  intros _ Hm.
  assert (E : getDaysInMonth year month
              = days_in_month (MakeFullYear year) (month - 1)).
  { unfold getDaysInMonth, Date_new, Date_make.
    cbn [Z.abs Z.to_nat Nat.add carry_days].
    destruct (Z.eq_dec month 12) as [->|N].
    - reflexivity.
    - rewrite Z.div_small, Z.mod_small, Z.add_0_r by lia.
      destruct (Z.eqb_spec month 0); [lia|]. simpl. lia. }
  fold (MakeFullYear year).
  split; [exact E|]. split; [|split].
  - intros Hy. rewrite E. unfold MakeFullYear.
    destruct (Z.leb_spec 0 year), (Z.leb_spec year 99); try reflexivity. lia.
  - rewrite E. apply days_in_month_range.
  - intros ->. rewrite E. reflexivity.
Qed.

Lemma getDaysInMonth_length_witness :
  (-271820 <= 2024 <= 275759)%Z /\ (1 <= 2 <= 12)%Z /\
  getDaysInMonth 2024 2 = 29%Z.
Proof.
  assert (Hy : (-271820 <= 2024 <= 275759)%Z) by lia.
  assert (H : (1 <= 2 <= 12)%Z) by lia.
  split; [exact Hy|]. split; [exact H|].
  exact (proj2 (proj2 (proj2 (getDaysInMonth_length 2024 2 Hy H))) eq_refl).
Defined.

(** The year 0 is a leap year of the calendar, yet its February is given
    28 days, those of February 1900. *)
Example getDaysInMonth_two_digit_year :
  is_leap_year 0 = true /\ getDaysInMonth 0 2 = 28%Z /\
  getDaysInMonth 2024 2 = 29%Z /\ getDaysInMonth 2023 12 = 31%Z.
Proof. repeat split. Qed.

(** ** Currency input: what is displayed parses back *)

Lemma replace_first_eq (pattern s : string) :
  CurrencyInput.replace_first pattern s
  = if String.prefix pattern s
    then CurrencyInput.skip (String.length pattern) s
    else match s with
         | EmptyString => EmptyString
         | String c rest => String c (CurrencyInput.replace_first pattern rest)
         end.
Proof. destruct s; reflexivity. Qed.

Lemma skip_app (p s : string) :
  CurrencyInput.skip (String.length p) (p ++ s) = s.
Proof. induction p as [|c p IH]; [now destruct s|exact IH]. Qed.

Lemma prefix_app (p s : string) : String.prefix p (p ++ s) = true.
Proof.
  induction p as [|c p IH]; [now destruct s|].
  cbn [append String.prefix]. destruct (ascii_dec c c); [exact IH|contradiction].
Qed.

Lemma replace_first_app (p s : string) :
  CurrencyInput.replace_first p (p ++ s) = s.
Proof. now rewrite replace_first_eq, prefix_app, skip_app. Qed.

Lemma every_app (f : ascii -> bool) (a b : string) :
  every f (a ++ b) = every f a && every f b.
Proof.
  induction a as [|c a IH]; [reflexivity|].
  cbn [append every]. now rewrite IH, andb_assoc.
Qed.

Lemma every_impl (f g : ascii -> bool) (s : string) :
  (forall c, f c = true -> g c = true) ->
  every f s = true -> every g s = true.
Proof.
  intros H. induction s as [|c s IH]; [reflexivity|].
  cbn [every]. rewrite !andb_true_iff. intros [Hc Hs]. auto.
Qed.

Lemma keep_every (f : ascii -> bool) (s : string) :
  every f s = true -> CurrencyInput.keep f s = s.
Proof.
  induction s as [|c s IH]; [reflexivity|].
  cbn [every CurrencyInput.keep]. rewrite andb_true_iff. intros [-> Hs].
  now rewrite IH.
Qed.

Lemma leading_digits_app (a : string) (c : ascii) (r : string) :
  every CurrencyInput.digit a = true -> CurrencyInput.digit c = false ->
  CurrencyInput.leading_digits (a ++ String c r) = a /\
  CurrencyInput.after_digits (a ++ String c r) = String c r.
Proof.
  intros Ha Hc. induction a as [|x a IH].
  - cbn [append CurrencyInput.leading_digits CurrencyInput.after_digits].
    now rewrite Hc.
  - cbn [every] in Ha. apply andb_true_iff in Ha. destruct Ha as [Hx Ha].
    cbn [append CurrencyInput.leading_digits CurrencyInput.after_digits].
    rewrite Hx. destruct (IH Ha) as [-> ->]. now split.
Qed.

Lemma leading_digits_all (a : string) :
  every CurrencyInput.digit a = true -> CurrencyInput.leading_digits a = a.
Proof.
  induction a as [|x a IH]; [reflexivity|].
  cbn [every CurrencyInput.leading_digits]. rewrite andb_true_iff.
  intros [-> Ha]. now rewrite IH.
Qed.

Lemma digit_char_digit (d : Z) :
  (0 <= d <= 9)%Z -> CurrencyInput.digit (digit_char d) = true.
Proof.
  intros H. destruct (digit_char_code d H) as [[L U] _].
  unfold CurrencyInput.digit. apply andb_true_iff.
  split; apply Nat.leb_le; assumption.
Qed.

Lemma two_digits_digits (m : Z) :
  every CurrencyInput.digit (two_digits m) = true.
Proof.
  unfold two_digits. cbn [every].
  rewrite !digit_char_digit; [reflexivity| |].
  - pose proof (Z.mod_pos_bound m 10). lia.
  - pose proof (Z.mod_pos_bound (m / 10) 10). lia.
Qed.

Lemma two_digits_value (m : Z) :
  (0 <= m < 100)%Z -> CurrencyInput.digits_value 0 (two_digits m) = m.
Proof.
  intros H. unfold two_digits. cbn [CurrencyInput.digits_value].
  destruct (digit_char_code ((m / 10) mod 10)) as [_ ->].
  { pose proof (Z.mod_pos_bound (m / 10) 10). lia. }
  destruct (digit_char_code (m mod 10)) as [_ ->].
  { pose proof (Z.mod_pos_bound m 10). lia. }
  rewrite (Z.mod_small (m / 10) 10).
  - pose proof (Z.div_mod m 10). lia.
  - split; [apply Z.div_pos; lia|apply Z.div_lt_upper_bound; lia].
Qed.

(** The value that the accumulating reader of the library gives to a
    sequence of decimal digits is the one [digits_value] reads from its
    text. *)
Lemma of_uint_acc_value (d : Decimal.uint) (acc : positive) :
  Z.pos (Pos.of_uint_acc d acc)
  = CurrencyInput.digits_value (Z.pos acc) (NilEmpty.string_of_uint d).
Proof.
  revert acc.
  induction d as [|d IH|d IH|d IH|d IH|d IH|d IH|d IH|d IH|d IH|d IH];
    intros acc; [reflexivity|..];
    cbn [Pos.of_uint_acc NilEmpty.string_of_uint CurrencyInput.digits_value];
    rewrite IH; f_equal;
    rewrite ?Pos2Z.inj_add, ?Pos2Z.inj_mul;
    change (Z.of_nat (nat_of_ascii _) - 48)%Z with 0%Z
    || change (Z.of_nat (nat_of_ascii _) - 48)%Z with 1%Z
    || change (Z.of_nat (nat_of_ascii _) - 48)%Z with 2%Z
    || change (Z.of_nat (nat_of_ascii _) - 48)%Z with 3%Z
    || change (Z.of_nat (nat_of_ascii _) - 48)%Z with 4%Z
    || change (Z.of_nat (nat_of_ascii _) - 48)%Z with 5%Z
    || change (Z.of_nat (nat_of_ascii _) - 48)%Z with 6%Z
    || change (Z.of_nat (nat_of_ascii _) - 48)%Z with 7%Z
    || change (Z.of_nat (nat_of_ascii _) - 48)%Z with 8%Z
    || change (Z.of_nat (nat_of_ascii _) - 48)%Z with 9%Z;
    lia.
Qed.

Lemma of_uint_value (d : Decimal.uint) :
  Z.of_N (Pos.of_uint d)
  = CurrencyInput.digits_value 0 (NilEmpty.string_of_uint d).
Proof.
  induction d as [|d IH|d IH|d IH|d IH|d IH|d IH|d IH|d IH|d IH|d IH];
    [reflexivity|exact IH|..];
    cbn [Pos.of_uint NilEmpty.string_of_uint CurrencyInput.digits_value];
    cbn [Z.of_N]; rewrite of_uint_acc_value; reflexivity.
Qed.

Lemma string_of_uint_digits (d : Decimal.uint) :
  every CurrencyInput.digit (NilEmpty.string_of_uint d) = true.
Proof. induction d; cbn [NilEmpty.string_of_uint every]; auto. Qed.

Lemma decimal_string_digits (n : Z) :
  every CurrencyInput.digit (decimal_string n) = true.
Proof.
  unfold decimal_string, NilZero.string_of_uint.
  destruct (N.to_uint (Z.to_N n)) eqn:D; try reflexivity;
    apply string_of_uint_digits.
Qed.

Lemma decimal_string_value (n : Z) :
  (0 <= n)%Z -> CurrencyInput.digits_value 0 (decimal_string n) = n.
Proof.
  intros H. unfold decimal_string.
  assert (E : CurrencyInput.digits_value 0
                (NilZero.string_of_uint (N.to_uint (Z.to_N n)))
              = Z.of_N (Pos.of_uint (N.to_uint (Z.to_N n)))).
  { rewrite of_uint_value. unfold NilZero.string_of_uint.
    now destruct (N.to_uint (Z.to_N n)). }
  rewrite E. change (Pos.of_uint (N.to_uint (Z.to_N n)))
    with (N.of_uint (N.to_uint (Z.to_N n))).
  rewrite DecimalN.Unsigned.of_to. now apply Z2N.id.
Qed.

Lemma unsigned_literal_fixed (k m : Z) :
  CurrencyInput.unsigned_literal (decimal_string k ++ "." ++ two_digits m)
  = Some (inject_Z (CurrencyInput.digits_value 0 (decimal_string k))
          + inject_Z (CurrencyInput.digits_value 0 (two_digits m))
            / inject_Z 100).
Proof.
  unfold CurrencyInput.unsigned_literal. cbv zeta.
  change ("." ++ two_digits m)%string with (String "." (two_digits m)).
  destruct (leading_digits_app (decimal_string k) "." (two_digits m))
    as [-> ->]; [apply decimal_string_digits|reflexivity|].
  change ("." =? ".")%char with true. cbv iota.
  rewrite leading_digits_all by apply two_digits_digits.
  change (two_digits m =? "")%string with false.
  rewrite andb_false_r. reflexivity.
Qed.

Lemma literal_value_unsigned (a r : string) :
  every CurrencyInput.digit a = true ->
  CurrencyInput.literal_value (a ++ String "." r)
  = CurrencyInput.unsigned_literal (a ++ String "." r).
Proof.
  destruct a as [|c a]; [reflexivity|].
  cbn [every]. intros H. apply andb_true_iff in H. destruct H as [Hc _].
  cbn [append CurrencyInput.literal_value].
  destruct (Ascii.eqb_spec c "-") as [->|_]; [discriminate|reflexivity].
Qed.

Lemma cents_nonneg (x : Q) : (0 <= Qfloor (Qabs x * 100 + (1 # 2)))%Z.
Proof.
  rewrite <- (Qfloor_Z 0). apply Qfloor_resp_le.
  pose proof (Qabs_nonneg x) as A.
  apply Qle_trans with (0 * 100 + (1 # 2)); [discriminate|].
  apply Qplus_le_l. apply Qmult_le_compat_r; [exact A|discriminate].
Qed.

Lemma literal_value_fixed2 (x : Q) :
  CurrencyInput.literal_value (fixed2 x)
  = let n := Qfloor (Qabs x * 100 + (1 # 2)) in
    let q := inject_Z (n / 100) + inject_Z (n mod 100) / inject_Z 100 in
    Some (if Qle_bool 0 x then q else - q).
Proof.
  unfold fixed2. cbv zeta.
  pose proof (cents_nonneg x) as N0.
  set (n := Qfloor (Qabs x * 100 + (1 # 2))) in *.
  assert (V : CurrencyInput.unsigned_literal
                (decimal_string (n / 100) ++ "." ++ two_digits (n mod 100))
              = Some (inject_Z (n / 100)
                      + inject_Z (n mod 100) / inject_Z 100)).
  { rewrite unsigned_literal_fixed, decimal_string_value, two_digits_value;
      [reflexivity|apply Z.mod_pos_bound; lia|apply Z.div_pos; lia]. }
  destruct (Qle_bool 0 x).
  - cbn [append].
    change ("." ++ two_digits (n mod 100))%string
      with (String "." (two_digits (n mod 100))) in *.
    rewrite literal_value_unsigned by apply decimal_string_digits. exact V.
  - change ("-" ++ decimal_string (n / 100) ++ "." ++ two_digits (n mod 100))%string
      with (String "-" (decimal_string (n / 100) ++ "."
                          ++ two_digits (n mod 100))).
    cbn [CurrencyInput.literal_value]. change ("-" =? "-")%char with true.
    cbv iota. now rewrite V.
Qed.

Lemma fixed2_numeric (x : Q) :
  every CurrencyInput.numeric_char (fixed2 x) = true.
Proof.
  assert (D : forall s, every CurrencyInput.digit s = true ->
                        every CurrencyInput.numeric_char s = true).
  { intros s. apply every_impl. intros c Hc.
    unfold CurrencyInput.numeric_char. now rewrite Hc. }
  unfold fixed2. cbv zeta.
  rewrite !every_app, (D _ (decimal_string_digits _)),
    (D _ (two_digits_digits _)).
  now destruct (Qle_bool 0 x).
Qed.

Lemma fixed2_not_blank (x : Q) :
  ((fixed2 x =? "") || (fixed2 x =? "-"))%string = false.
Proof.
  assert (E : forall a c b, (a ++ String c b =? "")%string = false)
    by (now intros [|? ?] ? ?).
  unfold fixed2. cbv zeta.
  set (d := decimal_string _). set (f := two_digits _).
  change ("." ++ f)%string with (String "." f).
  destruct (Qle_bool 0 x).
  - cbn [append]. rewrite E. destruct d as [|c d]; [reflexivity|].
    cbn [append String.eqb orb]. rewrite E. now destruct (c =? "-")%char.
  - change ("-" ++ d ++ String "." f)%string
      with (String "-" (d ++ String "." f)).
    cbn [String.eqb orb]. now rewrite E.
Qed.

Lemma fixed2_comp (x y : Q) : x == y -> fixed2 x = fixed2 y.
Proof.
  intros E. unfold fixed2. cbv zeta.
  assert (F : Qfloor (Qabs x * 100 + (1 # 2))
              = Qfloor (Qabs y * 100 + (1 # 2)))
    by (apply Qfloor_comp; now rewrite E).
  assert (S : Qle_bool 0 x = Qle_bool 0 y).
  { destruct (Qle_bool 0 y) eqn:Y.
    - apply Qle_bool_iff. apply Qle_bool_iff in Y. now rewrite E.
    - destruct (Qle_bool 0 x) eqn:X; [|reflexivity].
      apply Qle_bool_iff in X. rewrite E in X. apply Qle_bool_iff in X.
      congruence. }
  now rewrite F, S.
Qed.

Lemma cents_split (n : Z) :
  inject_Z (n / 100) + inject_Z (n mod 100) / inject_Z 100
  == inject_Z n / 100.
Proof.
  assert (E : inject_Z n = inject_Z (100 * (n / 100) + n mod 100))
    by (f_equal; apply Z.div_mod; lia).
  rewrite E, inject_Z_plus, inject_Z_mult.
  change (inject_Z 100) with 100. field.
Qed.

(** The sign of a number is that of the double nearest to it. *)
Lemma round64_sign (v : Q) : Qle_bool 0 (Js.round64 v) = Qle_bool 0 v.
Proof.
  destruct (Qle_bool 0 v) eqn:V.
  - apply Qle_bool_iff. apply Qle_bool_iff in V. now apply round64_nonneg.
  - destruct (Qle_bool 0 (Js.round64 v)) eqn:R; [|reflexivity].
    apply Qle_bool_iff in R.
    assert (N : 0 < - v).
    { destruct (Qlt_le_dec v 0) as [L|L]; [lra|].
      apply Qle_bool_iff in L. congruence. }
    pose proof (round64_pos (- v) N) as P. rewrite round64_opp in P. lra.
Qed.

(** A double from 2^53 on is an integer. *)
Lemma double_large_integer (d : Q) :
  Js.round64 d == d -> inject_Z (2 ^ 53) <= d -> exists m, d == inject_Z m.
Proof.
  intros Hd L.
  assert (P : 0 < d) by (apply Qlt_le_trans with (inject_Z (2 ^ 53)); [reflexivity|exact L]).
  assert (Nz : ~ d == 0) by lra.
  pose proof (round64_nonzero d Nz) as R. rewrite Hd in R.
  destruct (mag_spec d Nz) as [_ U].
  assert (D0 : 0 <= d) by lra. rewrite (Qabs_pos d D0) in U.
  assert (M : (53 < Js.mag d)%Z).
  { apply two_lt_inv. rewrite <- (two_inject 53) by lia.
    now apply Qle_lt_trans with d. }
  exists (Js.rne (d / 2 ^ (Js.mag d - 53)) * 2 ^ (Js.mag d - 53))%Z.
  rewrite inject_Z_mult, (two_inject (Js.mag d - 53)) by lia. exact R.
Qed.

(** The double nearest to the hundredth that a double [x] displays as
    displays as [x] does. *)
Lemma hundredths_reads_back (x : Q) :
  Js.round64 x == x -> 0 <= x -> x < inject_Z (10 ^ 21) ->
  let y := Js.round64 (hundredths x) in
  0 <= y /\ y < inject_Z (10 ^ 21) /\
  Qfloor (Qabs y * 100 + (1 # 2)) = Qfloor (Qabs x * 100 + (1 # 2)).
Proof.
  intros Hx X0 X21. cbv zeta.
  pose proof (Qfloor_half_nearest (Qabs x * 100)) as [NL NU].
  pose proof (cents_nonneg x) as N0.
  unfold hundredths. cbv zeta.
  set (n := Qfloor (Qabs x * 100 + (1 # 2))) in *.
  rewrite (Qabs_pos x X0) in NL, NU.
  apply Qle_bool_iff in X0. rewrite X0. apply Qle_bool_iff in X0.
  set (h := inject_Z n / 100).
  assert (Eh : inject_Z n == h * 100) by (unfold h; field).
  assert (H0 : 0 <= h).
  { unfold h. apply Qle_shift_div_l; [reflexivity|].
    setoid_replace (0 * 100) with 0 by ring.
    change 0 with (inject_Z 0). now rewrite <- Zle_Qle. }
  set (y := Js.round64 h).
  assert (Y0 : 0 <= y) by now apply round64_nonneg.
  assert (Hy : Js.round64 y == y) by apply round64_idem.
  pose proof (round64_nearest h x Hx) as Near. fold y in Near.
  assert (Dx : Qabs (x - h) <= 1 # 200) by (apply Qabs_Qle_condition; lra).
  assert (Dy : Qabs (y - h) <= 1 # 200) by (now apply Qle_trans with (Qabs (x - h))).
  apply Qabs_Qle_condition in Dy. destruct Dy as [DL DU].
  assert (Strict : y - h < 1 # 200).
  { destruct (Qlt_le_dec (y - h) (1 # 200)) as [S|S]; [exact S|exfalso].
    assert (E1 : y - h == 1 # 200) by lra.
    assert (A : 0 <= y - h) by lra. rewrite (Qabs_pos _ A) in Near.
    assert (E2 : x - h == - (1 # 200)).
    { destruct (Qlt_le_dec (x - h) 0) as [Neg|Pos].
      - assert (B : x - h <= 0) by lra. rewrite (Qabs_neg _ B) in Near. lra.
      - rewrite (Qabs_pos _ Pos) in Near. lra. }
    apply (doubles_not_a_hundredth_apart x y Hx Hy). lra. }
  split; [exact Y0|]. split.
  - destruct (Qlt_le_dec y (inject_Z (10 ^ 21))) as [S|S]; [exact S|exfalso].
    assert (L : inject_Z (2 ^ 53) <= x).
    { apply Qle_trans with (inject_Z (10 ^ 21) - 1); [discriminate|lra]. }
    destruct (double_large_integer x Hx L) as [m Em].
    rewrite Em in X21. rewrite <- Zlt_Qlt in X21.
    assert (M : inject_Z m <= inject_Z (10 ^ 21) - 1).
    { change 1 with (inject_Z 1). unfold Qminus.
      rewrite <- inject_Z_opp, <- inject_Z_plus, <- Zle_Qle. lia. }
    lra.
  - apply (nearest_integer_unique (Qabs y * 100));
      [apply Qfloor_half_nearest|].
    unfold nearest_integer. rewrite (Qabs_pos y Y0). lra.
Qed.

(** X25. Currency input: the text that the input shows for an amount
    below 1e21 in magnitude, the prefix followed by the amount with two
    decimals, is read back by the change handler as the double nearest to
    that amount rounded to the nearest hundredth; a negative amount is read
    back as zero unless negative values are allowed.  For an amount that
    is not negative, the value read back displays as the same text
    again. *)
Theorem displayed_amount_parses_back
  (prefix : string) (allowNegative : bool) (value : Q)
  (Hrange : Qabs (Js.round64 value) < inject_Z (10 ^ 21)) :
  exists parsed,
    CurrencyInput.handleChange prefix allowNegative
      (CurrencyInput.displayValue prefix (Some value)) = Some parsed /\
    parsed == (if Qle_bool 0 value || allowNegative
               then Js.round64 (hundredths (Js.round64 value)) else 0) /\
    (0 <= value ->
     CurrencyInput.displayValue prefix (Some parsed)
     = CurrencyInput.displayValue prefix (Some value)).
Proof.
  unfold CurrencyInput.handleChange, CurrencyInput.displayValue,
    CurrencyInput.formatValue, CurrencyInput.parseValue,
    CurrencyInput.parseFloat. cbv zeta.
  rewrite (toFixed2_fixed value Hrange).
  rewrite replace_first_app, (keep_every _ _ (fixed2_numeric _)),
    fixed2_not_blank, literal_value_fixed2. cbv zeta.
  rewrite round64_sign. cbn [option_map].
  set (x := Js.round64 value) in *.
  assert (Hx : Js.round64 x == x) by apply round64_idem.
  pose proof (cents_nonneg x) as N0.
  pose proof (cents_split (Qfloor (Qabs x * 100 + (1 # 2)))) as S.
  destruct (Qle_bool 0 value) eqn:Pos.
  - assert (X0 : 0 <= x) by (apply round64_nonneg; now apply Qle_bool_iff).
    assert (X21 : x < inject_Z (10 ^ 21)) by now rewrite (Qabs_pos x X0) in Hrange.
    destruct (hundredths_reads_back x Hx X0 X21) as [Y0 [Y21 F]].
    assert (E : Js.round64
                  (inject_Z (Qfloor (Qabs x * 100 + (1 # 2)) / 100)
                   + inject_Z (Qfloor (Qabs x * 100 + (1 # 2)) mod 100)
                     / inject_Z 100)
                = Js.round64 (hundredths x)).
    { apply round64_comp. rewrite S. unfold hundredths. cbv zeta.
      apply Qle_bool_iff in X0. now rewrite X0. }
    rewrite E. set (y := Js.round64 (hundredths x)) in *.
    apply Qle_bool_iff in Y0. rewrite Y0, andb_false_r.
    apply Qle_bool_iff in Y0.
    exists y. cbn [orb]. split; [reflexivity|]. split; [reflexivity|].
    intros _. f_equal.
    assert (Ry : Js.round64 y == y) by apply round64_idem.
    assert (By : Qabs (Js.round64 y) < inject_Z (10 ^ 21))
      by (rewrite Ry, (Qabs_pos y Y0); exact Y21).
    rewrite (toFixed2_fixed y By), (fixed2_comp _ _ Ry).
    unfold fixed2. cbv zeta. rewrite F.
    apply Qle_bool_iff in X0, Y0. now rewrite X0, Y0.
  - assert (X0 : Qle_bool 0 x = false) by (unfold x; now rewrite round64_sign).
    assert (E : Js.round64
                  (- (inject_Z (Qfloor (Qabs x * 100 + (1 # 2)) / 100)
                      + inject_Z (Qfloor (Qabs x * 100 + (1 # 2)) mod 100)
                        / inject_Z 100))
                = Js.round64 (hundredths x)).
    { apply round64_comp. rewrite S. unfold hundredths. cbv zeta.
      now rewrite X0. }
    rewrite E. set (y := Js.round64 (hundredths x)) in *.
    assert (Yneg : y <= 0).
    { unfold y. rewrite <- round64_0. apply round64_le.
      unfold hundredths. cbv zeta. rewrite X0.
      apply (Qopp_le_compat 0). apply Qle_shift_div_l; [reflexivity|].
      setoid_replace (0 * 100) with 0 by ring.
      change 0 with (inject_Z 0). now rewrite <- Zle_Qle. }
    cbn [orb]. destruct allowNegative; cbn [negb andb].
    + exists y. split; [reflexivity|]. split; [reflexivity|].
      intros Hv. apply Qle_bool_iff in Hv. congruence.
    + destruct (Qle_bool 0 y) eqn:Z0; cbn [negb].
      * exists y. split; [reflexivity|]. split.
        -- apply Qle_bool_iff in Z0. now apply Qle_antisym.
        -- intros Hv. apply Qle_bool_iff in Hv. congruence.
      * exists 0. split; [reflexivity|]. split; [reflexivity|].
        intros Hv. apply Qle_bool_iff in Hv. congruence.
Qed.

Lemma displayed_amount_parses_back_witness :
  Qabs (Js.round64 (12345 # 1000)) < inject_Z (10 ^ 21) /\
  exists parsed,
    CurrencyInput.handleChange "$" false
      (CurrencyInput.displayValue "$" (Some (12345 # 1000))) = Some parsed /\
    parsed == (if Qle_bool 0 (12345 # 1000) || false
               then Js.round64 (hundredths (Js.round64 (12345 # 1000)))
               else 0) /\
    (0 <= 12345 # 1000 ->
     CurrencyInput.displayValue "$" (Some parsed)
     = CurrencyInput.displayValue "$" (Some (12345 # 1000))).
Proof.
  assert (H : Qabs (Js.round64 (12345 # 1000)) < inject_Z (10 ^ 21))
    by (vm_compute; reflexivity).
  split; [exact H|].
  apply (displayed_amount_parses_back "$" false (12345 # 1000) H).
Defined.

(** The text shown for 1.005, whose nearest double is below it, and the
    number read back from it. *)
Example displayed_amount_doubles :
  CurrencyInput.displayValue "$" (Some (1005 # 1000)) = "$1.00" /\
  CurrencyInput.handleChange "$" false "$0.10"
  = Some (3602879701896397 # 36028797018963968).
Proof. vm_compute. split; reflexivity. Qed.

(** ** Currency input: what the parser hands over *)

Lemma every_skip (f : ascii -> bool) (n : nat) (s : string) :
  every f s = true -> every f (CurrencyInput.skip n s) = true.
Proof.
  revert s. induction n as [|n IH]; intros [|c s] H; try exact H.
  cbn [CurrencyInput.skip]. apply IH. cbn [every] in H.
  apply andb_true_iff in H. tauto.
Qed.

Lemma every_replace_first (f : ascii -> bool) (p s : string) :
  every f s = true -> every f (CurrencyInput.replace_first p s) = true.
Proof.
  induction s as [|c s IH]; intros H; rewrite replace_first_eq;
    destruct (String.prefix p _); try (now apply every_skip); [exact H|].
  cbn [every] in *. apply andb_true_iff in H. destruct H as [-> H].
  now rewrite IH.
Qed.

Lemma every_keep (f g : ascii -> bool) (s : string) :
  every f s = true -> every f (CurrencyInput.keep g s) = true.
Proof.
  induction s as [|c s IH]; intros H; [exact H|].
  cbn [every CurrencyInput.keep] in *. apply andb_true_iff in H.
  destruct H as [Hc H]. destruct (g c); [cbn [every]; rewrite Hc|]; auto.
Qed.

Lemma unsigned_literal_no_digit (s : string) :
  every (fun c => negb (CurrencyInput.digit c)) s = true ->
  CurrencyInput.unsigned_literal s = None.
Proof.
  assert (L : forall r, every (fun c => negb (CurrencyInput.digit c)) r = true ->
                        CurrencyInput.leading_digits r = "" /\
                        CurrencyInput.after_digits r = r).
  { intros [|c r] H; [now split|]. cbn [every] in H.
    apply andb_true_iff in H. destruct H as [Hc _].
    apply negb_true_iff in Hc.
    cbn [CurrencyInput.leading_digits CurrencyInput.after_digits].
    now rewrite Hc. }
  intros H. unfold CurrencyInput.unsigned_literal. cbv zeta.
  destruct (L s H) as [-> ->]. destruct s as [|c r]; [reflexivity|].
  cbn [every] in H. apply andb_true_iff in H. destruct H as [_ Hr].
  destruct (c =? ".")%char; [|reflexivity].
  now rewrite (proj1 (L r Hr)).
Qed.

Lemma parseFloat_no_digit (s : string) :
  every (fun c => negb (CurrencyInput.digit c)) s = true ->
  CurrencyInput.parseFloat s = None.
Proof.
  intros H. unfold CurrencyInput.parseFloat.
  destruct s as [|c r]; [reflexivity|].
  cbn [CurrencyInput.literal_value]. destruct (c =? "-")%char.
  - cbn [every] in H. apply andb_true_iff in H. destruct H as [_ Hr].
    now rewrite (unsigned_literal_no_digit r Hr).
  - now rewrite unsigned_literal_no_digit.
Qed.

(** X26. Currency input: a text without any digit is handed over as
    [undefined], whatever the prefix and whether or not negative values are
    allowed. *)
Theorem parseValue_needs_a_digit
  (prefix : string) (allowNegative : bool) (str : string)
  (Hnone : every (fun c => negb (CurrencyInput.digit c)) str = true) :
  CurrencyInput.parseValue prefix allowNegative str = None.
Proof.
  unfold CurrencyInput.parseValue. cbv zeta.
  destruct (_ || _); [reflexivity|].
  rewrite parseFloat_no_digit; [reflexivity|].
  now apply every_keep, every_replace_first.
Qed.

Lemma parseValue_needs_a_digit_witness :
  every (fun c => negb (CurrencyInput.digit c)) "$ -.- USD" = true /\
  CurrencyInput.parseValue "$" true "$ -.- USD" = None.
Proof.
  split; [reflexivity|].
  apply (parseValue_needs_a_digit "$" true "$ -.- USD"). reflexivity.
Defined.

(** X27. Currency input: unless negative values are allowed, the number
    handed over is never negative. *)
Theorem parseValue_never_negative
  (prefix str : string) (parsed : Q)
  (Hparsed : CurrencyInput.parseValue prefix false str = Some parsed) :
  0 <= parsed.
Proof.
  revert Hparsed. unfold CurrencyInput.parseValue. cbv zeta.
  destruct (_ || _); [discriminate|].
  destruct (CurrencyInput.parseFloat _) as [p|]; [|discriminate].
  cbn [negb andb]. destruct (Qle_bool 0 p) eqn:E; cbn [negb];
    intros [= <-]; [now apply Qle_bool_iff|apply Qle_refl].
Qed.

Lemma parseValue_never_negative_witness :
  CurrencyInput.parseValue "$" false "$-12.5" = Some 0 /\ 0 <= 0.
Proof.
  split; [reflexivity|].
  apply (parseValue_never_negative "$" "$-12.5" 0). reflexivity.
Defined.
